(** * bazel-remote: the HTTP cache handler (cache/http.go)

    A shallow embedding of the request-handling layer of the cache server:
    the key parser [cacheItemFromRequestPath], the upload registry
    ([startUpload], [stopUpload]), the writer [saveToDisk], the
    dispatcher [CacheHandler] and the status page [StatusPageHandler],
    together with the pieces of the Go standard library they call (regexp,
    html, path/filepath, net, crypto/sha256, encoding/json, unicode/utf8,
    net/http's ResponseWriter).

    Go strings and byte slices are Rocq strings (sequences of bytes);
    int64 values are [Z]; maps are [gmap]s. *)

From Stdlib Require Import ZArith List Ascii String Bool Lia.
From stdpp Require Import base option list gmap strings.

Local Open Scope string_scope.
Local Open Scope list_scope.

Arguments String.append !s1 s2 : simpl nomatch.

(** ** unicode/utf8 *)

Module Utf8.

(** The table [first] beyond ASCII: the size of the encoding a byte starts
    and the range its second byte must lie in ([acceptRanges]); [None]
    for a byte that starts no encoding ([xx]). *)
Definition first (c : nat) : option (nat * nat * nat) :=
  if Nat.ltb c 194 then None
  else if Nat.ltb c 224 then Some (2, 128, 191)%nat
  else if Nat.eqb c 224 then Some (3, 160, 191)%nat
  else if Nat.ltb c 237 then Some (3, 128, 191)%nat
  else if Nat.eqb c 237 then Some (3, 128, 159)%nat
  else if Nat.ltb c 240 then Some (3, 128, 191)%nat
  else if Nat.eqb c 240 then Some (4, 144, 191)%nat
  else if Nat.ltb c 244 then Some (4, 128, 191)%nat
  else if Nat.eqb c 244 then Some (4, 128, 143)%nat
  else None.

Definition between (lo hi : nat) (c : ascii) : bool :=
  Nat.leb lo (nat_of_ascii c) && Nat.leb (nat_of_ascii c) hi.

(** The number of bytes one step of [RuneCountInString] advances by, at a
    byte [c] followed by [rest]: the size of a well-formed encoding, and 1
    for an ASCII byte and for a short or ill-formed encoding. *)
Definition rune_size (c : ascii) (rest : string) : nat :=
  if Nat.ltb (nat_of_ascii c) 128 then 1
  else
    match first (nat_of_ascii c) with
    | None => 1
    | Some (size, lo, hi) =>
        if Nat.ltb (String.length rest) (size - 1) then 1
        else
          match rest with
          | String c1 rest1 =>
              if negb (between lo hi c1) then 1
              else if Nat.eqb size 2 then 2
              else
                match rest1 with
                | String c2 rest2 =>
                    if negb (between 128 191 c2) then 1
                    else if Nat.eqb size 3 then 3
                    else
                      match rest2 with
                      | String c3 _ =>
                          if negb (between 128 191 c3) then 1 else 4
                      | EmptyString => 1
                      end
                | EmptyString => 1
                end
          | EmptyString => 1
          end
    end.

(** The loop of [RuneCountInString]; [skip] is the number of bytes left of
    the encoding counted last. *)
Fixpoint count_from (skip : nat) (s : string) : nat :=
  match s with
  | EmptyString => 0
  | String c rest =>
      match skip with
      | S k => count_from k rest
      | O => S (count_from (rune_size c rest - 1) rest)
      end
  end.

Definition RuneCountInString (s : string) : nat := count_from 0 s.

End Utf8.

(** ** Byte strings *)

Module Str.

Definition eqb_ascii (a b : ascii) : bool := Ascii.eqb a b.

(** [strings.Split(s, sep)] for a one-byte separator. *)
Fixpoint split_on (c : ascii) (s : string) : list string :=
  match s with
  | EmptyString => [EmptyString]
  | String a s' =>
      if eqb_ascii a c then EmptyString :: split_on c s'
      else match split_on c s' with
           | h :: t => String a h :: t
           | [] => [String a EmptyString]
           end
  end.

(** [strings.Join(elems, sep)]. *)
Fixpoint join_with (sep : string) (l : list string) : string :=
  match l with
  | [] => EmptyString
  | [x] => x
  | x :: rest => x +:+ sep +:+ join_with sep rest
  end.

Fixpoint contains_byte (c : ascii) (s : string) : bool :=
  match s with
  | EmptyString => false
  | String a s' => eqb_ascii a c || contains_byte c s'
  end.

Fixpoint all_bytes (p : ascii -> bool) (s : string) : bool :=
  match s with
  | EmptyString => true
  | String a s' => p a && all_bytes p s'
  end.

Fixpoint replicate_byte (n : nat) (c : ascii) : string :=
  match n with
  | O => EmptyString
  | S n' => String c (replicate_byte n' c)
  end.

(** Right-justification in a field of [w] columns: the [%ws] verb of fmt,
    which pads by the number of runes of the string
    ([utf8.RuneCountInString]), not by its number of bytes. *)
Definition pad_left (w : nat) (s : string) : string :=
  replicate_byte (w - Utf8.RuneCountInString s) " " +:+ s.

Definition digit_of (n : nat) : ascii := ascii_of_nat (48 + n).

Fixpoint decimal_aux (fuel n : nat) (acc : string) : string :=
  match fuel with
  | O => acc
  | S fuel' =>
      let acc' := String (digit_of (n mod 10)) acc in
      if Nat.eqb (n / 10) 0 then acc' else decimal_aux fuel' (n / 10) acc'
  end.

(** The [%d] verb of fmt on a non-negative integer. *)
Definition decimal (n : nat) : string := decimal_aux (S n) n EmptyString.

End Str.

(** ** regexp: a backtracking matcher with submatches

    Go's regexp returns the leftmost match and, among the leftmost ones,
    the one a backtracking engine finds first.  [exec] lists the ways a
    regular expression matches a prefix of its input in that order of
    preference; a thread is the matched prefix, the rest of the input and
    the groups captured so far. *)

Module Regexp.

Inductive regex : Type :=
| Lit (c : ascii)
| Class (p : ascii -> bool)
| Cat (r1 r2 : regex)
| Alt (r1 r2 : regex)
| Quest (r : regex)
| Star (r : regex)
| Repeat (n : nat) (r : regex)
| Capture (i : nat) (r : regex)
| BeginText
| EndText.

Abbreviation caps := (gmap nat string).
Definition thread : Type := (string * string * caps)%type.
Definition matcher : Type := nat -> string -> caps -> list thread.

Definition m_eps : matcher := fun _ s k => [(EmptyString, s, k)].

Definition m_byte (p : ascii -> bool) : matcher := fun _ s k =>
  match s with
  | String a s' => if p a then [(String a EmptyString, s', k)] else []
  | EmptyString => []
  end.

(** Concatenation: every thread of [e1] is continued by [e2]. *)
Definition m_cat (e1 e2 : matcher) : matcher := fun off s k =>
  flat_map (fun t1 : thread =>
    let '(m1, s1, k1) := t1 in
    map (fun t2 : thread => let '(m2, s2, k2) := t2 in (m1 +:+ m2, s2, k2))
        (e2 (off + String.length m1) s1 k1))
    (e1 off s k).

(** Greedy iteration; an iteration that consumes nothing is not repeated. *)
Fixpoint m_star (e : matcher) (fuel : nat) : matcher := fun off s k =>
  match fuel with
  | O => [(EmptyString, s, k)]
  | S fuel' =>
      flat_map (fun t1 : thread =>
        let '(m1, s1, k1) := t1 in
        match m1 with
        | EmptyString => []
        | _ =>
            map (fun t2 : thread => let '(m2, s2, k2) := t2 in (m1 +:+ m2, s2, k2))
                (m_star e fuel' (off + String.length m1) s1 k1)
        end) (e off s k)
      ++ [(EmptyString, s, k)]
  end.

Fixpoint m_repeat (e : matcher) (n : nat) : matcher :=
  match n with
  | O => m_eps
  | S n' => m_cat e (m_repeat e n')
  end.

Fixpoint exec (r : regex) : matcher :=
  match r with
  | Lit c => m_byte (Str.eqb_ascii c)
  | Class p => m_byte p
  | Cat r1 r2 => m_cat (exec r1) (exec r2)
  | Alt r1 r2 => fun off s k => exec r1 off s k ++ exec r2 off s k
  | Quest r1 => fun off s k => exec r1 off s k ++ m_eps off s k
  | Star r1 => fun off s k => m_star (exec r1) (String.length s) off s k
  | Repeat n r1 => m_repeat (exec r1) n
  | Capture i r1 => fun off s k =>
      map (fun t : thread => let '(m, s', k') := t in (m, s', <[i := m]> k'))
          (exec r1 off s k)
  | BeginText => fun off s k => if Nat.eqb off 0 then m_eps off s k else []
  | EndText => fun off s k =>
      match s with EmptyString => m_eps off s k | _ => [] end
  end.

(** The number of parenthesised groups, [Regexp.NumSubexp]. *)
Fixpoint num_subexp (r : regex) : nat :=
  match r with
  | Lit _ | Class _ | BeginText | EndText => 0
  | Cat r1 r2 | Alt r1 r2 => num_subexp r1 `max` num_subexp r2
  | Quest r1 | Star r1 | Repeat _ r1 => num_subexp r1
  | Capture i r1 => i `max` num_subexp r1
  end.

(** The unanchored search: the first start offset with a match wins. *)
Fixpoint find_from (r : regex) (off : nat) (s : string) : option (string * caps) :=
  match exec r off s ∅ with
  | (m, _, k) :: _ => Some (m, k)
  | [] =>
      match s with
      | EmptyString => None
      | String _ s' => find_from r (S off) s'
      end
  end.

(** [Regexp.FindStringSubmatch]: the match and the text of each group
    (the empty string for a group that took no part); [None] is Go's nil. *)
Definition FindStringSubmatch (r : regex) (s : string) : option (list string) :=
  match find_from r 0 s with
  | Some (m, k) =>
      Some (m :: map (fun i => default EmptyString (k !! i)) (seq 1 (num_subexp r)))
  | None => None
  end.

(** A literal string. *)
Fixpoint lits (s : string) : regex :=
  match s with
  | EmptyString => Repeat 0 (Lit "/")
  | String c EmptyString => Lit c
  | String c s' => Cat (Lit c) (lits s')
  end.

(** [.] without the s flag: any byte but a line feed.  Go matches [.]
    against a whole UTF-8 sequence; byte by byte the pattern below accepts
    the same strings with the same groups, since the bytes it names
    literally are ASCII and are no part of a longer sequence. *)
Definition dot (c : ascii) : bool := negb (Str.eqb_ascii c (ascii_of_nat 10)).

Definition in_range (lo hi : ascii) (c : ascii) : bool :=
  Nat.leb (nat_of_ascii lo) (nat_of_ascii c) && Nat.leb (nat_of_ascii c) (nat_of_ascii hi).

End Regexp.

(** ** html.EscapeString *)

Module Html.

Definition escape_byte (c : ascii) : string :=
  match nat_of_ascii c with
  | 38 => "&amp;"
  | 39 => "&#39;"
  | 60 => "&lt;"
  | 62 => "&gt;"
  | 34 => "&#34;"
  | _ => String c EmptyString
  end.

Fixpoint EscapeString (s : string) : string :=
  match s with
  | EmptyString => EmptyString
  | String c s' => escape_byte c +:+ EscapeString s'
  end.

End Html.

(** ** path/filepath on a Unix host *)

Module Filepath.

(** The output buffer of [Clean], one path element per entry with the
    last one first, and the number of leading [..] elements that cannot
    be backed over. *)
Record lazybuf := { out : list string; dotdot : nat }.

Definition is_rooted (path : string) : bool :=
  match path with
  | String a _ => Str.eqb_ascii a "/"
  | EmptyString => false
  end.

Definition clean_step (rooted : bool) (b : lazybuf) (elem : string) : lazybuf :=
  if String.eqb elem "" then b
  else if String.eqb elem "." then b
  else if String.eqb elem ".." then
    if Nat.ltb (dotdot b) (length (out b)) then
      {| out := tail (out b); dotdot := dotdot b |}
    else if negb rooted then
      {| out := ".." :: out b; dotdot := S (length (out b)) |}
    else b
  else {| out := elem :: out b; dotdot := dotdot b |}.

Definition render (rooted : bool) (b : lazybuf) : string :=
  if rooted then "/" +:+ Str.join_with "/" (rev (out b))
  else match out b with
       | [] => "."
       | _ => Str.join_with "/" (rev (out b))
       end.

Definition clean_buf (path : string) : lazybuf :=
  fold_left (clean_step (is_rooted path)) (Str.split_on "/" path)
            {| out := []; dotdot := 0 |}.

Definition Clean (path : string) : string :=
  match path with
  | EmptyString => "."
  | _ => render (is_rooted path) (clean_buf path)
  end.

(** [filepath.Join]: leading empty elements are dropped, the others are
    joined with a separator and the result is cleaned. *)
Fixpoint Join (elem : list string) : string :=
  match elem with
  | [] => EmptyString
  | e :: rest =>
      if String.eqb e "" then Join rest
      else Clean (Str.join_with "/" elem)
  end.

(** The part of a path up to and including its last separator. *)
Fixpoint upto_last_slash (s : string) : string :=
  match s with
  | EmptyString => EmptyString
  | String a s' =>
      let r := upto_last_slash s' in
      if Str.eqb_ascii a "/" || negb (String.eqb r "") then String a r
      else EmptyString
  end.

Definition Dir (path : string) : string := Clean (upto_last_slash path).

(** What follows the last separator. *)
Definition last_elem (path : string) : string :=
  List.last (Str.split_on "/" path) EmptyString.

End Filepath.

(** ** The key parser *)

(** [regexp.MustCompile("^/?(.*/)?(ac/|cas/)([a-f0-9]{64})$")] *)
Definition blobNameSHA256 : Regexp.regex :=
  let hex c := Regexp.in_range "a" "f" c || Regexp.in_range "0" "9" c in
  Regexp.Cat Regexp.BeginText
    (Regexp.Cat (Regexp.Quest (Regexp.Lit "/"))
       (Regexp.Cat
          (Regexp.Quest
             (Regexp.Capture 1
                (Regexp.Cat (Regexp.Star (Regexp.Class Regexp.dot)) (Regexp.Lit "/"))))
          (Regexp.Cat
             (Regexp.Capture 2 (Regexp.Alt (Regexp.lits "ac/") (Regexp.lits "cas/")))
             (Regexp.Cat
                (Regexp.Capture 3 (Regexp.Repeat 64 (Regexp.Class hex)))
                Regexp.EndText)))).

Record cacheItem := {
  hash : string;
  absFilePath : string;
  verifyHash : bool
}.

(** A Go [(T, error)] pair of which exactly one side is meaningful. *)
Inductive result (A : Type) : Type :=
| Ok (a : A)
| Err (msg : string).
Arguments Ok {A} a.
Arguments Err {A} msg.

Definition cacheItemFromRequestPath (url baseDir : string) : result cacheItem :=
  match Regexp.FindStringSubmatch blobNameSHA256 url with
  | None =>
      Err ("Resource name must be a SHA256 hash in hex. Got '"
             +:+ Html.EscapeString url +:+ "'.")
  | Some m =>
      let parts := drop 2 m in
      match parts with
      | [p0; p1] =>
          Ok {| verifyHash := String.eqb p0 "cas/";
                absFilePath := Filepath.Join [baseDir; p0; p1];
                hash := p1 |}
      | _ =>
          Err ("The path '" +:+ Html.EscapeString url
                 +:+ "' is invalid. Expected (ac/|cas/)SHA256.")
      end
  end.

(** ** crypto/sha256 and encoding/hex

    32-bit words are integers below 2^32; additions wrap around. *)

Module SHA256.

Local Open Scope Z_scope.

Definition mask32 : Z := 4294967295.
Definition add32 (a b : Z) : Z := Z.land (a + b) mask32.
Definition not32 (a : Z) : Z := Z.lxor a mask32.
(** [bits.RotateLeft32(x, -n)] *)
Definition rotr (n x : Z) : Z :=
  Z.lor (Z.shiftr x n) (Z.land (Z.shiftl x (32 - n)) mask32).

Definition hex_val (c : ascii) : Z :=
  let n := Z.of_nat (nat_of_ascii c) in
  if (97 <=? n) then n - 87 else n - 48.

(** Reads big-endian words of eight hexadecimal digits, blanks skipped. *)
Fixpoint words_of_hex (s : string) (digits : nat) (acc : Z) : list Z :=
  match s with
  | EmptyString => []
  | String c s' =>
      if Str.eqb_ascii c " " then words_of_hex s' digits acc
      else
        let acc' := acc * 16 + hex_val c in
        match digits with
        | 7%nat => acc' :: words_of_hex s' 0 0
        | _ => words_of_hex s' (S digits) acc'
        end
  end.

Definition init : list Z :=
  words_of_hex "6a09e667 bb67ae85 3c6ef372 a54ff53a 510e527f 9b05688c 1f83d9ab 5be0cd19" 0 0.

Definition _K : list Z :=
  words_of_hex
    ("428a2f98 71374491 b5c0fbcf e9b5dba5 3956c25b 59f111f1 923f82a4 ab1c5ed5 " +:+
     "d807aa98 12835b01 243185be 550c7dc3 72be5d74 80deb1fe 9bdc06a7 c19bf174 " +:+
     "e49b69c1 efbe4786 0fc19dc6 240ca1cc 2de92c6f 4a7484aa 5cb0a9dc 76f988da " +:+
     "983e5152 a831c66d b00327c8 bf597fc7 c6e00bf3 d5a79147 06ca6351 14292967 " +:+
     "27b70a85 2e1b2138 4d2c6dfc 53380d13 650a7354 766a0abb 81c2c92e 92722c85 " +:+
     "a2bfe8a1 a81a664b c24b8b70 c76c51a3 d192e819 d6990624 f40e3585 106aa070 " +:+
     "19a4c116 1e376c08 2748774c 34b0bcb5 391c0cb3 4ed8aa4a 5b9cca4f 682e6ff3 " +:+
     "748f82ee 78a5636f 84c87814 8cc70208 90befffa a4506ceb bef9a3f7 c67178f2")
    0 0.

Definition byte_val (c : ascii) : Z := Z.of_nat (nat_of_ascii c).
Definition byte_of (z : Z) : ascii := ascii_of_nat (Z.to_nat (Z.land z 255)).

Definition word_at (w : list Z) (i : nat) : Z := nth i w 0.

(** The sixteen big-endian words of a 64-byte block. *)
Fixpoint block_words (n : nat) (p : string) : list Z :=
  match n, p with
  | S n', String b0 (String b1 (String b2 (String b3 p'))) =>
      Z.lor (Z.lor (Z.shiftl (byte_val b0) 24) (Z.shiftl (byte_val b1) 16))
            (Z.lor (Z.shiftl (byte_val b2) 8) (byte_val b3))
        :: block_words n' p'
  | _, _ => []
  end.

(** The message schedule: [w[i]] for [i] from 16 to 63. *)
Fixpoint schedule (n : nat) (w : list Z) : list Z :=
  match n with
  | O => w
  | S n' =>
      let i := length w in
      let v1 := word_at w (i - 2) in
      let t1 := Z.lxor (Z.lxor (rotr 17 v1) (rotr 19 v1)) (Z.shiftr v1 10) in
      let v2 := word_at w (i - 15) in
      let t2 := Z.lxor (Z.lxor (rotr 7 v2) (rotr 18 v2)) (Z.shiftr v2 3) in
      schedule n'
        (w ++ [add32 (add32 (add32 t1 (word_at w (i - 7))) t2) (word_at w (i - 16))])
  end.

Record regs := { ra : Z; rb : Z; rc : Z; rd : Z; re : Z; rf : Z; rg : Z; rh : Z }.

Definition round (r : regs) (kw : Z * Z) : regs :=
  let '(k, w) := kw in
  let e := re r in
  let a := ra r in
  let t1 :=
    add32 (add32 (add32 (add32 (rh r)
      (Z.lxor (Z.lxor (rotr 6 e) (rotr 11 e)) (rotr 25 e)))
      (Z.lxor (Z.land e (rf r)) (Z.land (not32 e) (rg r)))) k) w in
  let t2 :=
    add32 (Z.lxor (Z.lxor (rotr 2 a) (rotr 13 a)) (rotr 22 a))
          (Z.lxor (Z.lxor (Z.land a (rb r)) (Z.land a (rc r))) (Z.land (rb r) (rc r))) in
  {| rh := rg r; rg := rf r; rf := e; re := add32 (rd r) t1;
     rd := rc r; rc := rb r; rb := a; ra := add32 t1 t2 |}.

Definition regs_of (h : list Z) : regs :=
  {| ra := word_at h 0; rb := word_at h 1; rc := word_at h 2; rd := word_at h 3;
     re := word_at h 4; rf := word_at h 5; rg := word_at h 6; rh := word_at h 7 |}.

Definition list_of (r : regs) : list Z :=
  [ra r; rb r; rc r; rd r; re r; rf r; rg r; rh r].

(** One 64-byte block folded into the chaining value. *)
Definition block (h : list Z) (p : string) : list Z :=
  let w := schedule 48 (block_words 16 p) in
  let r := fold_left round (combine _K w) (regs_of h) in
  map (fun xy : Z * Z => add32 (fst xy) (snd xy)) (combine h (list_of r)).

Fixpoint string_drop (n : nat) (s : string) : string :=
  match n, s with
  | S n', String _ s' => string_drop n' s'
  | _, _ => s
  end.

Fixpoint blocks (fuel : nat) (h : list Z) (p : string) : list Z :=
  match fuel with
  | O => h
  | S fuel' =>
      match p with
      | EmptyString => h
      | _ => blocks fuel' (block h p) (string_drop 64 p)
      end
  end.

Fixpoint be_bytes (n : nat) (z : Z) : string :=
  match n with
  | O => EmptyString
  | S n' => String (byte_of (Z.shiftr z (8 * Z.of_nat n'))) (be_bytes n' z)
  end.

(** The padding: a 0x80 byte, zeros up to 56 modulo 64, the bit length. *)
Definition padding (len : nat) : string :=
  let r := (len mod 64)%nat in
  let zeros := if Nat.ltb r 56 then (55 - r)%nat else (119 - r)%nat in
  String (ascii_of_nat 128) (Str.replicate_byte zeros (ascii_of_nat 0))
    +:+ be_bytes 8 (8 * Z.of_nat len).

(** [sha256.Sum256]: the 32-byte digest. *)
Definition Sum256 (data : string) : string :=
  let p := data +:+ padding (String.length data) in
  let h := blocks (S (String.length p / 64)) init p in
  String.concat EmptyString (map (be_bytes 4) h).

Definition hex_digit (z : Z) : ascii :=
  if z <? 10 then ascii_of_nat (Z.to_nat (48 + z)) else ascii_of_nat (Z.to_nat (87 + z)).

(** [hex.EncodeToString] *)
Fixpoint EncodeToString (s : string) : string :=
  match s with
  | EmptyString => EmptyString
  | String c s' =>
      String (hex_digit (Z.shiftr (byte_val c) 4))
        (String (hex_digit (Z.land (byte_val c) 15)) (EncodeToString s'))
  end.

End SHA256.

(** The digest the writer compares with the key: [sha256.New()], the
    bytes written to it, [hex.EncodeToString(hasher.Sum(nil))]. *)
Definition sha256_hex (data : string) : string :=
  SHA256.EncodeToString (SHA256.Sum256 data).

(** ** net.SplitHostPort *)

Module Net.

Fixpoint index_byte (c : ascii) (s : string) : option nat :=
  match s with
  | EmptyString => None
  | String a s' =>
      if Str.eqb_ascii a c then Some 0
      else match index_byte c s' with Some i => Some (S i) | None => None end
  end.

Fixpoint last_index_byte (c : ascii) (s : string) : option nat :=
  match s with
  | EmptyString => None
  | String a s' =>
      match last_index_byte c s' with
      | Some i => Some (S i)
      | None => if Str.eqb_ascii a c then Some 0 else None
      end
  end.

(** [s[i:j]] and [s[i:]] *)
Definition slice (i j : nat) (s : string) : string := String.substring i (j - i) s.
Definition slice_from (i : nat) (s : string) : string :=
  String.substring i (String.length s - i) s.

Definition missingPort : string := "missing port in address".
Definition tooManyColons : string := "too many colons in address".

Definition SplitHostPort (hostport : string) : result (string * string) :=
  match last_index_byte ":" hostport with
  | None => Err missingPort
  | Some i =>
      let bracketed :=
        match hostport with
        | String a _ => Str.eqb_ascii a "["
        | EmptyString => false
        end in
      let checked : result (string * nat * nat) :=
        if bracketed then
          match index_byte "]" hostport with
          | None => Err "missing ']' in address"
          | Some e =>
              if Nat.eqb (e + 1) (String.length hostport) then Err missingPort
              else if Nat.eqb (e + 1) i then Ok (slice 1 e hostport, 1, e + 1)
              else
                match String.get (e + 1) hostport with
                | Some ":"%char => Err tooManyColons
                | _ => Err missingPort
                end
          end
        else
          let host := slice 0 i hostport in
          if Str.contains_byte ":" host then Err tooManyColons
          else Ok (host, 0, 0) in
      match checked with
      | Err why => Err why
      | Ok (host, j, k) =>
          if Str.contains_byte "[" (slice_from j hostport) then
            Err "unexpected '[' in address"
          else if Str.contains_byte "]" (slice_from k hostport) then
            Err "unexpected ']' in address"
          else Ok (host, slice_from (i + 1) hostport)
      end
  end.

End Net.

(** ** The collaborators

    The handler reaches the cache index and the space ensurer through
    two Go interfaces ([Cache] and [EnsureSpacer]); here they are classes
    over the type of the index's state.  The space ensurer may evict
    objects, so it transforms the index and the files on disk. *)

Abbreviation files := (gmap string string).

Class Cache (C : Type) := {
  Dir : C -> string;
  ContainsFile : C -> string -> bool;
  AddFile : C -> string -> Z -> C;
  CurrSize : C -> Z;
  MaxSize : C -> Z;
  NumFiles : C -> Z
}.

Class EnsureSpacer (C : Type) := {
  EnsureSpace : C -> files -> Z -> bool * C * files
}.

(** ** Requests, responses and the state of the server *)

Definition error : Type := option string.

Record Request := {
  Method : string;
  URLPath : string;
  RemoteAddr : string;
  ContentLength : Z;
  (** what reading the body yields: these bytes, then EOF or this error *)
  Body : string;
  BodyErr : error
}.

(** What the operating system answers during one request. *)
Record faults := {
  os_TempDir : string;
  tmp_random : string;
  tmp_err : error;
  sync_err : error;
  rename_err : error
}.

Inductive syscall : Type :=
| SysTempFile (name : string)
| SysWrite (name : string) (n : nat)
| SysSync (name : string)
| SysClose (name : string)
| SysRename (oldpath newpath : string)
| SysRemove (name : string).

(** An [http.ResponseWriter]: the status line once written and the body
    sent so far.  Headers are not modelled. *)
Record ResponseWriter := {
  status : option nat;
  sent : string
}.

Record server (C : Type) := {
  cache : C;
  ongoingUploads : gmap string nat;
  ongoingUploadsMux : bool;
  mutexes : list bool;
  accessLogger : list string;
  errorLogger : list string;
  stdLogger : list string;
  disk : files;
  trace : list syscall;
  unread : string;
  bodyClosed : bool;
  w : ResponseWriter
}.
Arguments cache {C} _.
Arguments ongoingUploads {C} _.
Arguments ongoingUploadsMux {C} _.
Arguments mutexes {C} _.
Arguments accessLogger {C} _.
Arguments errorLogger {C} _.
Arguments stdLogger {C} _.
Arguments disk {C} _.
Arguments trace {C} _.
Arguments unread {C} _.
Arguments bodyClosed {C} _.
Arguments w {C} _.

(** How a call ends: it returns, it panics (net/http recovers the panic
    of a handler and drops the connection), the process exits
    ([log.Fatal] calls [os.Exit(1)], deferred calls do not run), or it
    waits for a mutex another goroutine holds. *)
Inductive outcome (A : Type) : Type :=
| Done (a : A)
| Panic (v : string)
| Exit (code : Z)
| Blocked.
Arguments Done {A} a.
Arguments Panic {A} v.
Arguments Exit {A} code.
Arguments Blocked {A}.

Definition M (S A : Type) : Type := S -> outcome A * S.

Definition ret {S A} (a : A) : M S A := fun s => (Done a, s).

Definition bind {S A B} (m : M S A) (f : A -> M S B) : M S B := fun s =>
  match m s with
  | (Done a, s') => f a s'
  | (Panic v, s') => (Panic v, s')
  | (Exit c, s') => (Exit c, s')
  | (Blocked, s') => (Blocked, s')
  end.

(** [defer d; body]: [d] runs when [body] returns or panics. *)
Definition defer {S A} (d : M S unit) (body : M S A) : M S A := fun s =>
  match body s with
  | (Done a, s') =>
      match d s' with
      | (Done _, s'') => (Done a, s'')
      | (Panic v, s'') => (Panic v, s'')
      | (Exit c, s'') => (Exit c, s'')
      | (Blocked, s'') => (Blocked, s'')
      end
  | (Panic v, s') =>
      match d s' with
      | (Done _, s'') => (Panic v, s'')
      | (Panic v', s'') => (Panic v', s'')
      | (Exit c, s'') => (Exit c, s'')
      | (Blocked, s'') => (Blocked, s'')
      end
  | (Exit c, s') => (Exit c, s')
  | (Blocked, s') => (Blocked, s')
  end.

Definition get {S} : M S S := fun s => (Done s, s).
Definition modify {S} (f : S -> S) : M S unit := fun s => (Done tt, f s).
Definition panic {S A} (v : string) : M S A := fun s => (Panic v, s).
Definition os_Exit {S A} (code : Z) : M S A := fun s => (Exit code, s).
Definition block {S A} : M S A := fun s => (Blocked, s).

#[global] Instance M_ret {S} : MRet (M S) := fun A a => ret a.
#[global] Instance M_bind {S} : MBind (M S) := fun A B f m => bind m f.

Definition decimalZ (z : Z) : string :=
  if (z <? 0)%Z then "-" +:+ Str.decimal (Z.to_nat (- z)) else Str.decimal (Z.to_nat z).

Definition StatusOK : nat := 200.
Definition StatusBadRequest : nat := 400.
Definition StatusNotFound : nat := 404.
Definition StatusMethodNotAllowed : nat := 405.
Definition StatusInternalServerError : nat := 500.
Definition StatusInsufficientStorage : nat := 507.

Section Handler.

Context {C : Type} `{Cache C} `{EnsureSpacer C}.

Abbreviation st := (server C).

Definition set_w (f : ResponseWriter -> ResponseWriter) (s : st) : st :=
  {| cache := cache s; ongoingUploads := ongoingUploads s;
     ongoingUploadsMux := ongoingUploadsMux s; mutexes := mutexes s;
     accessLogger := accessLogger s; errorLogger := errorLogger s;
     stdLogger := stdLogger s; disk := disk s; trace := trace s;
     unread := unread s; bodyClosed := bodyClosed s; w := f (w s) |}.

Definition set_cache_disk (c : C) (d : files) (s : st) : st :=
  {| cache := c; ongoingUploads := ongoingUploads s;
     ongoingUploadsMux := ongoingUploadsMux s; mutexes := mutexes s;
     accessLogger := accessLogger s; errorLogger := errorLogger s;
     stdLogger := stdLogger s; disk := d; trace := trace s;
     unread := unread s; bodyClosed := bodyClosed s; w := w s |}.

Definition set_uploads (u : gmap string nat) (s : st) : st :=
  {| cache := cache s; ongoingUploads := u;
     ongoingUploadsMux := ongoingUploadsMux s; mutexes := mutexes s;
     accessLogger := accessLogger s; errorLogger := errorLogger s;
     stdLogger := stdLogger s; disk := disk s; trace := trace s;
     unread := unread s; bodyClosed := bodyClosed s; w := w s |}.

Definition set_uploadsMux (b : bool) (s : st) : st :=
  {| cache := cache s; ongoingUploads := ongoingUploads s;
     ongoingUploadsMux := b; mutexes := mutexes s;
     accessLogger := accessLogger s; errorLogger := errorLogger s;
     stdLogger := stdLogger s; disk := disk s; trace := trace s;
     unread := unread s; bodyClosed := bodyClosed s; w := w s |}.

Definition set_mutexes (m : list bool) (s : st) : st :=
  {| cache := cache s; ongoingUploads := ongoingUploads s;
     ongoingUploadsMux := ongoingUploadsMux s; mutexes := m;
     accessLogger := accessLogger s; errorLogger := errorLogger s;
     stdLogger := stdLogger s; disk := disk s; trace := trace s;
     unread := unread s; bodyClosed := bodyClosed s; w := w s |}.

Definition add_accessLog (line : string) (s : st) : st :=
  {| cache := cache s; ongoingUploads := ongoingUploads s;
     ongoingUploadsMux := ongoingUploadsMux s; mutexes := mutexes s;
     accessLogger := accessLogger s ++ [line]; errorLogger := errorLogger s;
     stdLogger := stdLogger s; disk := disk s; trace := trace s;
     unread := unread s; bodyClosed := bodyClosed s; w := w s |}.

Definition add_errorLog (line : string) (s : st) : st :=
  {| cache := cache s; ongoingUploads := ongoingUploads s;
     ongoingUploadsMux := ongoingUploadsMux s; mutexes := mutexes s;
     accessLogger := accessLogger s; errorLogger := errorLogger s ++ [line];
     stdLogger := stdLogger s; disk := disk s; trace := trace s;
     unread := unread s; bodyClosed := bodyClosed s; w := w s |}.

Definition add_stdLog (line : string) (s : st) : st :=
  {| cache := cache s; ongoingUploads := ongoingUploads s;
     ongoingUploadsMux := ongoingUploadsMux s; mutexes := mutexes s;
     accessLogger := accessLogger s; errorLogger := errorLogger s;
     stdLogger := stdLogger s ++ [line]; disk := disk s; trace := trace s;
     unread := unread s; bodyClosed := bodyClosed s; w := w s |}.

(** A system call: the new contents of the disk and the call's record. *)
Definition sys (d : files) (e : syscall) (s : st) : st :=
  {| cache := cache s; ongoingUploads := ongoingUploads s;
     ongoingUploadsMux := ongoingUploadsMux s; mutexes := mutexes s;
     accessLogger := accessLogger s; errorLogger := errorLogger s;
     stdLogger := stdLogger s; disk := d; trace := trace s ++ [e];
     unread := unread s; bodyClosed := bodyClosed s; w := w s |}.

Definition set_body (rest : string) (closed : bool) (s : st) : st :=
  {| cache := cache s; ongoingUploads := ongoingUploads s;
     ongoingUploadsMux := ongoingUploadsMux s; mutexes := mutexes s;
     accessLogger := accessLogger s; errorLogger := errorLogger s;
     stdLogger := stdLogger s; disk := disk s; trace := trace s;
     unread := rest; bodyClosed := closed; w := w s |}.

(** *** net/http's ResponseWriter *)

(** [w.WriteHeader(code)]: only the first call sets the status. *)
Definition WriteHeader (code : nat) : M st unit :=
  modify (set_w (fun rw =>
    match status rw with
    | Some _ => rw
    | None => {| status := Some code; sent := sent rw |}
    end)).

(** [w.Write(data)]: writes the header with 200 if there is none yet; the
    answer to a HEAD request carries no body. *)
Definition Write (r : Request) (data : string) : M st unit :=
  WriteHeader StatusOK ;;
  modify (set_w (fun rw =>
    if String.eqb (Method r) "HEAD" then rw
    else {| status := status rw; sent := sent rw +:+ data |})).

(** [http.Error(w, msg, code)] *)
Definition http_Error (r : Request) (msg : string) (code : nat) : M st unit :=
  WriteHeader code ;;
  Write r (msg +:+ String (ascii_of_nat 10) EmptyString).

(** [err.Error()]: a call through a nil interface value panics. *)
Definition Error_of (err : error) : M st string :=
  match err with
  | Some msg => ret msg
  | None => panic "runtime error: invalid memory address or nil pointer dereference"
  end.

(** [strings.FieldsFunc(v, isSlashRune)] has an element [..] *)
Definition containsDotDot (v : string) : bool :=
  existsb (String.eqb "..")
    (flat_map (Str.split_on "\") (Str.split_on "/" v)).

(** [http.ServeFile] for a plain request on a regular file: 400 when the
    request path has a [..] element, else the file's bytes with status
    200, else 404 when there is no such file.  Left out: the answers 206,
    304, 412 and 416 to range and conditional requests (a [Request] carries
    no headers), and the answers 403 and 500 for a file that is there and
    cannot be opened.  The statements that depend on what [http.ServeFile]
    answers say so. *)
Definition ServeFile (r : Request) (name : string) : M st unit :=
  if containsDotDot (URLPath r) then http_Error r "invalid URL path" StatusBadRequest
  else
    s ← get;
    match disk s !! name with
    | Some data => Write r data
    | None => http_Error r "404 page not found" StatusNotFound
    end.

(** *** sync.Mutex *)

Definition Lock (mux : nat) : M st unit :=
  s ← get;
  match mutexes s !! mux with
  | Some false => modify (set_mutexes (<[mux := true]> (mutexes s)))
  | Some true => block
  | None => panic "invalid memory address or nil pointer dereference"
  end.

Definition Unlock (mux : nat) : M st unit :=
  s ← get;
  match mutexes s !! mux with
  | Some true => modify (set_mutexes (<[mux := false]> (mutexes s)))
  | Some false => os_Exit 2
  | None => panic "invalid memory address or nil pointer dereference"
  end.

Definition Lock_registry : M st unit :=
  s ← get;
  if ongoingUploadsMux s then block else modify (set_uploadsMux true).

Definition Unlock_registry : M st unit :=
  s ← get;
  if ongoingUploadsMux s then modify (set_uploadsMux false) else os_Exit 2.

(** *** The file system *)

(** [ioutil.TempFile(dir, prefix)]: a new empty file opened exclusively.
    The retries after a name collision are not modelled; a collision is an
    error. *)
Definition TempFile (env : faults) (dir pfx : string) : M st (result string) :=
  match tmp_err env with
  | Some e => ret (Err e)
  | None =>
      let dir' := if String.eqb dir "" then os_TempDir env else dir in
      let name := Filepath.Join [dir'; pfx +:+ tmp_random env] in
      s ← get;
      match disk s !! name with
      | Some _ => ret (Err ("open " +:+ name +:+ ": file exists"))
      | None =>
          modify (sys (<[name := EmptyString]> (disk s)) (SysTempFile name)) ;;
          ret (Ok name)
      end
  end.

(** [io.Copy(f, content)]: everything the body yields is appended to the
    file; the result is the number of bytes and the body's read error.
    Writes to the file do not fail. *)
Definition Copy (r : Request) (name : string) : M st (string * Z * error) :=
  s ← get;
  let data := unread s in
  modify (set_body EmptyString (bodyClosed s)) ;;
  modify (sys (alter (fun old => old +:+ data) name (disk s))
              (SysWrite name (String.length data))) ;;
  ret (data, Z.of_nat (String.length data), BodyErr r).

Definition Sync (env : faults) (name : string) : M st error :=
  s ← get;
  modify (sys (disk s) (SysSync name)) ;;
  ret (sync_err env).

Definition Close (name : string) : M st unit :=
  s ← get;
  modify (sys (disk s) (SysClose name)).

(** [os.Rename]: atomic; a failed rename changes nothing. *)
Definition Rename (env : faults) (oldpath newpath : string) : M st error :=
  s ← get;
  match rename_err env with
  | Some e => modify (sys (disk s) (SysRename oldpath newpath)) ;; ret (Some e)
  | None =>
      match disk s !! oldpath with
      | Some data =>
          modify (sys (<[newpath := data]> (delete oldpath (disk s)))
                      (SysRename oldpath newpath)) ;;
          ret None
      | None =>
          modify (sys (disk s) (SysRename oldpath newpath)) ;;
          ret (Some ("rename " +:+ oldpath +:+ " " +:+ newpath
                       +:+ ": no such file or directory"))
      end
  end.

(** [os.Remove]: fails when there is no such file. *)
Definition Remove (name : string) : M st error :=
  s ← get;
  match disk s !! name with
  | Some _ => modify (sys (delete name (disk s)) (SysRemove name)) ;; ret None
  | None =>
      modify (sys (disk s) (SysRemove name)) ;;
      ret (Some ("remove " +:+ name +:+ ": no such file or directory"))
  end.

Definition log_Printf (line : string) : M st unit := modify (add_stdLog line).

(** [log.Fatal(err)]: the message, then [os.Exit(1)]. *)
Definition log_Fatal {A} (msg : string) : M st A :=
  modify (add_stdLog msg) ;; os_Exit 1.

(** *** The upload registry *)

Definition startUpload (path : string) : M st nat :=
  Lock_registry ;;
  defer Unlock_registry
    (s ← get;
     match ongoingUploads s !! path with
     | None =>
         let mux := length (mutexes s) in
         modify (set_mutexes (mutexes s ++ [false])) ;;
         modify (set_uploads (<[path := mux]> (ongoingUploads s))) ;;
         ret mux
     | Some mux => ret mux
     end).

Definition stopUpload (path : string) : M st unit :=
  Lock_registry ;;
  defer Unlock_registry
    (s ← get; modify (set_uploads (delete path (ongoingUploads s)))).

(** *** The writer *)

Definition discardUpload : M st unit :=
  s ← get;
  modify (set_body EmptyString (bodyClosed s)) ;;
  WriteHeader StatusOK.

Definition hash_mismatch (provided actual : string) : string :=
  "Hashes don't match. Provided '" +:+ provided +:+ "', Actual '"
    +:+ Html.EscapeString actual +:+ "'.".

Definition saveToDisk (env : faults) (r : Request) (info : cacheItem)
  : M st (Z * error) :=
  s ← get;
  f ← TempFile env (Dir (cache s)) "upload";
  match f with
  | Err e => ret (0%Z, Some e)
  | Ok tmpName =>
      copied ←
        (if verifyHash info then
           c ← Copy r tmpName;
           let '(data, written, err) := c in
           let actualHash := sha256_hex data in
           if negb (String.eqb (hash info) actualHash) then
             Remove tmpName ;;
             ret (inl (hash_mismatch (hash info) actualHash))
           else ret (inr (written, err))
         else
           c ← Copy r tmpName;
           let '(_, written, err) := c in
           ret (inr (written, err)));
      match copied with
      | inl msg => ret (0%Z, Some msg)
      | inr (written, Some e) => ret (0%Z, Some e)
      | inr (written, None) =>
          err ← Sync env tmpName;
          match err with
          | Some e => log_Fatal e
          | None =>
              Close tmpName ;;
              err2 ← Rename env tmpName (absFilePath info);
              match err2 with
              | Some e2 =>
                  log_Printf ("Failed renaming " +:+ tmpName
                                +:+ " to its final destination "
                                +:+ absFilePath info +:+ ": " +:+ e2) ;;
                  err ← Remove (absFilePath info);
                  match err with
                  | Some e =>
                      log_Printf ("Failed cleaning up " +:+ tmpName
                                    +:+ " after a failure to rename it to its"
                                    +:+ " final destination: " +:+ e)
                  | None => ret tt
                  end ;;
                  ret (0%Z, Some e2)
              | None => ret (written, None)
              end
          end
      end
  end.

(** *** The dispatcher *)

(** The access-log line: [Printf("%4s %d %15s %s", ...)] with the client
    address cut down to its host when it splits. *)
Definition access_line (r : Request) (code : nat) : string :=
  let clientAddress :=
    match Net.SplitHostPort (RemoteAddr r) with
    | Ok (host, _) => host
    | Err _ => RemoteAddr r
    end in
  Str.pad_left 4 (Method r) +:+ " " +:+ Str.decimal code +:+ " "
    +:+ Str.pad_left 15 clientAddress +:+ " " +:+ URLPath r.

Definition logResponse (r : Request) (code : nat) : M st unit :=
  modify (add_accessLog (access_line r code)).

Definition Body_Close : M st unit :=
  s ← get; modify (set_body (unread s) true).

Definition contains (path : string) : M st bool :=
  s ← get; ret (ContainsFile (cache s) path).

Definition error_of {A} (x : result A) : error :=
  match x with
  | Ok _ => None
  | Err msg => Some msg
  end.

Definition disk_full_line (c : C) : string :=
  "The disk is full (" +:+ decimalZ (CurrSize c) +:+ "/"
    +:+ decimalZ (MaxSize c) +:+ " bytes used)".

(** The PUT case once the upload lock is held (lines 151 to 171). *)
Definition upload (env : faults) (r : Request) (cacheItem : cacheItem)
  : M st unit :=
  present ← contains (absFilePath cacheItem);
  if (present : bool) then
    discardUpload ;;
    logResponse r StatusOK
  else
    s ← get;
    let '(ok, c', d') := EnsureSpace (cache s) (disk s) (ContentLength r) in
    modify (set_cache_disk c' d') ;;
    if negb ok then
      http_Error r "The disk is full. File could not be uploaded."
        StatusInsufficientStorage ;;
      s ← get;
      modify (add_errorLog (disk_full_line (cache s)))
    else
      saved ← saveToDisk env r cacheItem;
      match saved with
      | (_, Some e) =>
          http_Error r e StatusInternalServerError ;;
          modify (add_errorLog ("Error saving file: " +:+ e))
      | (written, None) =>
          s ← get;
          modify (set_cache_disk
            (AddFile (cache s) (absFilePath cacheItem) written) (disk s)) ;;
          WriteHeader StatusOK ;;
          logResponse r StatusOK
      end.

Definition CacheHandler (env : faults) (r : Request) : M st unit :=
  defer Body_Close
    (s0 ← get;
     let parsed := cacheItemFromRequestPath (URLPath r) (Dir (cache s0)) in
     let err := error_of parsed in
     match parsed with
     | Err msg =>
         http_Error r msg StatusBadRequest ;;
         logResponse r StatusBadRequest
     | Ok cacheItem =>
         if String.eqb (Method r) "GET" then
           present ← contains (absFilePath cacheItem);
           if negb present then
             WriteHeader StatusNotFound ;;
             logResponse r StatusNotFound
           else
             ServeFile r (absFilePath cacheItem) ;;
             logResponse r StatusOK
         else if String.eqb (Method r) "PUT" then
           present ← contains (absFilePath cacheItem);
           if (present : bool) then
             discardUpload ;;
             logResponse r StatusOK
           else
             uploadMux ← startUpload (absFilePath cacheItem);
             Lock uploadMux ;;
             defer (stopUpload (absFilePath cacheItem))
               (defer (Unlock uploadMux) (upload env r cacheItem))
         else if String.eqb (Method r) "HEAD" then
           present ← contains (absFilePath cacheItem);
           (if negb present then
              msg ← Error_of err;
              http_Error r msg StatusNotFound ;;
              logResponse r StatusNotFound
            else ret tt) ;;
           WriteHeader StatusOK ;;
           logResponse r StatusOK
         else
           http_Error r ("Method '" +:+ Html.EscapeString (Method r)
                           +:+ "' not supported.") StatusMethodNotAllowed ;;
           logResponse r StatusMethodNotAllowed
     end).

(** What the client receives once the handler has returned: net/http
    sends status 200 when the handler wrote no header. *)
Definition response_status (s : st) : nat := default StatusOK (status (w s)).

End Handler.

(** ** A reference cache index and space ensurer

    Modelled from the spec: cache.go and ensurespacer.go are not part of
    the sources at hand.  The index records the size of each object; the
    ensurer accepts a request that fits under the maximum, evicting every
    object (from the index and from the disk) when the request does not
    fit next to them. *)

Module Reference.

Record index := {
  idx_dir : string;
  idx_max : Z;
  idx_files : gmap string Z
}.

Definition total (c : index) : Z :=
  map_fold (fun _ n acc => (n + acc)%Z) 0%Z (idx_files c).

#[global] Instance index_Cache : Cache index := {
  Dir := idx_dir;
  ContainsFile c p := bool_decide (is_Some (idx_files c !! p));
  AddFile c p n :=
    {| idx_dir := idx_dir c; idx_max := idx_max c;
       idx_files := <[p := n]> (idx_files c) |};
  CurrSize := total;
  MaxSize := idx_max;
  NumFiles c := Z.of_nat (size (idx_files c))
}.

#[global] Instance index_EnsureSpacer : EnsureSpacer index := {
  EnsureSpace c d n :=
    if (total c + n <=? idx_max c)%Z then (true, c, d)
    else if (n <=? idx_max c)%Z then
      (true,
       {| idx_dir := idx_dir c; idx_max := idx_max c; idx_files := ∅ |},
       filter (fun kv => idx_files c !! kv.1 = None) d)
    else (false, c, d)
}.

Definition empty_index (dir : string) (max : Z) : index :=
  {| idx_dir := dir; idx_max := max; idx_files := ∅ |}.

Definition fresh (c : index) (d : files) (body : string) : server index :=
  {| cache := c; ongoingUploads := ∅; ongoingUploadsMux := false;
     mutexes := []; accessLogger := []; errorLogger := []; stdLogger := [];
     disk := d; trace := []; unread := body; bodyClosed := false;
     w := {| status := None; sent := EmptyString |} |}.

Definition no_faults : faults :=
  {| os_TempDir := "/tmp"; tmp_random := "123456789"; tmp_err := None;
     sync_err := None; rename_err := None |}.

Definition request (method path body : string) : Request :=
  {| Method := method; URLPath := path; RemoteAddr := "10.0.0.7:51234";
     ContentLength := Z.of_nat (String.length body); Body := body;
     BodyErr := None |}.

(** Runs one request against a server that is otherwise idle. *)
Definition serve (env : faults) (r : Request) (c : index) (d : files)
  : outcome unit * server index :=
  CacheHandler env r (fresh c d (Body r)).

(** A CAS key, its object and a few requests for it. *)
Definition abc_hash : string :=
  "ba7816bf8f01cfea414140de5dae2223b00361a396177a9cb410ff61f20015ad".
Definition abc_url : string := "/cas/" +:+ abc_hash.
Definition abc_item : cacheItem :=
  {| hash := abc_hash; absFilePath := "/data/cas/" +:+ abc_hash;
     verifyHash := true |}.
Definition put_abc : Request := request "PUT" abc_url "abc".
Definition put_abd : Request := request "PUT" abc_url "abd".
Definition head_abc : Request := request "HEAD" abc_url "".
Definition data_index : index := empty_index "/data" 100.
Definition full_index : index := empty_index "/data" 2.
Definition stored_index : index := AddFile data_index (absFilePath abc_item) 3.
Definition stored_disk : files := {[ absFilePath abc_item := "abc" ]}.
Definition sync_fails : faults :=
  {| os_TempDir := "/tmp"; tmp_random := "123456789"; tmp_err := None;
     sync_err := Some "sync: input/output error"; rename_err := None |}.
Definition rename_fails : faults :=
  {| os_TempDir := "/tmp"; tmp_random := "123456789"; tmp_err := None;
     sync_err := None; rename_err := Some "rename: permission denied" |}.

(** A path with a line feed in its prefix segment. *)
Definition lf_url : string :=
  "/a" +:+ String (ascii_of_nat 10) "/ac/" +:+ Str.replicate_byte 64 "0".

End Reference.

(** ** The vocabulary of the statements *)

Definition is_lower_hex (c : ascii) : bool :=
  Regexp.in_range "a" "f" c || Regexp.in_range "0" "9" c.

Definition line_feed : ascii := ascii_of_nat 10.

(** A byte below [utf8.RuneSelf]: a rune of its own. *)
Definition is_ascii_byte (c : ascii) : bool := Nat.ltb (nat_of_ascii c) 128.

(** A 64-character lowercase hexadecimal string. *)
Definition hex64 (h : string) : Prop :=
  String.length h = 64 ∧ Str.all_bytes is_lower_hex h = true.

Definition is_bucket (b : string) : Prop := b = "ac/" ∨ b = "cas/".

(** Zero or more path segments, each closed by a slash. *)
Definition prefix_segments (pre : string) : Prop :=
  pre = "" ∨ ∃ q, pre = q +:+ "/".

(** The shape of a key path as the specification words it: any prefix
    segments, a bucket, 64 lowercase hexadecimal characters. *)
Definition key_shape (url pre bucket h : string) : Prop :=
  url = pre +:+ bucket +:+ h ∧ prefix_segments pre ∧ is_bucket bucket ∧ hex64 h.

(** The shape the parser accepts: as above, with no line feed in the
    prefix. *)
Definition accepted_shape (url pre bucket h : string) : Prop :=
  key_shape url pre bucket h ∧ Str.contains_byte line_feed pre = false.

Definition slash_free (e : string) : Prop := Str.contains_byte "/" e = false.

(** A path element that [Clean] keeps. *)
Definition normal_elem (e : string) : Prop :=
  e ≠ "" ∧ e ≠ "." ∧ e ≠ ".." ∧ slash_free e.

(** The buffers [Clean] builds: kept elements on top of the leading [..]
    elements, of which a rooted path has none. *)
Definition wf_buf (rooted : bool) (b : Filepath.lazybuf) : Prop :=
  ∃ normals, Filepath.out b = normals ++ replicate (Filepath.dotdot b) ".."
             ∧ Forall normal_elem normals
             ∧ (rooted = true → Filepath.dotdot b = 0).

(** The end of a line, as [fmt.Fprintln] writes it. *)
Definition lf : string := String line_feed "".

(** Modelled from the spec: the contracts of the cache index and of the
    space ensurer (section 6), whose code (cache.go, ensurespacer.go) is not
    part of the sources at hand.  A registered object is reported present;
    registering and reserving leave the root directory alone; reserving
    space may evict objects but adds none, neither to the index nor to the
    disk. *)
Class Contract (C : Type) `{Cache C} `{EnsureSpacer C} : Prop := {
  contains_AddFile : ∀ c p n, ContainsFile (AddFile c p n) p = true;
  Dir_AddFile : ∀ c p n, Dir (AddFile c p n) = Dir c;
  Dir_EnsureSpace : ∀ c d n, Dir (EnsureSpace c d n).1.2 = Dir c;
  EnsureSpace_evicts :
    ∀ c d n p, ContainsFile (EnsureSpace c d n).1.2 p = true →
               ContainsFile c p = true;
  EnsureSpace_creates_no_file :
    ∀ c d n p, d !! p = None → (EnsureSpace c d n).2 !! p = None
}.

Section Vocabulary.

Context {C : Type} `{Cache C} `{EnsureSpacer C}.

(** A request as it reaches the handler: nothing is written to the
    response yet and the body is unread. *)
Definition incoming (r : Request) (s : server C) : Prop :=
  w s = {| status := None; sent := "" |} ∧ unread s = Body r
  ∧ bodyClosed s = false.

(** The server when the next request arrives. *)
Definition arrive (r : Request) (s : server C) : server C :=
  set_w (fun _ => {| status := None; sent := "" |}) (set_body (Body r) false s).

(** The name [ioutil.TempFile] picks for the staging file. *)
Definition tmp_name (env : faults) (dir : string) : string :=
  Filepath.Join [if String.eqb dir "" then os_TempDir env else dir;
                 "upload" +:+ tmp_random env].

(** The staging file can be created. *)
Definition temp_ok (env : faults) (s : server C) : Prop :=
  tmp_err env = None ∧ disk s !! tmp_name env (Dir (cache s)) = None.

(** The body is read to its end and, for a CAS item, has the key's digest. *)
Definition copy_ok (r : Request) (info : cacheItem) (s : server C) : Prop :=
  BodyErr r = None
  ∧ (verifyHash info = true → hash info = sha256_hex (unread s)).

(** The state with other files, system calls and unread body. *)
Definition with_io (d : files) (t : list syscall) (u : string) (s : server C)
  : server C :=
  {| cache := cache s; ongoingUploads := ongoingUploads s;
     ongoingUploadsMux := ongoingUploadsMux s; mutexes := mutexes s;
     accessLogger := accessLogger s; errorLogger := errorLogger s;
     stdLogger := stdLogger s; disk := d; trace := t;
     unread := u; bodyClosed := bodyClosed s; w := w s |}.

Definition rename_failed_line (tmp dest e2 : string) : string :=
  "Failed renaming " +:+ tmp +:+ " to its final destination " +:+ dest
    +:+ ": " +:+ e2.

Definition cleanup_failed_line (tmp e : string) : string :=
  "Failed cleaning up " +:+ tmp +:+ " after a failure to rename it to its"
    +:+ " final destination: " +:+ e.

(** The upload mutex of a path: the registered one, or a new one. *)
Definition upload_mutex (path : string) (s : server C) : nat :=
  default (length (mutexes s)) (ongoingUploads s !! path).

(** No other goroutine holds the registry lock or the upload lock of the
    path. *)
Definition uncontended (path : string) (s : server C) : Prop :=
  ongoingUploadsMux s = false ∧
  ∀ mux, ongoingUploads s !! path = Some mux → mutexes s !! mux = Some false.

(** The state once the upload lock of [path] is taken. *)
Definition acquire (path : string) (s : server C) : server C :=
  {| cache := cache s;
     ongoingUploads := <[path := upload_mutex path s]> (ongoingUploads s);
     ongoingUploadsMux := false;
     mutexes :=
       <[upload_mutex path s := true]>
         (match ongoingUploads s !! path with
          | Some _ => mutexes s
          | None => mutexes s ++ [false]
          end);
     accessLogger := accessLogger s; errorLogger := errorLogger s;
     stdLogger := stdLogger s; disk := disk s; trace := trace s;
     unread := unread s; bodyClosed := bodyClosed s; w := w s |}.

(** The state once the upload lock is released, the path deregistered and
    the request body closed. *)
Definition release (path : string) (mux : nat) (s : server C) : server C :=
  {| cache := cache s;
     ongoingUploads := delete path (ongoingUploads s);
     ongoingUploadsMux := false;
     mutexes := <[mux := false]> (mutexes s);
     accessLogger := accessLogger s; errorLogger := errorLogger s;
     stdLogger := stdLogger s; disk := disk s; trace := trace s;
     unread := unread s; bodyClosed := true; w := w s |}.

(** What the upload registry consists of. *)
Definition registry (s : server C) : gmap string nat * bool * list bool :=
  (ongoingUploads s, ongoingUploadsMux s, mutexes s).

(** What the writer leaves alone: the index, the registry, the access and
    error loggers and the response. *)
Definition beside_io (s : server C) :=
  (cache s, registry s, accessLogger s, errorLogger s, w s).

(** A computation that leaves a part of the state as it is, however it
    ends. *)
Definition keeps {X A} (proj : server C → X) (m : M (server C) A) : Prop :=
  ∀ s o s', m s = (o, s') → proj s' = proj s.

End Vocabulary.

(** ** The status page *)

Module StatusPage.

(** The Go struct [statusPageData]. *)
Record statusPageData := {
  CurrSize : Z;
  MaxSize : Z;
  NumFiles : Z;
  ServerTime : Z
}.

(** A double quote. *)
Definition quote : string := String (ascii_of_nat 34) "".

(** One member of a JSON object as [json.Indent] lays it out: the quoted
    key, a colon, a space and the number. *)
Definition member (key : string) (v : Z) : string :=
  quote +:+ key +:+ quote +:+ ": " +:+ decimalZ v.

(** [enc.SetIndent("", " "); enc.Encode(d)]: the members in the order of
    the struct's fields, one per line and indented by one space, and a line
    feed after the closing brace. *)
Definition Encode (d : statusPageData) : string :=
  "{" +:+ lf
    +:+ " " +:+ member "CurrSize" (CurrSize d) +:+ "," +:+ lf
    +:+ " " +:+ member "MaxSize" (MaxSize d) +:+ "," +:+ lf
    +:+ " " +:+ member "NumFiles" (NumFiles d) +:+ "," +:+ lf
    +:+ " " +:+ member "ServerTime" (ServerTime d) +:+ lf
    +:+ "}" +:+ lf.

End StatusPage.

Section StatusPageModel.

Context {C : Type} `{Cache C}.

(** [StatusPageHandler]; [now] is what [time.Now().Unix()] returns.  The
    value returned is the header map of the response, which
    [ResponseWriter] does not carry. *)
Definition StatusPageHandler (now : Z) (r : Request)
  : M (server C) (gmap string string) :=
  defer Body_Close
    (let header : gmap string string :=
       {[ "Content-Type" := "application/json" ]} in
     s ← get;
     Write r (StatusPage.Encode
                {| StatusPage.CurrSize := CurrSize (cache s);
                   StatusPage.MaxSize := MaxSize (cache s);
                   StatusPage.NumFiles := NumFiles (cache s);
                   StatusPage.ServerTime := now |}) ;;
     mret header).

End StatusPageModel.

(** ** Invariants of the store *)

Section Store.

Context {C : Type} `{Cache C} `{EnsureSpacer C}.

(** Every object under [cas/] holds the bytes its name is the digest of. *)
Definition cas_sound (base : string) (d : files) : Prop :=
  ∀ h content,
    hex64 h → d !! Filepath.Join [base; "cas/"; h] = Some content →
    sha256_hex content = h.

(** The space ensurer deletes files; it creates and changes none. *)
Definition evicts_only : Prop :=
  ∀ (c : C) (d : files) (n : Z), (EnsureSpace c d n).2 ⊆ d.

(** What the requests for [item] may do to the files: a file that is there
    afterwards was there before with the same bytes, or it is a staging
    file, or it is the object of [item], and then a CAS object has the
    digest of its key. *)
Definition written_by (env : faults) (item : cacheItem) (d d' : files) : Prop :=
  ∀ p c,
    d' !! p = Some c →
    d !! p = Some c
    ∨ (∃ dir, p = tmp_name env dir)
    ∨ (p = absFilePath item
       ∧ (verifyHash item = true → hash item = sha256_hex c)).

(** A computation that takes the index and the files from one state to a
    related one, however it ends. *)
Definition steps {A} (R : C * files → C * files → Prop) (m : M (server C) A)
  : Prop :=
  ∀ s o s', m s = (o, s') → R (cache s, disk s) (cache s', disk s').

End Store.

Section Quiescence.

Context {C : Type}.

(** No request is in flight: the registry lock is free, no upload is
    registered and every upload mutex is unlocked. *)
Definition quiescent (s : server C) : Prop :=
  ongoingUploadsMux s = false ∧ ongoingUploads s = ∅
  ∧ Forall (λ held, held = false) (mutexes s).

End Quiescence.

(** * Properties *)

(** ** Byte strings *)

Lemma str_app_assoc (a b c : string) : (a +:+ b) +:+ c = a +:+ (b +:+ c).
Proof. induction a as [|x a IH]; simpl; [reflexivity | now rewrite IH]. Qed.

Lemma str_app_nil_r (a : string) : a +:+ "" = a.
Proof. induction a as [|x a IH]; simpl; [reflexivity | now rewrite IH]. Qed.

Lemma str_length_app (a b : string) :
  String.length (a +:+ b) = String.length a + String.length b.
Proof. induction a as [|x a IH]; simpl; [reflexivity | now rewrite IH]. Qed.

Lemma str_to_list_app (a b : string) :
  list_ascii_of_string (a +:+ b) = list_ascii_of_string a ++ list_ascii_of_string b.
Proof. induction a as [|x a IH]; simpl; [reflexivity | now rewrite IH]. Qed.

Lemma str_to_list_length (a : string) :
  length (list_ascii_of_string a) = String.length a.
Proof. induction a as [|x a IH]; simpl; [reflexivity | now rewrite IH]. Qed.

Lemma str_to_list_inj (a b : string) :
  list_ascii_of_string a = list_ascii_of_string b → a = b.
Proof.
  intros E. rewrite <- (string_of_list_ascii_of_string a),
    <- (string_of_list_ascii_of_string b). now rewrite E.
Qed.

(** Two splits of one string with tails of equal length coincide. *)
Lemma str_app_inj_tail (a b c d : string) :
  a +:+ b = c +:+ d → String.length b = String.length d → a = c ∧ b = d.
Proof.
  intros E L. apply (f_equal list_ascii_of_string) in E.
  rewrite !str_to_list_app in E.
  apply app_inj_2 in E as [E1 E2]; [| now rewrite !str_to_list_length].
  split; now apply str_to_list_inj.
Qed.

Lemma str_app_inv_head (a b c : string) : a +:+ b = a +:+ c → b = c.
Proof. induction a as [|x a IH]; simpl; intros E; [assumption | injection E; auto]. Qed.

Lemma eqb_ascii_eq (a b : ascii) : Str.eqb_ascii a b = true ↔ a = b.
Proof. unfold Str.eqb_ascii. apply Ascii.eqb_eq. Qed.

Lemma eqb_ascii_refl (a : ascii) : Str.eqb_ascii a a = true.
Proof. now apply eqb_ascii_eq. Qed.

Lemma all_bytes_app (p : ascii → bool) (a b : string) :
  Str.all_bytes p (a +:+ b) = Str.all_bytes p a && Str.all_bytes p b.
Proof.
  induction a as [|x a IH]; simpl; [reflexivity |].
  rewrite IH. now rewrite andb_assoc.
Qed.

Lemma contains_byte_app (c : ascii) (a b : string) :
  Str.contains_byte c (a +:+ b) = Str.contains_byte c a || Str.contains_byte c b.
Proof.
  induction a as [|x a IH]; simpl; [reflexivity |].
  rewrite IH. now rewrite orb_assoc.
Qed.

(** ** The matcher *)

Section Matcher.

Import Regexp.

Lemma m_cat_in (e1 e2 : matcher) off s k (t : thread) :
  In t (m_cat e1 e2 off s k) ↔
  ∃ m1 s1 k1 m2 s2 k2,
    In (m1, s1, k1) (e1 off s k) ∧
    In (m2, s2, k2) (e2 (off + String.length m1) s1 k1) ∧
    t = (m1 +:+ m2, s2, k2).
Proof.
  unfold m_cat. rewrite in_flat_map. split.
  - intros [[[m1 s1] k1] [H1 H2]]. apply in_map_iff in H2 as [[[m2 s2] k2] [E H2]].
    exists m1, s1, k1, m2, s2, k2. auto.
  - intros (m1 & s1 & k1 & m2 & s2 & k2 & H1 & H2 & ->).
    exists (m1, s1, k1). split; [assumption |].
    apply in_map_iff. exists (m2, s2, k2). auto.
Qed.

Lemma m_byte_in (p : ascii → bool) off s k (t : thread) :
  In t (m_byte p off s k) ↔
  ∃ a s', s = String a s' ∧ p a = true ∧ t = (String a "", s', k).
Proof.
  unfold m_byte. destruct s as [|a s'].
  - split; [intros [] | intros (a & s' & E & _); discriminate].
  - destruct (p a) eqn:Hp; simpl.
    + split.
      * intros [<- | []]. exists a, s'. auto.
      * intros (a' & s'' & E & _ & ->). simplify_eq. now left.
    + split; [intros [] |].
      intros (a' & s'' & E & Hp' & _). simplify_eq. congruence.
Qed.

Lemma exec_Cat_in r1 r2 off s k (t : thread) :
  In t (exec (Cat r1 r2) off s k) ↔
  ∃ m1 s1 k1 m2 s2 k2,
    In (m1, s1, k1) (exec r1 off s k) ∧
    In (m2, s2, k2) (exec r2 (off + String.length m1) s1 k1) ∧
    t = (m1 +:+ m2, s2, k2).
Proof. apply m_cat_in. Qed.

Lemma exec_Lit_in c off s k (t : thread) :
  In t (exec (Lit c) off s k) ↔ ∃ s', s = String c s' ∧ t = (String c "", s', k).
Proof.
  simpl. rewrite m_byte_in. split.
  - intros (a & s' & -> & E & ->). apply eqb_ascii_eq in E as <-. eauto.
  - intros (s' & -> & ->). exists c, s'. split; [reflexivity |].
    split; [apply eqb_ascii_refl | reflexivity].
Qed.

Lemma exec_Quest_in r off s k (t : thread) :
  In t (exec (Quest r) off s k) ↔ In t (exec r off s k) ∨ t = ("", s, k).
Proof.
  simpl. rewrite in_app_iff. unfold m_eps. simpl. intuition.
Qed.

Lemma exec_Alt_in r1 r2 off s k (t : thread) :
  In t (exec (Alt r1 r2) off s k) ↔ In t (exec r1 off s k) ∨ In t (exec r2 off s k).
Proof. simpl. apply in_app_iff. Qed.

Lemma exec_Capture_in i r off s k (t : thread) :
  In t (exec (Capture i r) off s k) ↔
  ∃ m s' k', In (m, s', k') (exec r off s k) ∧ t = (m, s', <[i := m]> k').
Proof.
  simpl. rewrite in_map_iff. split.
  - intros [[[m s'] k'] [E Hin]]. exists m, s', k'. auto.
  - intros (m & s' & k' & Hin & ->). exists (m, s', k'). auto.
Qed.

Lemma exec_Begin_in off s k (t : thread) :
  In t (exec BeginText off s k) ↔ off = 0 ∧ t = ("", s, k).
Proof.
  simpl. destruct off; simpl; unfold m_eps.
  - split; [intros [<- | []]; auto | intros [_ ->]; now left].
  - split; [intros [] | intros [E _]; discriminate].
Qed.

Lemma exec_End_in off s k (t : thread) :
  In t (exec EndText off s k) ↔ s = "" ∧ t = ("", "", k).
Proof.
  simpl. destruct s; simpl; unfold m_eps.
  - split; [intros [<- | []]; auto | intros [_ ->]; now left].
  - split; [intros [] | intros [E _]; discriminate].
Qed.

(** A repeated class matches exactly the strings of that length over it. *)
Lemma repeat_class_in (p : ascii → bool) n off s k (t : thread) :
  In t (m_repeat (m_byte p) n off s k) ↔
  ∃ m s', s = m +:+ s' ∧ String.length m = n ∧ Str.all_bytes p m = true
          ∧ t = (m, s', k).
Proof.
  revert off s t. induction n as [|n IH]; intros off s t; simpl.
  - unfold m_eps. simpl. split.
    + intros [<- | []]. exists "", s. auto.
    + intros (m & s' & -> & L & _ & ->). destruct m; [now left | discriminate].
  - rewrite m_cat_in. split.
    + intros (m1 & s1 & k1 & m2 & s2 & k2 & H1 & H2 & ->).
      apply m_byte_in in H1 as (a & s' & -> & Hp & E). simplify_eq.
      apply IH in H2 as (m & s'' & -> & L & Hall & E). simplify_eq.
      exists (String a m), s''. simpl. rewrite Hp, Hall. auto.
    + intros (m & s' & -> & L & Hall & ->).
      destruct m as [|a m]; [discriminate |]. simpl in *.
      apply andb_true_iff in Hall as [Hp Hall]. injection L as L.
      exists (String a ""), (m +:+ s'), k, m, s', k. split; [| split; [| reflexivity]].
      * simpl. rewrite Hp. now left.
      * apply IH. exists m, s'. auto.
Qed.

(** The threads of a starred class: every prefix over the class. *)
Lemma star_class_in (p : ascii → bool) fuel off s k (t : thread) :
  (String.length s ≤ fuel)%nat →
  In t (m_star (m_byte p) fuel off s k) ↔
  ∃ m s', s = m +:+ s' ∧ Str.all_bytes p m = true ∧ t = (m, s', k).
Proof.
  revert off s t. induction fuel as [|fuel IH]; intros off s t Hlen.
  - destruct s; [| simpl in Hlen; lia]. simpl. split.
    + intros [<- | []]. exists "", "". auto.
    + intros (m & s' & E & _ & ->). destruct m; [| discriminate].
      simpl in E. subst s'. now left.
  - simpl. rewrite in_app_iff, in_flat_map. split.
    + intros [[[[m1 s1] k1] [H1 H2]] | [<- | []]].
      * apply m_byte_in in H1 as (a & s' & -> & Hp & E). simplify_eq.
        apply in_map_iff in H2 as [[[m2 s2] k2] [<- H2]].
        apply IH in H2 as (m & s'' & -> & Hall & E); [| simpl in Hlen; lia].
        simplify_eq.
        exists (String a m), s''. simpl. rewrite Hp, Hall. auto.
      * exists "", s. auto.
    + intros (m & s' & -> & Hall & ->). destruct m as [|a m].
      * right. now left.
      * left. simpl in Hall. apply andb_true_iff in Hall as [Hp Hall].
        exists (String a "", m +:+ s', k). split.
        -- simpl. rewrite Hp. now left.
        -- apply in_map_iff. exists (m, s', k). split; [reflexivity |].
           apply IH; [simpl in Hlen; lia |]. exists m, s'. auto.
Qed.

Lemma exec_Star_Class_in (p : ascii → bool) off s k (t : thread) :
  In t (exec (Star (Class p)) off s k) ↔
  ∃ m s', s = m +:+ s' ∧ Str.all_bytes p m = true ∧ t = (m, s', k).
Proof. simpl. now apply star_class_in. Qed.

Lemma exec_Repeat_Class_in (p : ascii → bool) n off s k (t : thread) :
  In t (exec (Repeat n (Class p)) off s k) ↔
  ∃ m s', s = m +:+ s' ∧ String.length m = n ∧ Str.all_bytes p m = true
          ∧ t = (m, s', k).
Proof. simpl. apply repeat_class_in. Qed.

(** A literal string matches itself. *)
Lemma exec_lits_in (str : string) off s k (t : thread) :
  str ≠ "" →
  In t (exec (lits str) off s k) ↔ ∃ s', s = str +:+ s' ∧ t = (str, s', k).
Proof.
  revert off s t. induction str as [|c str IH]; intros off s t Hne; [congruence |].
  destruct str as [|c' str].
  - simpl lits. rewrite exec_Lit_in. simpl. reflexivity.
  - change (lits (String c (String c' str)))
      with (Cat (Lit c) (lits (String c' str))).
    rewrite exec_Cat_in. split.
    + intros (m1 & s1 & k1 & m2 & s2 & k2 & H1 & H2 & ->).
      apply exec_Lit_in in H1 as (s' & -> & E). simplify_eq.
      apply IH in H2 as (s'' & -> & E); [| discriminate]. simplify_eq.
      exists s''. auto.
    + intros (s' & -> & ->).
      exists (String c ""), (String c' str +:+ s'), k, (String c' str), s', k.
      split; [| split; [| reflexivity]].
      * apply exec_Lit_in. exists (String c' str +:+ s'). auto.
      * apply IH; [discriminate |]. exists s'. auto.
Qed.

End Matcher.

(** ** The pattern of key paths *)

Section KeyPattern.

Import Regexp.

Lemma dot_no_line_feed (q : string) :
  Str.all_bytes dot q = true ↔ Str.contains_byte line_feed q = false.
Proof.
  induction q as [|a q IH]; simpl; [tauto |].
  rewrite andb_true_iff, orb_false_iff, IH. unfold dot, line_feed.
  rewrite negb_true_iff. tauto.
Qed.

(** The bucket and the hash of a key path are determined by the path. *)
Lemma key_shape_unique url pre1 b1 h1 pre2 b2 h2 :
  key_shape url pre1 b1 h1 → key_shape url pre2 b2 h2 →
  pre1 = pre2 ∧ b1 = b2 ∧ h1 = h2.
Proof.
  intros (E1 & _ & B1 & L1 & _) (E2 & _ & B2 & L2 & _).
  rewrite E1 in E2. rewrite <- !str_app_assoc in E2.
  apply str_app_inj_tail in E2 as [E <-]; [| congruence].
  destruct B1 as [-> | ->], B2 as [-> | ->].
  - apply str_app_inj_tail in E as [-> _]; auto.
  - exfalso. change "cas/" with ("c" +:+ "as/") in E.
    rewrite <- str_app_assoc in E.
    apply str_app_inj_tail in E as [_ E]; [discriminate | reflexivity].
  - exfalso. change "cas/" with ("c" +:+ "as/") in E.
    rewrite <- str_app_assoc in E.
    apply str_app_inj_tail in E as [_ E]; [discriminate | reflexivity].
  - apply str_app_inj_tail in E as [-> _]; auto.
Qed.

(** Every thread of the pattern consumed the whole path, from offset 0,
    and its groups 2 and 3 hold the bucket and the hash. *)
Lemma blob_thread_sound off url k m rest k' :
  In (m, rest, k') (exec blobNameSHA256 off url k) →
  off = 0 ∧ m = url ∧ rest = "" ∧
  ∃ pre bucket h,
    accepted_shape url pre bucket h ∧ k' !! 2 = Some bucket ∧ k' !! 3 = Some h.
Proof.
  unfold blobNameSHA256. cbv zeta. intros Hin.
  apply exec_Cat_in in Hin as (m0 & s0 & k0 & m1 & s1 & k1 & H0 & Hin & E).
  apply exec_Begin_in in H0 as [-> E0]. simplify_eq.
  apply exec_Cat_in in Hin as (ms & ss & ks & m2 & s2 & k2 & Hs & Hin & E).
  simplify_eq.
  apply exec_Cat_in in Hin as (mp & sp & kp & m3 & s3 & k3 & Hp & Hin & E).
  simplify_eq.
  apply exec_Cat_in in Hin as (mb & sb & kb & m4 & s4 & k4 & Hb & Hin & E).
  simplify_eq.
  apply exec_Cat_in in Hin as (mh & sh & kh & m5 & s5 & k5 & Hh & He & E).
  simplify_eq.
  apply exec_End_in in He as [-> E]. simplify_eq.
  apply exec_Capture_in in Hh as (h & s' & kh' & Hh & E). simplify_eq.
  apply exec_Repeat_Class_in in Hh as (h' & s'' & -> & Lh & Ah & E). simplify_eq.
  apply exec_Capture_in in Hb as (b & s' & kb' & Hb & E). simplify_eq.
  assert (Hbucket : is_bucket b ∧ sp = b +:+ (h' +:+ "") ∧ kb' = kp).
  { apply exec_Alt_in in Hb as [Hb | Hb];
      apply exec_lits_in in Hb as (s' & -> & E); try discriminate; simplify_eq;
      unfold is_bucket; auto. }
  destruct Hbucket as (Bb & -> & ->).
  assert (Hpre : ss = mp +:+ b +:+ h' +:+ ""
                 ∧ (mp = "" ∨ ∃ q, mp = q +:+ "/" ∧ Str.all_bytes dot q = true)).
  { apply exec_Quest_in in Hp as [Hp | Hp].
    - apply exec_Capture_in in Hp as (g & s' & kg & Hp & E). simplify_eq.
      apply exec_Cat_in in Hp as (q & sq & kq & sl & s'' & kl & Hq & Hl & E).
      simplify_eq.
      apply exec_Star_Class_in in Hq as (q' & sq' & -> & Aq & E). simplify_eq.
      apply exec_Lit_in in Hl as (sl' & E' & E). simplify_eq.
      rewrite !str_app_assoc. simpl. split; [reflexivity |]. right. eauto.
    - simplify_eq. simpl. auto. }
  destruct Hpre as (-> & Hg).
  assert (Hslash : (ms = "" ∨ ms = "/") ∧ url = ms +:+ mp +:+ b +:+ h' +:+ "").
  { apply exec_Quest_in in Hs as [Hs | Hs].
    - apply exec_Lit_in in Hs as (s' & -> & E). simplify_eq. auto.
    - simplify_eq. auto. }
  destruct Hslash as (Hms & ->).
  rewrite !str_app_nil_r. simpl.
  do 3 (split; [reflexivity |]).
  exists (ms +:+ mp), b, h'. split; [| split].
  - split; [split; [now rewrite !str_app_assoc |] |].
    + split; [| split; [assumption | split; assumption]].
      destruct Hg as [-> | (q & -> & _)].
      * rewrite str_app_nil_r. destruct Hms as [-> | ->]; [now left |].
        right. now exists "".
      * right. exists (ms +:+ q). now rewrite str_app_assoc.
    + rewrite contains_byte_app.
      destruct Hg as [-> | (q & -> & Aq)]; destruct Hms as [-> | ->]; simpl;
        try reflexivity;
        rewrite contains_byte_app; apply dot_no_line_feed in Aq; now rewrite Aq.
  - rewrite lookup_insert_ne, lookup_insert_eq; [reflexivity | lia].
  - now rewrite lookup_insert_eq.
Qed.

Lemma exec_Cat_intro r1 r2 off s k m1 s1 k1 m2 s2 k2 :
  In (m1, s1, k1) (exec r1 off s k) →
  In (m2, s2, k2) (exec r2 (off + String.length m1) s1 k1) →
  In (m1 +:+ m2, s2, k2) (exec (Cat r1 r2) off s k).
Proof. intros H1 H2. apply exec_Cat_in. exists m1, s1, k1, m2, s2, k2. auto. Qed.

(** A path of the accepted shape has a thread. *)
Lemma blob_thread_complete url pre bucket h k :
  accepted_shape url pre bucket h → exec blobNameSHA256 0 url k ≠ [].
Proof.
  intros [(-> & Hpre & Hb & Lh & Ah) Hlf].
  assert (∃ t, In t (exec blobNameSHA256 0 (pre +:+ bucket +:+ h) k)) as [t Ht];
    [| intros E; rewrite E in Ht; destruct Ht].
  unfold blobNameSHA256. cbv zeta.
  assert (Hhash : ∀ off kk, In (h, "", <[3 := h]> kk)
            (exec (Capture 3 (Repeat 64 (Class is_lower_hex))) off h kk)).
  { intros off kk. apply exec_Capture_in. exists h, "", kk. split; [| reflexivity].
    apply exec_Repeat_Class_in. exists h, "". now rewrite str_app_nil_r. }
  assert (Hbucket : ∀ off kk, In (bucket, h, <[2 := bucket]> kk)
            (exec (Capture 2 (Alt (lits "ac/") (lits "cas/")))
                  off (bucket +:+ h) kk)).
  { intros off kk. apply exec_Capture_in. exists bucket, h, kk.
    split; [| reflexivity]. apply exec_Alt_in.
    destruct Hb as [-> | ->]; [left | right];
      (apply exec_lits_in; [discriminate | exists h; auto]). }
  assert (Hprefix : ∃ kk, ∀ off, In (pre, bucket +:+ h, kk)
            (exec (Quest (Capture 1 (Cat (Star (Class dot)) (Lit "/"))))
               off (pre +:+ bucket +:+ h) k)).
  { destruct Hpre as [-> | [q ->]].
    - exists k. intros off. apply exec_Quest_in. now right.
    - rewrite contains_byte_app, orb_false_iff in Hlf. destruct Hlf as [Hq _].
      apply dot_no_line_feed in Hq.
      exists (<[1 := q +:+ "/"]> k). intros off. apply exec_Quest_in. left.
      apply exec_Capture_in. exists (q +:+ "/"), (bucket +:+ h), k.
      split; [| reflexivity].
      apply exec_Cat_intro with (s1 := "/" +:+ bucket +:+ h) (k1 := k).
      + apply exec_Star_Class_in. exists q, ("/" +:+ bucket +:+ h).
        rewrite !str_app_assoc. auto.
      + apply exec_Lit_in. exists (bucket +:+ h). auto. }
  destruct Hprefix as [kk Hprefix].
  eexists.
  eapply exec_Cat_intro; [now apply exec_Begin_in |].
  eapply exec_Cat_intro; [apply exec_Quest_in; right; reflexivity |].
  eapply exec_Cat_intro; [apply Hprefix |].
  eapply exec_Cat_intro; [apply Hbucket |].
  eapply exec_Cat_intro; [apply Hhash |].
  now apply exec_End_in.
Qed.

Lemma find_from_head r off s m rest k (l : list thread) :
  exec r off s ∅ = (m, rest, k) :: l → find_from r off s = Some (m, k).
Proof. intros E. destruct s; simpl; now rewrite E. Qed.

Lemma find_from_nil r off s :
  exec r off s ∅ = [] →
  find_from r off s =
    match s with "" => None | String _ s' => find_from r (S off) s' end.
Proof. intros E. destruct s; simpl; now rewrite E. Qed.

Lemma blob_exec_later off s k : exec blobNameSHA256 (S off) s k = [].
Proof. reflexivity. Qed.

(** Away from the start of the text the anchored pattern has no match. *)
Lemma blob_find_later off s : find_from blobNameSHA256 (S off) s = None.
Proof.
  revert off. induction s as [|a s IH]; intros off;
    rewrite find_from_nil by apply blob_exec_later; [reflexivity | apply IH].
Qed.

(** [FindStringSubmatch] on the pattern of key paths. *)
Lemma blob_submatch_accepted url pre bucket h :
  accepted_shape url pre bucket h →
  ∃ g1, FindStringSubmatch blobNameSHA256 url = Some [url; g1; bucket; h].
Proof.
  intros Hshape. unfold FindStringSubmatch.
  pose proof (blob_thread_complete url pre bucket h ∅ Hshape) as Hne.
  destruct (exec blobNameSHA256 0 url ∅) as [|[[m rest] k'] l] eqn:Hexec;
    [congruence |].
  assert (Hin : In (m, rest, k') (exec blobNameSHA256 0 url ∅))
    by (rewrite Hexec; now left).
  rewrite (find_from_head _ _ _ _ _ _ _ Hexec).
  apply blob_thread_sound in Hin as (_ & -> & -> & pre' & b' & h' & [Hs' _] & K2 & K3).
  destruct Hshape as [Hshape _].
  destruct (key_shape_unique _ _ _ _ _ _ _ Hs' Hshape) as (_ & -> & ->).
  exists (default "" (k' !! 1)).
  change (num_subexp blobNameSHA256) with 3. simpl.
  now rewrite K2, K3.
Qed.

Lemma blob_submatch_sound url m :
  FindStringSubmatch blobNameSHA256 url = Some m →
  ∃ g1 pre bucket h, m = [url; g1; bucket; h] ∧ accepted_shape url pre bucket h.
Proof.
  unfold FindStringSubmatch. intros Hfind.
  destruct (exec blobNameSHA256 0 url ∅) as [|[[m0 rest] k'] l] eqn:Hexec.
  - exfalso. rewrite (find_from_nil _ _ _ Hexec) in Hfind.
    destruct url; [discriminate |]. now rewrite blob_find_later in Hfind.
  - assert (Hin : In (m0, rest, k') (exec blobNameSHA256 0 url ∅))
      by (rewrite Hexec; now left).
    rewrite (find_from_head _ _ _ _ _ _ _ Hexec) in Hfind.
    apply blob_thread_sound in Hin as (_ & -> & -> & pre & b & h & Hs & K2 & K3).
    change (num_subexp blobNameSHA256) with 3 in Hfind.
    simpl in Hfind. rewrite K2, K3 in Hfind. simplify_eq.
    exists (default "" (k' !! 1)), pre, b, h. auto.
Qed.

End KeyPattern.

(** ** The key parser *)

Lemma parse_accepted url base pre bucket h :
  accepted_shape url pre bucket h →
  cacheItemFromRequestPath url base =
    Ok {| hash := h; absFilePath := Filepath.Join [base; bucket; h];
          verifyHash := String.eqb bucket "cas/" |}.
Proof.
  intros Hs. unfold cacheItemFromRequestPath.
  destruct (blob_submatch_accepted _ _ _ _ Hs) as [g1 ->]. reflexivity.
Qed.

Lemma parse_ok_inv url base item :
  cacheItemFromRequestPath url base = Ok item →
  ∃ pre bucket h,
    accepted_shape url pre bucket h ∧
    item = {| hash := h; absFilePath := Filepath.Join [base; bucket; h];
              verifyHash := String.eqb bucket "cas/" |}.
Proof.
  unfold cacheItemFromRequestPath.
  destruct (Regexp.FindStringSubmatch blobNameSHA256 url) as [m|] eqn:Hm;
    [| discriminate].
  apply blob_submatch_sound in Hm as (g1 & pre & b & h & -> & Hs).
  simpl. intros E. simplify_eq. eauto.
Qed.

(** The only error of the parser: the second test of the source, on the
    number of parts, never fails. *)
Lemma parse_err_inv url base msg :
  cacheItemFromRequestPath url base = Err msg →
  msg = "Resource name must be a SHA256 hash in hex. Got '"
          +:+ Html.EscapeString url +:+ "'."
  ∧ ∀ pre bucket h, ¬ accepted_shape url pre bucket h.
Proof.
  intros E. split.
  - revert E. unfold cacheItemFromRequestPath.
    destruct (Regexp.FindStringSubmatch blobNameSHA256 url) as [m|] eqn:Hm.
    + apply blob_submatch_sound in Hm as (g1 & pre & b & h & -> & Hs).
      simpl. discriminate.
    + intros E. now simplify_eq.
  - intros pre bucket h Hs.
    rewrite (parse_accepted _ base _ _ _ Hs) in E. discriminate.
Qed.

(** ** Cleaned paths *)

Section Paths.

Import Filepath.

Lemma split_on_nonempty c s : Str.split_on c s ≠ [].
Proof.
  destruct s as [|a s]; simpl; [discriminate |].
  destruct (Str.eqb_ascii a c); [discriminate |].
  destruct (Str.split_on c s); discriminate.
Qed.

Lemma split_on_app c a b :
  Str.split_on c (a +:+ String c b) = Str.split_on c a ++ Str.split_on c b.
Proof.
  induction a as [|x a IH]; simpl.
  - now rewrite eqb_ascii_refl.
  - destruct (Str.eqb_ascii x c); [now rewrite IH |].
    rewrite IH. pose proof (split_on_nonempty c a).
    destruct (Str.split_on c a); [congruence | reflexivity].
Qed.

Lemma split_on_free c e :
  Str.contains_byte c e = false → Str.split_on c e = [e].
Proof.
  induction e as [|x e IH]; simpl; [reflexivity |].
  intros E. apply orb_false_iff in E as [E1 E2]. rewrite E1, (IH E2). reflexivity.
Qed.

Lemma split_on_slash_free c s : Forall (λ e, Str.contains_byte c e = false) (Str.split_on c s).
Proof.
  induction s as [|x s IH]; simpl.
  - repeat constructor.
  - destruct (Str.eqb_ascii x c) eqn:E.
    + constructor; [reflexivity | assumption].
    + destruct (Str.split_on c s) as [|h t]; [repeat constructor; simpl; now rewrite E |].
      inversion IH; subst. constructor; [simpl; now rewrite E | assumption].
Qed.

Lemma join_with_snoc sep l e :
  l ≠ [] → Str.join_with sep (l ++ [e]) = Str.join_with sep l +:+ sep +:+ e.
Proof.
  induction l as [|x l IH]; [congruence |]. intros _.
  destruct l as [|y l]; [reflexivity |].
  change (Str.join_with sep ((x :: y :: l) ++ [e]))
    with (x +:+ sep +:+ Str.join_with sep ((y :: l) ++ [e])).
  rewrite IH by discriminate. simpl. now rewrite !str_app_assoc.
Qed.

Lemma split_join l :
  l ≠ [] → Forall slash_free l → Str.split_on "/" (Str.join_with "/" l) = l.
Proof.
  induction l as [|x l IH]; [congruence |]. intros _ Hall.
  inversion Hall as [|? ? Hx Hl]; subst.
  destruct l as [|y l]; [now apply split_on_free |].
  change (Str.join_with "/" (x :: y :: l))
    with (x +:+ String "/" (Str.join_with "/" (y :: l))).
  rewrite split_on_app, (split_on_free _ _ Hx), IH; [reflexivity | discriminate | assumption].
Qed.

Lemma clean_step_skip rooted b e :
  e = "" ∨ e = "." → clean_step rooted b e = b.
Proof. intros [-> | ->]; reflexivity. Qed.

Lemma clean_step_normal rooted b e :
  normal_elem e →
  clean_step rooted b e = {| out := e :: out b; dotdot := dotdot b |}.
Proof.
  intros (H1 & H2 & H3 & _). unfold clean_step.
  apply String.eqb_neq in H1, H2, H3. now rewrite H1, H2, H3.
Qed.

Lemma clean_step_wf rooted b e :
  slash_free e → wf_buf rooted b → wf_buf rooted (clean_step rooted b e).
Proof.
  intros Hf (normals & Hout & Hn & Hr). unfold clean_step.
  destruct (String.eqb_spec e ""); [exists normals; auto |].
  destruct (String.eqb_spec e "."); [exists normals; auto |].
  destruct (String.eqb_spec e "..").
  - assert (Hlen : length (out b) = length normals + dotdot b)
      by (now rewrite Hout, length_app, length_replicate).
    destruct normals as [|x normals]; simpl in *.
    + replace (dotdot b <? length (out b))%nat with false
        by (symmetry; apply Nat.ltb_ge; lia).
      destruct rooted; simpl.
      * exists []. simpl. auto.
      * exists []. simpl. rewrite Hlen, Hout. simpl.
        split; [reflexivity | split; [constructor | discriminate]].
    + replace (dotdot b <? length (out b))%nat with true
        by (symmetry; apply Nat.ltb_lt; lia).
      exists normals. simpl. rewrite Hout. simpl. inversion Hn; subst. auto.
  - exists (e :: normals). simpl. rewrite Hout. split; [reflexivity |].
    split; [| assumption]. constructor; [| assumption]. repeat split; assumption.
Qed.

Lemma clean_fold_wf rooted l b :
  Forall slash_free l → wf_buf rooted b →
  wf_buf rooted (fold_left (clean_step rooted) l b).
Proof.
  revert b. induction l as [|e l IH]; intros b Hall Hb; simpl; [assumption |].
  inversion Hall; subst. apply IH; [assumption |]. now apply clean_step_wf.
Qed.

Lemma init_wf rooted : wf_buf rooted {| out := []; dotdot := 0 |}.
Proof. exists []. simpl. repeat split. constructor. Qed.

Lemma clean_buf_wf path : wf_buf (is_rooted path) (clean_buf path).
Proof.
  unfold clean_buf. apply clean_fold_wf; [apply split_on_slash_free | apply init_wf].
Qed.

(** Cleaning the elements of a buffer again rebuilds the buffer. *)
Lemma reclean rooted b :
  wf_buf rooted b →
  fold_left (clean_step rooted) (rev (out b)) {| out := []; dotdot := 0 |} = b.
Proof.
  intros (normals & Hout & Hn & Hr). destruct b as [o dd]. simpl in *. subst o.
  rewrite rev_app_distr, fold_left_app.
  assert (Hdd : ∀ n k,
    (rooted = true → n = 0) →
    fold_left (clean_step rooted) (rev (replicate n ".."))
      {| out := replicate k ".."; dotdot := k |}
    = {| out := replicate (n + k) ".."; dotdot := n + k |}).
  { induction n as [|n IH]; intros k Hk; [reflexivity |].
    simpl. rewrite fold_left_app. rewrite IH by (intros E; specialize (Hk E); lia).
    simpl. unfold clean_step. simpl. rewrite length_replicate, Nat.ltb_irrefl.
    destruct rooted; [specialize (Hk eq_refl); lia |]. reflexivity. }
  pose proof (Hdd dd 0 Hr) as E. simpl in E. rewrite E, Nat.add_0_r. clear Hdd E.
  induction Hn as [|x normals Hx Hn IH]; [reflexivity |].
  simpl. rewrite fold_left_app, IH. simpl. now rewrite clean_step_normal.
Qed.


Lemma Clean_nonempty p :
  p ≠ "" → Clean p = render (is_rooted p) (clean_buf p).
Proof. destruct p; [congruence | reflexivity]. Qed.

Lemma wf_buf_elems rooted b :
  wf_buf rooted b → Forall (λ e, e ≠ "" ∧ slash_free e) (out b).
Proof.
  intros (normals & -> & Hn & _). apply Forall_app. split.
  - eapply Forall_impl; [exact Hn |]. intros e (? & _ & _ & ?). auto.
  - apply Forall_replicate. split; [discriminate | reflexivity].
Qed.

Lemma is_rooted_elem e x :
  e ≠ "" → slash_free e → is_rooted (e +:+ x) = false.
Proof.
  intros Hne Hf. destruct e as [|a e]; [congruence |]. simpl.
  unfold slash_free in Hf. simpl in Hf. now apply orb_false_iff in Hf as [-> _].
Qed.

Lemma join_with_cons sep x l :
  ∃ rest, Str.join_with sep (x :: l) = x +:+ rest.
Proof.
  destruct l as [|y l]; [exists ""; now rewrite str_app_nil_r |].
  eexists. reflexivity.
Qed.

Lemma join_elems_shape l :
  l ≠ [] → Forall (λ e, e ≠ "" ∧ slash_free e) l →
  Str.join_with "/" l ≠ "" ∧ is_rooted (Str.join_with "/" l) = false.
Proof.
  intros Hne Hall. destruct l as [|x l]; [congruence |].
  inversion Hall as [|? ? [Hx Hf] _]; subst.
  destruct (join_with_cons "/" x l) as [rest ->]. split.
  - destruct x; [congruence | discriminate].
  - now apply is_rooted_elem.
Qed.

(** [Clean] leaves a cleaned path as it is. *)
Lemma Clean_render rooted b :
  wf_buf rooted b → Clean (render rooted b) = render rooted b.
Proof.
  intros Hb. pose proof (wf_buf_elems _ _ Hb) as Hel.
  assert (Hfree : Forall slash_free (rev (out b))).
  { apply Forall_rev. eapply Forall_impl; [exact Hel |]. now intros e [_ ?]. }
  unfold render. destruct rooted.
  - change ("/" +:+ Str.join_with "/" (rev (out b)))
      with ("" +:+ String "/" (Str.join_with "/" (rev (out b)))).
    rewrite Clean_nonempty by discriminate. unfold clean_buf.
    rewrite split_on_app. simpl.
    destruct (out b) as [|x o] eqn:Eo; [reflexivity |].
    rewrite split_join; [| | assumption].
    + rewrite clean_step_skip by (now left).
      rewrite <- Eo, (reclean true b Hb). now rewrite Eo.
    + simpl. destruct (rev o); discriminate.
  - destruct (out b) as [|x o] eqn:Eo; [reflexivity |].
    assert (Hne : rev (x :: o) ≠ []) by (simpl; destruct (rev o); discriminate).
    destruct (join_elems_shape (rev (x :: o)) Hne) as [Hs Hr].
    { apply Forall_rev. assumption. }
    rewrite Clean_nonempty by assumption. rewrite Hr. unfold clean_buf.
    rewrite split_join by assumption.
    rewrite Hr, <- Eo, (reclean false b Hb). unfold render. now rewrite Eo.
Qed.

(** A trailing separator does not change the cleaned path. *)
Lemma Clean_trailing_slash p :
  p ≠ "" → Clean (p +:+ "/") = Clean p.
Proof.
  intros Hne. rewrite !Clean_nonempty; [| assumption | destruct p; [congruence | discriminate]].
  assert (Hr : is_rooted (p +:+ "/") = is_rooted p) by (destruct p; [congruence | reflexivity]).
  unfold clean_buf. rewrite !Hr, split_on_app, fold_left_app. reflexivity.
Qed.

Lemma upto_last_slash_free h :
  slash_free h → upto_last_slash h = "".
Proof.
  induction h as [|a h IH]; [reflexivity |]. unfold slash_free. simpl.
  intros E. apply orb_false_iff in E as [E1 E2]. rewrite (IH E2), E1. reflexivity.
Qed.

Lemma upto_last_slash_app x h :
  slash_free h → upto_last_slash (x +:+ String "/" h) = x +:+ "/".
Proof.
  intros Hh. induction x as [|a x IH]; simpl.
  - now rewrite (upto_last_slash_free _ Hh).
  - rewrite IH. destruct (x +:+ "/") eqn:E; [destruct x; discriminate |].
    simpl. now rewrite orb_true_r.
Qed.

(** The directory of a cleaned path: the path without its last element. *)
Lemma Dir_render rooted h rest dd dd' :
  slash_free h →
  wf_buf rooted {| out := rest; dotdot := dd |} →
  Dir (render rooted {| out := h :: rest; dotdot := dd' |})
  = render rooted {| out := rest; dotdot := dd |}.
Proof.
  intros Hh Hb. unfold Dir.
  pose proof (wf_buf_elems _ _ Hb) as Hel. simpl in Hel.
  destruct rest as [|x rest].
  - destruct rooted.
    + change (render true {| out := [h]; dotdot := dd' |})
        with ("" +:+ String "/" h).
      now rewrite upto_last_slash_app.
    + change (render false {| out := [h]; dotdot := dd' |}) with h.
      now rewrite upto_last_slash_free.
  - assert (Hne : rev (x :: rest) ≠ []) by (simpl; destruct (rev rest); discriminate).
    assert (Hrender : render rooted {| out := h :: x :: rest; dotdot := dd' |}
              = render rooted {| out := x :: rest; dotdot := dd |} +:+ String "/" h).
    { unfold render. cbn [out].
      change (rev (h :: x :: rest)) with (rev (x :: rest) ++ [h]).
      rewrite join_with_snoc by assumption.
      destruct rooted; [now rewrite str_app_assoc | reflexivity]. }
    rewrite Hrender, upto_last_slash_app by assumption.
    rewrite Clean_trailing_slash; [now apply Clean_render |].
    unfold render. destruct rooted; [discriminate |]. cbn [out].
    apply join_elems_shape; [assumption |]. now apply Forall_rev.
Qed.


Lemma is_rooted_app base x : base ≠ "" → is_rooted (base +:+ x) = is_rooted base.
Proof. destruct base; [congruence | reflexivity]. Qed.

Lemma push_wf rooted b e :
  wf_buf rooted b → normal_elem e →
  wf_buf rooted {| out := e :: out b; dotdot := dotdot b |}.
Proof.
  intros Hb He. rewrite <- (clean_step_normal rooted b e He).
  apply clean_step_wf; [apply He | assumption].
Qed.

(** Joining a kept element onto a base directory appends it to the
    cleaned base; a trailing separator on the element changes nothing. *)
Lemma Join_child base e (slash : bool) :
  normal_elem e →
  Join [base; if slash then e +:+ "/" else e]
  = render (is_rooted base)
      {| out := e :: out (clean_buf base); dotdot := dotdot (clean_buf base) |}.
Proof.
  intros He. pose proof He as (Hne & _ & _ & Hf).
  assert (Hfold : ∀ rooted b,
    fold_left (clean_step rooted)
      (Str.split_on "/" (if slash then e +:+ "/" else e)) b
    = {| out := e :: out b; dotdot := dotdot b |}).
  { intros rooted b. destruct slash.
    - rewrite split_on_app, (split_on_free _ _ Hf). simpl.
      now rewrite (clean_step_normal _ _ _ He).
    - rewrite (split_on_free _ _ Hf). simpl. now apply clean_step_normal. }
  assert (Hne' : (if slash then e +:+ "/" else e) ≠ "")
    by (destruct slash, e; simpl; congruence).
  destruct (String.eqb_spec base "") as [-> | Hb].
  - simpl. apply String.eqb_neq in Hne' as Hne''. rewrite Hne''.
    assert (Hr : is_rooted (if slash then e +:+ "/" else e) = false).
    { destruct slash; [now apply is_rooted_elem |].
      rewrite <- (str_app_nil_r e). now apply is_rooted_elem. }
    rewrite Clean_nonempty by assumption. unfold clean_buf. rewrite Hfold, Hr.
    reflexivity.
  - simpl. apply String.eqb_neq in Hb as Hb'. rewrite Hb'.
    change (Str.join_with "/" [base; if slash then e +:+ "/" else e])
      with (base +:+ String "/" (if slash then e +:+ "/" else e)).
    rewrite Clean_nonempty by (destruct base; [congruence | discriminate]).
    unfold clean_buf. rewrite !is_rooted_app by assumption.
    rewrite split_on_app, fold_left_app, Hfold. reflexivity.
Qed.

(** The path of an object: the base directory, the bucket, the hash. *)
Lemma Join_object base b h :
  normal_elem b → normal_elem h →
  Join [base; b +:+ "/"; h]
  = render (is_rooted base)
      {| out := h :: b :: out (clean_buf base);
         dotdot := dotdot (clean_buf base) |}.
Proof.
  intros Hb Hh. pose proof Hb as (Hbne & _ & _ & Hbf).
  pose proof Hh as (_ & _ & _ & Hhf).
  assert (Hfold : ∀ rooted buf,
    fold_left (clean_step rooted)
      (Str.split_on "/" ((b +:+ "/") +:+ String "/" h)) buf
    = {| out := h :: b :: out buf; dotdot := dotdot buf |}).
  { intros rooted buf.
    rewrite !split_on_app, (split_on_free _ _ Hbf), (split_on_free _ _ Hhf).
    simpl. rewrite (clean_step_normal _ _ _ Hb).
    rewrite ?clean_step_skip by (now left).
    now rewrite (clean_step_normal _ _ _ Hh). }
  assert (Hne : (b +:+ "/") ≠ "") by (destruct b; simpl; congruence).
  destruct (String.eqb_spec base "") as [-> | Hbase].
  - simpl. apply String.eqb_neq in Hne as Hne'. rewrite Hne'.
    change (Str.join_with "/" [b +:+ "/"; h]) with ((b +:+ "/") +:+ String "/" h).
    rewrite Clean_nonempty by (destruct b; [congruence | discriminate]).
    unfold clean_buf. rewrite Hfold.
    rewrite str_app_assoc, (is_rooted_elem _ _ Hbne Hbf). reflexivity.
  - simpl. apply String.eqb_neq in Hbase as Hbase'. rewrite Hbase'.
    change (Str.join_with "/" [base; b +:+ "/"; h])
      with (base +:+ String "/" ((b +:+ "/") +:+ String "/" h)).
    rewrite Clean_nonempty by (destruct base; [congruence | discriminate]).
    unfold clean_buf. rewrite !is_rooted_app by assumption.
    rewrite split_on_app, fold_left_app, Hfold. reflexivity.
Qed.

(** An object lies directly in its bucket directory. *)
Lemma Dir_object base b h :
  normal_elem b → normal_elem h →
  Dir (Join [base; b +:+ "/"; h]) = Join [base; b +:+ "/"].
Proof.
  intros Hb Hh. rewrite (Join_object _ _ _ Hb Hh), (Join_child base b true Hb).
  apply Dir_render; [apply Hh |].
  apply (push_wf _ (clean_buf base)); [apply clean_buf_wf | assumption].
Qed.

Lemma last_elem_render rooted h rest dd dd' :
  slash_free h →
  wf_buf rooted {| out := rest; dotdot := dd |} →
  last_elem (render rooted {| out := h :: rest; dotdot := dd' |}) = h.
Proof.
  intros Hh Hb. pose proof (wf_buf_elems _ _ Hb) as Hel. simpl in Hel.
  assert (Hfree : Forall slash_free (rev rest ++ [h])).
  { apply Forall_app. split; [| now constructor].
    apply Forall_rev. eapply Forall_impl; [exact Hel |]. now intros e [_ ?]. }
  assert (Hne : rev rest ++ [h] ≠ []) by (destruct (rev rest); discriminate).
  unfold last_elem, render. cbn [out].
  change (rev (h :: rest)) with (rev rest ++ [h]).
  destruct rooted.
  - change ("/" +:+ Str.join_with "/" (rev rest ++ [h]))
      with ("" +:+ String "/" (Str.join_with "/" (rev rest ++ [h]))).
    rewrite split_on_app, split_join by assumption.
    change (Str.split_on "/" "" ++ rev rest ++ [h]) with (("" :: rev rest) ++ [h]).
    apply last_last.
  - rewrite split_join by assumption. apply last_last.
Qed.

Lemma last_elem_object base b h :
  normal_elem b → normal_elem h → last_elem (Join [base; b +:+ "/"; h]) = h.
Proof.
  intros Hb Hh. rewrite (Join_object _ _ _ Hb Hh).
  apply last_elem_render with (dd := dotdot (clean_buf base)); [apply Hh |].
  apply (push_wf _ (clean_buf base)); [apply clean_buf_wf | assumption].
Qed.

(** A file created directly in a directory has that directory, cleaned,
    as its [Dir]. *)
Lemma Dir_child base e :
  base ≠ "" → normal_elem e → Dir (Join [base; e]) = Clean base.
Proof.
  intros Hbase He. rewrite (Join_child base e false He).
  rewrite Clean_nonempty by assumption.
  rewrite Dir_render with (dd := dotdot (clean_buf base)).
  - now destruct (clean_buf base).
  - apply He.
  - pose proof (clean_buf_wf base). now destruct (clean_buf base).
Qed.

Lemma hex_no_slash h : Str.all_bytes is_lower_hex h = true → slash_free h.
Proof.
  unfold slash_free. induction h as [|a h IH]; simpl; [reflexivity |].
  intros E. apply andb_true_iff in E as [Ea Eh]. rewrite (IH Eh), orb_false_r.
  destruct (Str.eqb_ascii a "/") eqn:E; [| reflexivity].
  apply eqb_ascii_eq in E as ->. discriminate.
Qed.

Lemma hex64_normal h : hex64 h → normal_elem h.
Proof.
  intros [L A]. repeat split; try (intros ->; discriminate).
  now apply hex_no_slash.
Qed.

Lemma bucket_normal bucket :
  is_bucket bucket → ∃ b, bucket = b +:+ "/" ∧ normal_elem b.
Proof.
  intros [-> | ->]; [exists "ac" | exists "cas"];
    (split; [reflexivity |]); repeat split; discriminate.
Qed.

End Paths.

(** ** The handler, path by path *)

Ltac munfold :=
  unfold mbind, M_bind, bind, mret, M_ret, ret, get, modify, panic, os_Exit, block.

Ltac run_writer :=
  unfold saveToDisk, Copy, Remove, Sync, Close, Rename, log_Printf, log_Fatal;
  munfold.

Section Writer.

Context {C : Type} `{Cache C} `{EnsureSpacer C}.
Implicit Types (s : server C) (env : faults) (r : Request) (info : cacheItem).

#[local] Arguments sha256_hex : simpl never.
#[local] Arguments Filepath.Join : simpl never.
#[local] Arguments hash_mismatch : simpl never.
#[local] Arguments tmp_name : simpl never.

Lemma server_eq (a b : server C) :
  cache a = cache b → ongoingUploads a = ongoingUploads b →
  ongoingUploadsMux a = ongoingUploadsMux b → mutexes a = mutexes b →
  accessLogger a = accessLogger b → errorLogger a = errorLogger b →
  stdLogger a = stdLogger b → disk a = disk b → trace a = trace b →
  unread a = unread b → bodyClosed a = bodyClosed b → w a = w b → a = b.
Proof. destruct a, b; simpl; intros; subst; reflexivity. Qed.

Ltac state_eq :=
  apply server_eq; simpl; try reflexivity; rewrite <- ?app_assoc; try reflexivity.

Lemma TempFile_ok env s :
  temp_ok env s →
  TempFile env (Dir (cache s)) "upload" s =
    (Done (Ok (tmp_name env (Dir (cache s)))),
     sys (<[tmp_name env (Dir (cache s)) := ""]> (disk s))
         (SysTempFile (tmp_name env (Dir (cache s)))) s).
Proof.
  intros [He Hfree]. unfold TempFile. rewrite He. munfold.
  fold (tmp_name env (Dir (cache s))). rewrite Hfree. reflexivity.
Qed.

Lemma save_tempfile_error env r info s e :
  tmp_err env = Some e → saveToDisk env r info s = (Done (0%Z, Some e), s).
Proof. intros He. run_writer. unfold TempFile. now rewrite He. Qed.

Lemma save_mismatch env r info s :
  verifyHash info = true → temp_ok env s →
  hash info ≠ sha256_hex (unread s) →
  saveToDisk env r info s =
    (Done (0%Z, Some (hash_mismatch (hash info) (sha256_hex (unread s)))),
     let tmp := tmp_name env (Dir (cache s)) in
     with_io (disk s)
       (trace s ++ [SysTempFile tmp; SysWrite tmp (String.length (unread s));
                    SysRemove tmp]) "" s).
Proof.
  intros Hv Ht Hne. run_writer. rewrite (TempFile_ok _ _ Ht), Hv. simpl.
  apply String.eqb_neq in Hne. rewrite Hne. simpl.
  rewrite alter_insert_eq, lookup_insert_eq. simpl.
  f_equal. state_eq. apply delete_insert_id, Ht.
Qed.

Lemma save_read_error env r info s e :
  temp_ok env s → BodyErr r = Some e →
  (verifyHash info = true → hash info = sha256_hex (unread s)) →
  saveToDisk env r info s =
    (Done (0%Z, Some e),
     let tmp := tmp_name env (Dir (cache s)) in
     with_io (<[tmp := unread s]> (disk s))
       (trace s ++ [SysTempFile tmp; SysWrite tmp (String.length (unread s))])
       "" s).
Proof.
  intros Ht He Hh. run_writer. rewrite (TempFile_ok _ _ Ht). simpl.
  destruct (verifyHash info); simpl.
  - rewrite (Hh eq_refl), String.eqb_refl, He. simpl.
    rewrite alter_insert_eq. f_equal. state_eq.
  - rewrite He. simpl. rewrite alter_insert_eq. f_equal. state_eq.
Qed.

Lemma save_sync_error env r info s e :
  temp_ok env s → copy_ok r info s → sync_err env = Some e →
  saveToDisk env r info s =
    (Exit 1,
     let tmp := tmp_name env (Dir (cache s)) in
     add_stdLog e
       (with_io (<[tmp := unread s]> (disk s))
          (trace s ++ [SysTempFile tmp; SysWrite tmp (String.length (unread s));
                       SysSync tmp]) "" s)).
Proof.
  intros Ht [He Hh] Hs. run_writer. rewrite (TempFile_ok _ _ Ht). simpl.
  destruct (verifyHash info); simpl.
  - rewrite (Hh eq_refl), String.eqb_refl, He, Hs. simpl.
    rewrite alter_insert_eq. f_equal. state_eq.
  - rewrite He, Hs. simpl. rewrite alter_insert_eq. f_equal. state_eq.
Qed.

Lemma save_rename_error env r info s e2 :
  temp_ok env s → copy_ok r info s → sync_err env = None →
  rename_err env = Some e2 →
  saveToDisk env r info s =
    (Done (0%Z, Some e2),
     let tmp := tmp_name env (Dir (cache s)) in
     let dest := absFilePath info in
     let d := <[tmp := unread s]> (disk s) in
     let t := trace s ++ [SysTempFile tmp; SysWrite tmp (String.length (unread s));
                          SysSync tmp; SysClose tmp; SysRename tmp dest;
                          SysRemove dest] in
     match d !! dest with
     | Some _ =>
         add_stdLog (rename_failed_line tmp dest e2)
           (with_io (delete dest d) t "" s)
     | None =>
         add_stdLog (cleanup_failed_line tmp
                       ("remove " +:+ dest +:+ ": no such file or directory"))
           (add_stdLog (rename_failed_line tmp dest e2) (with_io d t "" s))
     end).
Proof.
  intros Ht [He Hh] Hs Hr. run_writer. rewrite (TempFile_ok _ _ Ht). simpl.
  destruct (verifyHash info); simpl.
  - rewrite (Hh eq_refl), String.eqb_refl, He, Hs, Hr. simpl.
    rewrite alter_insert_eq. simpl.
    destruct (<[_ := _]> (disk s) !! absFilePath info); simpl; f_equal; state_eq.
  - rewrite He, Hs, Hr. simpl. rewrite alter_insert_eq. simpl.
    destruct (<[_ := _]> (disk s) !! absFilePath info); simpl; f_equal; state_eq.
Qed.

Lemma save_success env r info s :
  temp_ok env s → copy_ok r info s → sync_err env = None →
  rename_err env = None →
  saveToDisk env r info s =
    (Done (Z.of_nat (String.length (unread s)), None),
     let tmp := tmp_name env (Dir (cache s)) in
     let dest := absFilePath info in
     with_io (<[dest := unread s]> (disk s))
       (trace s ++ [SysTempFile tmp; SysWrite tmp (String.length (unread s));
                    SysSync tmp; SysClose tmp; SysRename tmp dest]) "" s).
Proof.
  intros Ht [He Hh] Hs Hr. run_writer. rewrite (TempFile_ok _ _ Ht). simpl.
  destruct (verifyHash info); simpl.
  - rewrite (Hh eq_refl), String.eqb_refl, He, Hs, Hr. simpl.
    rewrite alter_insert_eq, lookup_insert_eq. simpl.
    f_equal. state_eq. rewrite delete_insert_id by apply Ht. reflexivity.
  - rewrite He, Hs, Hr. simpl. rewrite alter_insert_eq, lookup_insert_eq. simpl.
    f_equal. state_eq. rewrite delete_insert_id by apply Ht. reflexivity.
Qed.

End Writer.

(** ** What a computation leaves alone *)

Section Frames.

Context {C : Type} `{Cache C} `{EnsureSpacer C}.
Context {X : Type} (proj : server C → X).

Lemma keeps_ret {A} (a : A) : keeps proj (mret a).
Proof. intros s o s' E. unfold mret, M_ret, ret in E. now simplify_eq. Qed.

Lemma keeps_bind {A B} (m : M (server C) A) (f : A → M (server C) B) :
  keeps proj m → (∀ a, keeps proj (f a)) → keeps proj (m ≫= f).
Proof.
  intros Hm Hf s o s'. unfold mbind, M_bind, bind.
  destruct (m s) as [[a| | |] s1] eqn:E; intros E'; simplify_eq;
    try (eapply Hm; eassumption).
  erewrite Hf by eassumption. eapply Hm; eassumption.
Qed.

Lemma keeps_get : keeps proj (@get (server C)).
Proof. intros s o s' E. unfold get in E. now simplify_eq. Qed.

Lemma keeps_modify (f : server C → server C) :
  (∀ s, proj (f s) = proj s) → keeps proj (modify f).
Proof. intros Hf s o s' E. unfold modify in E. simplify_eq. apply Hf. Qed.

Lemma keeps_exit {A} c : keeps proj (@os_Exit (server C) A c).
Proof. intros s o s' E. unfold os_Exit in E. now simplify_eq. Qed.

Lemma keeps_panic {A} v : keeps proj (@panic (server C) A v).
Proof. intros s o s' E. unfold panic in E. now simplify_eq. Qed.

End Frames.

Ltac keeps_step :=
  first
    [ apply keeps_ret
    | apply keeps_get
    | apply keeps_exit
    | apply keeps_panic
    | apply keeps_modify; intros ?; reflexivity
    | apply keeps_bind; [| intros ?]
    | match goal with
      | |- keeps _ (match ?x with _ => _ end) => destruct x
      | |- keeps _ (if ?b then _ else _) => destruct b
      end ].

Section Registry.

Context {C : Type} `{Cache C} `{EnsureSpacer C}.
Implicit Types (s : server C) (env : faults) (r : Request) (info : cacheItem).

#[local] Arguments sha256_hex : simpl never.
#[local] Arguments Filepath.Join : simpl never.
#[local] Arguments hash_mismatch : simpl never.
#[local] Arguments access_line : simpl never.
#[local] Arguments disk_full_line : simpl never.
#[local] Arguments cacheItemFromRequestPath : simpl never.

(** The writer leaves the index, the registry, the access and error
    loggers and the response alone. *)
Lemma saveToDisk_beside_io env r info :
  keeps beside_io (saveToDisk env r info).
Proof.
  unfold saveToDisk, TempFile, Copy, Remove, Sync, Close, Rename, log_Printf,
    log_Fatal.
  repeat keeps_step.
Qed.

Lemma http_Error_registry r msg code :
  keeps (@registry C) (http_Error r msg code).
Proof. unfold http_Error, Write, WriteHeader. repeat keeps_step. Qed.

Lemma saveToDisk_registry env r info :
  keeps registry (saveToDisk env r info).
Proof.
  intros s o s' E. apply saveToDisk_beside_io in E. unfold beside_io in E.
  congruence.
Qed.

(** The upload leaves the registry and the mutexes alone. *)
Lemma upload_registry env r info : keeps registry (upload env r info).
Proof.
  unfold upload, contains, discardUpload, logResponse, WriteHeader.
  repeat first
    [ apply http_Error_registry | apply saveToDisk_registry | keeps_step ].
Qed.

Lemma defer_unfold {A} (d : M (server C) unit) (body : M (server C) A) s :
  defer d body s =
    match body s with
    | (Done a, s') =>
        match d s' with
        | (Done _, s'') => (Done a, s'')
        | (Panic v, s'') => (Panic v, s'')
        | (Exit c, s'') => (Exit c, s'')
        | (Blocked, s'') => (Blocked, s'')
        end
    | (Panic v, s') =>
        match d s' with
        | (Done _, s'') => (Panic v, s'')
        | (Panic v', s'') => (Panic v', s'')
        | (Exit c, s'') => (Exit c, s'')
        | (Blocked, s'') => (Blocked, s'')
        end
    | (Exit c, s') => (Exit c, s')
    | (Blocked, s') => (Blocked, s')
    end.
Proof. reflexivity. Qed.

Lemma upload_mutex_lt path s :
  (∀ mux, ongoingUploads s !! path = Some mux → mutexes s !! mux = Some false) →
  (upload_mutex path s <
   length (match ongoingUploads s !! path with
           | Some _ => mutexes s
           | None => mutexes s ++ [false]
           end))%nat.
Proof.
  intros Hm. unfold upload_mutex.
  destruct (ongoingUploads s !! path) as [mux|]; simpl.
  - eapply lookup_lt_Some. now apply Hm.
  - rewrite length_app. simpl. lia.
Qed.

Lemma startUpload_run path s :
  uncontended path s →
  startUpload path s =
    (Done (upload_mutex path s),
     set_mutexes (match ongoingUploads s !! path with
                  | Some _ => mutexes s
                  | None => mutexes s ++ [false]
                  end)
       (set_uploads (<[path := upload_mutex path s]> (ongoingUploads s)) s)).
Proof.
  intros [Hreg Hmux]. unfold startUpload, Lock_registry, Unlock_registry, defer.
  munfold. rewrite Hreg. simpl. unfold upload_mutex.
  destruct (ongoingUploads s !! path) as [mux|] eqn:E; simpl; f_equal;
    apply server_eq; simpl; auto.
  symmetry. now apply insert_id.
Qed.

Lemma Lock_run mux s :
  mutexes s !! mux = Some false →
  Lock mux s = (Done tt, set_mutexes (<[mux := true]> (mutexes s)) s).
Proof. intros E. unfold Lock. munfold. now rewrite E. Qed.

Lemma Unlock_run mux s :
  mutexes s !! mux = Some true →
  Unlock mux s = (Done tt, set_mutexes (<[mux := false]> (mutexes s)) s).
Proof. intros E. unfold Unlock. munfold. now rewrite E. Qed.

Lemma stopUpload_run path s :
  ongoingUploadsMux s = false →
  stopUpload path s = (Done tt, set_uploads (delete path (ongoingUploads s)) s).
Proof.
  intros Hreg. unfold stopUpload, Lock_registry, Unlock_registry, defer.
  munfold. rewrite Hreg. simpl. f_equal. apply server_eq; simpl; auto.
Qed.

#[local] Arguments defer : simpl never.
#[local] Arguments startUpload : simpl never.
#[local] Arguments stopUpload : simpl never.
#[local] Arguments Lock : simpl never.
#[local] Arguments Unlock : simpl never.
#[local] Arguments upload : simpl never.
#[local] Arguments saveToDisk : simpl never.

(** A PUT of an absent key takes the upload lock, runs the upload and
    releases the lock, unless the process exits in between. *)
Lemma put_absent_run env r s item :
  Method r = "PUT" →
  cacheItemFromRequestPath (URLPath r) (Dir (cache s)) = Ok item →
  ContainsFile (cache s) (absFilePath item) = false →
  uncontended (absFilePath item) s →
  CacheHandler env r s =
    let path := absFilePath item in
    match upload env r item (acquire path s) with
    | (Done a, s1) => (Done a, release path (upload_mutex path s) s1)
    | (Panic v, s1) => (Panic v, release path (upload_mutex path s) s1)
    | (Exit c, s1) => (Exit c, s1)
    | (Blocked, s1) => (Blocked, s1)
    end.
Proof.
  intros HM HP HC Hun.
  pose proof (upload_mutex_lt _ _ (proj2 Hun)) as Hlt.
  unfold CacheHandler. rewrite defer_unfold. munfold. simpl. rewrite HP, HM. simpl.
  unfold contains. munfold. rewrite HC. simpl.
  rewrite (startUpload_run _ _ Hun). simpl.
  rewrite Lock_run; simpl.
  2:{ unfold upload_mutex in *.
      destruct (ongoingUploads s !! absFilePath item) as [mux|] eqn:E; simpl.
      - now apply Hun.
      - rewrite lookup_app_r by lia. now rewrite Nat.sub_diag. }
  rewrite !defer_unfold.
  match goal with |- context [upload env r item ?s0] =>
    assert (Hs0 : s0 = acquire (absFilePath item) s)
      by (apply server_eq; simpl; auto; apply Hun);
    rewrite Hs0; clear Hs0 end.
  destruct (upload env r item (acquire (absFilePath item) s)) as [o s1] eqn:Hup.
  pose proof (upload_registry _ _ _ _ _ _ Hup) as Hreg.
  unfold registry in Hreg. simpl in Hreg.
  injection Hreg as Hu Hm Hx.
  assert (Hlocked : mutexes s1 !! upload_mutex (absFilePath item) s = Some true).
  { rewrite Hx. now apply list_lookup_insert_eq. }
  destruct o as [[]| v | c |]; try reflexivity.
  - rewrite (Unlock_run _ _ Hlocked). rewrite stopUpload_run by (simpl; auto).
    simpl. f_equal. apply server_eq; simpl; auto.
  - rewrite (Unlock_run _ _ Hlocked). rewrite stopUpload_run by (simpl; auto).
    simpl. f_equal. apply server_eq; simpl; auto.
Qed.

End Registry.

(** ** The claims *)

Section Claims.

Context {C : Type} `{Cache C} `{EnsureSpacer C}.
Implicit Types (s : server C) (env : faults) (r : Request) (item : cacheItem).

#[local] Arguments sha256_hex : simpl never.
#[local] Arguments Filepath.Join : simpl never.
#[local] Arguments hash_mismatch : simpl never.
#[local] Arguments access_line : simpl never.
#[local] Arguments disk_full_line : simpl never.
#[local] Arguments cacheItemFromRequestPath : simpl never.
#[local] Arguments tmp_name : simpl never.
#[local] Arguments saveToDisk : simpl never.
#[local] Arguments upload_mutex : simpl never.

Ltac run_upload :=
  unfold upload, contains, discardUpload, logResponse, http_Error, Write,
    WriteHeader;
  munfold; simpl.

Ltac run_handler :=
  unfold CacheHandler; rewrite defer_unfold; munfold; simpl.

(** A parse failure is answered 400 with the parser's message. *)
Lemma parse_error_run env r s msg :
  cacheItemFromRequestPath (URLPath r) (Dir (cache s)) = Err msg →
  incoming r s →
  ∃ s',
    CacheHandler env r s = (Done tt, s') ∧
    response_status s' = StatusBadRequest ∧
    sent (w s') = (if String.eqb (Method r) "HEAD" then "" else msg +:+ lf) ∧
    accessLogger s' = accessLogger s ++ [access_line r StatusBadRequest].
Proof.
  intros HP (Hw & _ & _). eexists. split.
  - run_handler. rewrite HP. unfold http_Error, Write, WriteHeader, logResponse,
      Body_Close. munfold. simpl. reflexivity.
  - unfold response_status. simpl. rewrite Hw. simpl.
    destruct (String.eqb (Method r) "HEAD"); auto.
Qed.

(** A GET of an absent key is answered 404 with no body. *)
Lemma get_absent_run env r s item :
  Method r = "GET" →
  cacheItemFromRequestPath (URLPath r) (Dir (cache s)) = Ok item →
  ContainsFile (cache s) (absFilePath item) = false →
  w s = {| status := None; sent := "" |} →
  ∃ s',
    CacheHandler env r s = (Done tt, s') ∧
    response_status s' = StatusNotFound ∧ sent (w s') = "".
Proof.
  intros HM HP HC Hw. eexists. split.
  - run_handler. rewrite HP, HM. simpl. unfold contains, WriteHeader,
      logResponse, Body_Close. munfold. rewrite HC. simpl. reflexivity.
  - unfold response_status. simpl. now rewrite Hw.
Qed.

(** A PUT of a key the index holds: the body is drained, nothing is
    written and the answer is 200. *)
Lemma put_present_run env r s item :
  Method r = "PUT" →
  cacheItemFromRequestPath (URLPath r) (Dir (cache s)) = Ok item →
  ContainsFile (cache s) (absFilePath item) = true →
  w s = {| status := None; sent := "" |} →
  ∃ s',
    CacheHandler env r s = (Done tt, s') ∧
    response_status s' = StatusOK ∧ sent (w s') = "" ∧
    unread s' = "" ∧ bodyClosed s' = true ∧
    disk s' = disk s ∧ trace s' = trace s ∧ cache s' = cache s ∧
    registry s' = registry s ∧
    accessLogger s' = accessLogger s ++ [access_line r StatusOK] ∧
    errorLogger s' = errorLogger s ∧ stdLogger s' = stdLogger s.
Proof.
  intros HM HP HC Hw. eexists. split.
  - run_handler. rewrite HP, HM. simpl. unfold contains, discardUpload,
      WriteHeader, logResponse, Body_Close. munfold. rewrite HC. simpl.
    reflexivity.
  - unfold response_status, registry. simpl. rewrite Hw. simpl. split_and!; reflexivity.
Qed.

(** After a PUT that was answered 200 the index holds the key. *)
Lemma put_ok_registers `{!Contract C} env r s item s1 :
  Method r = "PUT" →
  cacheItemFromRequestPath (URLPath r) (Dir (cache s)) = Ok item →
  incoming r s →
  uncontended (absFilePath item) s →
  CacheHandler env r s = (Done tt, s1) →
  response_status s1 = StatusOK →
  ContainsFile (cache s1) (absFilePath item) = true
  ∧ Dir (cache s1) = Dir (cache s).
Proof.
  intros HM HP (Hw & Hu & Hb) Hun Hrun H200.
  destruct (ContainsFile (cache s) (absFilePath item)) eqn:HC.
  - destruct (put_present_run env _ _ _ HM HP HC Hw) as (s' & Hrun' & Hs').
    rewrite Hrun in Hrun'. simplify_eq. destruct Hs' as (_ & _ & _ & _ & _ & _ & -> & _).
    auto.
  - rewrite (put_absent_run _ _ _ _ HM HP HC Hun) in Hrun.
    unfold upload, contains, discardUpload, logResponse, http_Error, Write,
      WriteHeader in Hrun.
    unfold mbind, M_bind, bind, mret, M_ret, ret, get, modify in Hrun.
    simpl in Hrun. rewrite HC in Hrun. simpl in Hrun.
    pose proof (Dir_EnsureSpace (cache s) (disk s) (ContentLength r)) as HD.
    destruct (EnsureSpace (cache s) (disk s) (ContentLength r)) as [[ok c'] d'].
    simpl in HD, Hrun. destruct ok; simpl in Hrun.
    + match type of Hrun with context [saveToDisk env r item ?s0] =>
        destruct (saveToDisk env r item s0) as [o sd] eqn:Hs end.
      pose proof (saveToDisk_beside_io _ _ _ _ _ _ Hs) as Hf.
      unfold beside_io in Hf. simpl in Hf.
      assert (Hwsd : w sd = w s) by (now apply (f_equal snd) in Hf).
      assert (Hcache : cache sd = c')
        by (now apply (f_equal (λ x, x.1.1.1.1)) in Hf).
      destruct o as [[written [e|]]| | |]; simpl in Hrun;
        try discriminate Hrun; injection Hrun as Hs1; subst s1.
      * exfalso. unfold response_status in H200. simpl in H200.
        rewrite Hwsd, Hw, HM in H200. discriminate.
      * simpl. rewrite contains_AddFile, Dir_AddFile, Hcache.
        split; [reflexivity | assumption].
    + injection Hrun as Hs1; subst s1.
      exfalso. unfold response_status in H200. simpl in H200.
      rewrite Hw, HM in H200. discriminate.
Qed.


(** C8. A PUT the space ensurer refuses is answered 507; the sizes are
    logged, the upload lock is released and deregistered, and the write is
    not attempted: no system call is made, the disk and the index are as
    the ensurer left them, no file has appeared and the key is still
    absent. *)
Theorem put_refused_insufficient_storage `{!Contract C} env r s item c' d' :
  Method r = "PUT" →
  cacheItemFromRequestPath (URLPath r) (Dir (cache s)) = Ok item →
  incoming r s →
  ContainsFile (cache s) (absFilePath item) = false →
  uncontended (absFilePath item) s →
  EnsureSpace (cache s) (disk s) (ContentLength r) = (false, c', d') →
  ∃ s',
    CacheHandler env r s = (Done tt, s') ∧
    response_status s' = StatusInsufficientStorage ∧
    sent (w s') = "The disk is full. File could not be uploaded." +:+ lf ∧
    errorLogger s' =
      errorLogger s ++ ["The disk is full (" +:+ decimalZ (CurrSize c') +:+ "/"
                          +:+ decimalZ (MaxSize c') +:+ " bytes used)"] ∧
    ongoingUploads s' !! absFilePath item = None ∧
    mutexes s' !! upload_mutex (absFilePath item) s = Some false ∧
    ongoingUploadsMux s' = false ∧
    trace s' = trace s ∧ disk s' = d' ∧ cache s' = c' ∧
    (∀ p, disk s !! p = None → disk s' !! p = None) ∧
    ContainsFile (cache s') (absFilePath item) = false.
Proof.
  intros HM HP (Hw & Hu & Hb) HC Hun HE.
  pose proof (upload_mutex_lt _ _ (proj2 Hun)) as Hlt.
  eexists. split.
  - rewrite (put_absent_run _ _ _ _ HM HP HC Hun). run_upload.
    rewrite HC. simpl. rewrite HE. simpl. reflexivity.
  - unfold response_status. simpl. rewrite Hw, HM. simpl.
    split_and!; try reflexivity.
    + apply lookup_delete_eq.
    + now apply list_lookup_insert_eq; rewrite length_insert.
    + intros p Hp. pose proof (EnsureSpace_creates_no_file (cache s) (disk s)
        (ContentLength r) p Hp) as E. now rewrite HE in E.
    + destruct (ContainsFile c' (absFilePath item)) eqn:E; [| reflexivity].
      pose proof (EnsureSpace_evicts (cache s) (disk s) (ContentLength r)
        (absFilePath item)) as Hev. rewrite HE in Hev. simpl in Hev.
      rewrite (Hev E) in HC. discriminate.
Qed.


(** C7. A PUT of a key the index already holds drains and discards the
    body and is answered 200 without any system call: the disk, the index
    and the registry are unchanged.  Hence, after a PUT that was answered
    200, a second PUT of the same key is answered 200 and writes nothing. *)
Theorem put_existing_is_noop `{!Contract C} env r s item :
  Method r = "PUT" →
  cacheItemFromRequestPath (URLPath r) (Dir (cache s)) = Ok item →
  incoming r s →
  (ContainsFile (cache s) (absFilePath item) = true →
   ∃ s',
     CacheHandler env r s = (Done tt, s') ∧
     response_status s' = StatusOK ∧ sent (w s') = "" ∧
     unread s' = "" ∧
     trace s' = trace s ∧ disk s' = disk s ∧ cache s' = cache s ∧
     registry s' = registry s)
  ∧
  (∀ s1, uncontended (absFilePath item) s →
     CacheHandler env r s = (Done tt, s1) →
     response_status s1 = StatusOK →
     ∀ env2 r2,
       Method r2 = "PUT" → URLPath r2 = URLPath r →
       ∃ s2,
         CacheHandler env2 r2 (arrive r2 s1) = (Done tt, s2) ∧
         response_status s2 = StatusOK ∧ unread s2 = "" ∧
         trace s2 = trace s1 ∧ disk s2 = disk s1 ∧ cache s2 = cache s1).
Proof.
  intros HM HP Hin. split.
  - intros HC. destruct Hin as (Hw & _ & _).
    destruct (put_present_run env _ _ _ HM HP HC Hw)
      as (s' & Hrun & H200 & Hsent & Hun & _ & Hd & Ht & Hc & Hr & _).
    exists s'. auto 10.
  - intros s1 Hun Hrun H200 env2 r2 HM2 HU2.
    destruct (put_ok_registers _ _ _ _ _ HM HP Hin Hun Hrun H200) as [HC1 HD1].
    destruct (put_present_run env2 r2 (arrive r2 s1) item)
      as (s2 & Hrun2 & H2 & _ & Hun2 & _ & Hd & Ht & Hc & _); simpl; auto.
    + now rewrite HU2, HD1.
    + exists s2. auto 10.
Qed.


(** C2, at the input the code fails on.  A HEAD request for a key the
    index does not hold: the handler calls [Error] on the nil error of the
    parser and panics, before any status or access-log line is written. *)
Theorem head_absent_panics env r s item :
  Method r = "HEAD" →
  cacheItemFromRequestPath (URLPath r) (Dir (cache s)) = Ok item →
  ContainsFile (cache s) (absFilePath item) = false →
  ∃ s',
    CacheHandler env r s
      = (Panic "runtime error: invalid memory address or nil pointer dereference",
         s') ∧
    w s' = w s ∧ accessLogger s' = accessLogger s.
Proof.
  intros HM HP HC. eexists. split.
  - run_handler. rewrite HP, HM. simpl. unfold contains, Body_Close. munfold.
    rewrite HC. simpl. reflexivity.
  - simpl. auto.
Qed.

(** C3, at the input the code fails on.  When flushing the staging file
    fails the writer calls [log.Fatal]: the process exits with status 1, no
    response is written, and the upload lock is still held and
    registered. *)
Theorem sync_failure_exits env r s item c' d' e :
  Method r = "PUT" →
  cacheItemFromRequestPath (URLPath r) (Dir (cache s)) = Ok item →
  incoming r s →
  ContainsFile (cache s) (absFilePath item) = false →
  uncontended (absFilePath item) s →
  EnsureSpace (cache s) (disk s) (ContentLength r) = (true, c', d') →
  tmp_err env = None → d' !! tmp_name env (Dir c') = None →
  BodyErr r = None →
  (verifyHash item = true → hash item = sha256_hex (Body r)) →
  sync_err env = Some e →
  ∃ s',
    CacheHandler env r s = (Exit 1, s') ∧
    w s' = {| status := None; sent := "" |} ∧
    ongoingUploads s' !! absFilePath item
      = Some (upload_mutex (absFilePath item) s) ∧
    mutexes s' !! upload_mutex (absFilePath item) s = Some true ∧
    stdLogger s' = stdLogger s ++ [e].
Proof.
  intros HM HP (Hw & Hu & Hb) HC Hun HE Ht Hfree He Hh Hsync.
  pose proof (upload_mutex_lt _ _ (proj2 Hun)) as Hlt.
  eexists. split.
  - rewrite (put_absent_run _ _ _ _ HM HP HC Hun). run_upload.
    rewrite HC. simpl. rewrite HE. simpl.
    rewrite (save_sync_error _ _ _ _ e); simpl;
      [reflexivity | split; assumption | split; [assumption | simpl; now rewrite Hu]
       | assumption].
  - simpl. split_and!; [assumption | apply lookup_insert_eq | | reflexivity].
    now apply list_lookup_insert_eq.
Qed.

(** C5, at an input the code fails on.  A PUT the space ensurer refuses
    is answered 507 and leaves no line in the access log. *)
Theorem refused_put_not_logged env r s item c' d' :
  Method r = "PUT" →
  cacheItemFromRequestPath (URLPath r) (Dir (cache s)) = Ok item →
  incoming r s →
  ContainsFile (cache s) (absFilePath item) = false →
  uncontended (absFilePath item) s →
  EnsureSpace (cache s) (disk s) (ContentLength r) = (false, c', d') →
  ∃ s',
    CacheHandler env r s = (Done tt, s') ∧
    response_status s' = StatusInsufficientStorage ∧
    accessLogger s' = accessLogger s.
Proof.
  intros HM HP (Hw & Hu & Hb) HC Hun HE. eexists. split.
  - rewrite (put_absent_run _ _ _ _ HM HP HC Hun). run_upload.
    rewrite HC. simpl. rewrite HE. simpl. reflexivity.
  - unfold response_status. simpl. rewrite Hw, HM. simpl. auto.
Qed.

(** C6, as amended.  The parser accepts exactly the paths made of prefix
    segments without a line feed, a bucket [ac/] or [cas/] and 64
    lowercase hexadecimal characters; [verifyHash] is set exactly for the
    bucket [cas/]; every other path fails with the message that carries the
    escaped path, which the dispatcher answers with 400. *)
Theorem parser_accepts_exactly url base :
  (∀ pre bucket h,
     accepted_shape url pre bucket h →
     cacheItemFromRequestPath url base =
       Ok {| hash := h; absFilePath := Filepath.Join [base; bucket; h];
             verifyHash := String.eqb bucket "cas/" |})
  ∧ (∀ item,
       cacheItemFromRequestPath url base = Ok item →
       ∃ pre bucket h,
         accepted_shape url pre bucket h ∧ hash item = h
         ∧ (verifyHash item = true ↔ bucket = "cas/"))
  ∧ ((∀ pre bucket h, ¬ accepted_shape url pre bucket h) →
     cacheItemFromRequestPath url base =
       Err ("Resource name must be a SHA256 hash in hex. Got '"
              +:+ Html.EscapeString url +:+ "'."))
  ∧ (∀ env r s msg,
       URLPath r = url → Dir (cache s) = base →
       cacheItemFromRequestPath url base = Err msg →
       incoming r s →
       ∃ s',
         CacheHandler env r s = (Done tt, s') ∧
         response_status s' = StatusBadRequest ∧
         sent (w s') = (if String.eqb (Method r) "HEAD" then "" else msg +:+ lf)).
Proof.
  split_and!.
  - intros pre bucket h Hs. now apply (parse_accepted _ _ pre).
  - intros item HP. apply parse_ok_inv in HP as (pre & bucket & h & Hs & ->).
    exists pre, bucket, h. simpl. split_and!; [assumption | reflexivity |].
    apply String.eqb_eq.
  - intros Hno. destruct (cacheItemFromRequestPath url base) as [item | msg] eqn:HP.
    + apply parse_ok_inv in HP as (pre & bucket & h & Hs & _).
      now destruct (Hno pre bucket h).
    + apply parse_err_inv in HP as [-> _]. reflexivity.
  - intros env r s msg <- <- HP Hin.
    destruct (parse_error_run env _ _ _ HP Hin) as (s' & Hrun & H400 & Hsent & _).
    eauto.
Qed.

End Claims.

(** ** Where the files lie *)

Section Placement.

Import Filepath.

Lemma wf_buf_tail rooted x o dd :
  wf_buf rooted {| out := x :: o; dotdot := dd |} →
  ∃ dd', wf_buf rooted {| out := o; dotdot := dd' |}.
Proof.
  intros (normals & Hout & Hn & Hr). simpl in *.
  destruct normals as [|n ns].
  - destruct dd as [|dd]; [discriminate |]. simpl in Hout. injection Hout as _ ->.
    exists dd, []. simpl. split_and!; [reflexivity | constructor |].
    intros E. specialize (Hr E). discriminate.
  - simpl in Hout. injection Hout as _ ->. inversion Hn; subst.
    exists dd, ns. auto.
Qed.

Lemma wf_buf_head rooted x o dd :
  wf_buf rooted {| out := x :: o; dotdot := dd |} →
  x ≠ "" ∧ x ≠ "." ∧ slash_free x.
Proof.
  intros (normals & Hout & Hn & Hr). simpl in *.
  destruct normals as [|n ns].
  - destruct dd as [|dd]; [discriminate |]. simpl in Hout. injection Hout as -> _.
    split_and!; [discriminate | discriminate | reflexivity].
  - simpl in Hout. injection Hout as -> _. inversion Hn as [|? ? (? & ? & _ & ?)]; subst.
    auto.
Qed.

(** A cleaned path and the same path with one more element differ. *)
Lemma render_cons_neq rooted l :
  ∀ e dd dd',
    wf_buf rooted {| out := e :: l; dotdot := dd |} →
    render rooted {| out := e :: l; dotdot := dd |}
    ≠ render rooted {| out := l; dotdot := dd' |}.
Proof.
  induction l as [|x o IH]; intros e dd dd' Hwf Heq.
  - destruct (wf_buf_head _ _ _ _ Hwf) as (Hne & Hdot & _).
    destruct rooted; unfold render in Heq; simpl in Heq.
    + injection Heq as ->. congruence.
    + congruence.
  - destruct (wf_buf_tail _ _ _ _ Hwf) as [dd1 Hwf1].
    destruct (wf_buf_tail _ _ _ _ Hwf1) as [dd2 Hwf2].
    destruct (wf_buf_head _ _ _ _ Hwf) as (_ & _ & Hfe).
    destruct (wf_buf_head _ _ _ _ Hwf1) as (_ & _ & Hfx).
    apply (f_equal Dir) in Heq.
    rewrite (Dir_render rooted e (x :: o) dd1 dd Hfe Hwf1) in Heq.
    rewrite (Dir_render rooted x o dd2 dd' Hfx Hwf2) in Heq.
    exact (IH x dd1 dd2 Hwf1 Heq).
Qed.

(** A sub-directory is not the directory itself. *)
Lemma Join_child_neq base e :
  base ≠ "" → normal_elem e → Join [base; e +:+ "/"] ≠ Clean base.
Proof.
  intros Hbase He. rewrite (Join_child base e true He).
  rewrite Clean_nonempty by assumption.
  pose proof (push_wf _ _ e (clean_buf_wf base) He) as Hwf.
  destruct (clean_buf base) as [o dd]. simpl in *.
  now apply render_cons_neq.
Qed.

(** C10. The path of every object the parser accepts is the base
    directory joined with the bucket and the hash: its directory is the
    bucket directory under the base directory and its last element is the
    hash, whatever the prefix of the request path. *)
Theorem object_path_inside_bucket url base item :
  cacheItemFromRequestPath url base = Ok item →
  ∃ pre bucket h,
    accepted_shape url pre bucket h ∧
    hash item = h ∧
    absFilePath item = Join [base; bucket; h] ∧
    Dir (absFilePath item) = Join [base; bucket] ∧
    last_elem (absFilePath item) = h.
Proof.
  intros HP. apply parse_ok_inv in HP as (pre & bucket & h & Hs & ->).
  exists pre, bucket, h. simpl.
  pose proof Hs as [(_ & _ & Hb & Hh) _].
  apply bucket_normal in Hb as (b & -> & Hb). apply hex64_normal in Hh.
  split_and!; try reflexivity; try assumption.
  - now apply Dir_object.
  - now apply last_elem_object.
Qed.

End Placement.

(** The directory of a file placed in [base], whatever [base] is. *)
Lemma Dir_child_any base e :
  normal_elem e →
  Filepath.Dir (Filepath.Join [base; e]) = Filepath.Clean base.
Proof.
  intros He. rewrite (Join_child base e false He).
  rewrite Dir_render with (dd := Filepath.dotdot (Filepath.clean_buf base)).
  - destruct base as [| a base]; [reflexivity |].
    rewrite Clean_nonempty by discriminate.
    now destruct (Filepath.clean_buf (String a base)).
  - apply He.
  - pose proof (clean_buf_wf base). now destruct (Filepath.clean_buf base).
Qed.

Section Staging.

Context {C : Type} `{Cache C} `{EnsureSpacer C}.

(** C4, as amended.  The staging file is the one
    [ioutil.TempFile(h.cache.Dir(), "upload")] creates, named [upload]
    followed by a random suffix without a separator: it lies directly in
    the root directory of the cache, or in the temporary directory of the
    operating system when the root directory is the empty string.  The
    destination lies in the bucket directory under the root; for a
    non-empty root the two directories differ.  A successful write ends
    with one rename of the staging file to the destination. *)
Theorem staging_file_in_cache_root env r (s : server C) item :
  cacheItemFromRequestPath (URLPath r) (Dir (cache s)) = Ok item →
  slash_free (tmp_random env) →
  let root := Dir (cache s) in
  let tmp := tmp_name env root in
  let dest := absFilePath item in
  (∃ bucket,
     is_bucket bucket ∧
     Filepath.Dir tmp =
       Filepath.Clean (if String.eqb root "" then os_TempDir env else root) ∧
     Filepath.last_elem tmp = "upload" +:+ tmp_random env ∧
     Filepath.Dir dest = Filepath.Join [root; bucket] ∧
     (root ≠ "" → Filepath.Dir dest ≠ Filepath.Dir tmp))
  ∧ (temp_ok env s → copy_ok r item s →
     sync_err env = None → rename_err env = None →
     ∃ s',
       saveToDisk env r item s
         = (Done (Z.of_nat (String.length (unread s)), None), s') ∧
       trace s' =
         trace s ++ [SysTempFile tmp; SysWrite tmp (String.length (unread s));
                     SysSync tmp; SysClose tmp; SysRename tmp dest] ∧
       disk s' !! dest = Some (unread s)).
Proof.
  intros HP Hrnd root tmp dest. split.
  - apply parse_ok_inv in HP as (pre & bucket & h & Hs & Hitem).
    destruct Hs as [(_ & _ & Hb & Hh) _]. exists bucket.
    pose proof Hb as Hb'. apply bucket_normal in Hb' as (b & -> & Hnb).
    apply hex64_normal in Hh.
    assert (Hup : normal_elem ("upload" +:+ tmp_random env)).
    { split_and!; try discriminate. unfold slash_free.
      now rewrite contains_byte_app. }
    assert (Htmp : Filepath.Dir tmp =
                   Filepath.Clean
                     (if String.eqb root "" then os_TempDir env else root)).
    { unfold tmp, tmp_name. now apply Dir_child_any. }
    assert (Hlast : Filepath.last_elem tmp = "upload" +:+ tmp_random env).
    { unfold tmp, tmp_name.
      rewrite (Join_child _ _ false Hup).
      pose proof (clean_buf_wf
                    (if String.eqb root "" then os_TempDir env else root)) as Hwf.
      destruct (Filepath.clean_buf
                  (if String.eqb root "" then os_TempDir env else root))
        as [o dd].
      simpl. apply (last_elem_render _ _ _ dd); [apply Hup | exact Hwf]. }
    assert (Hdest : Filepath.Dir dest = Filepath.Join [root; b +:+ "/"]).
    { unfold dest. rewrite Hitem. simpl. now apply Dir_object. }
    split_and!; try assumption.
    intros Hroot. rewrite Htmp, Hdest.
    rewrite (proj2 (String.eqb_neq _ _) Hroot). now apply Join_child_neq.
  - intros Ht Hc Hsync Hren. eexists. split; [now apply save_success |].
    simpl. split; [reflexivity | apply lookup_insert_eq].
Qed.

End Staging.

(** ** Every way a request ends *)

Section Outcomes.

Context {C : Type} `{Cache C} `{EnsureSpacer C}.
Implicit Types (s : server C) (env : faults) (r : Request) (item : cacheItem).

#[local] Arguments sha256_hex : simpl never.
#[local] Arguments Filepath.Join : simpl never.
#[local] Arguments hash_mismatch : simpl never.
#[local] Arguments access_line : simpl never.
#[local] Arguments disk_full_line : simpl never.
#[local] Arguments cacheItemFromRequestPath : simpl never.
#[local] Arguments tmp_name : simpl never.
#[local] Arguments upload_mutex : simpl never.

(** The writer returns, unless flushing the staging file fails. *)
Lemma saveToDisk_outcome env r item s o s' :
  saveToDisk env r item s = (o, s') →
  (∃ a, o = Done a) ∨ (o = Exit 1 ∧ ∃ e, sync_err env = Some e).
Proof.
  unfold saveToDisk, TempFile, Copy, Remove, Sync, Close, Rename, log_Printf,
    log_Fatal.
  munfold. intros E.
  repeat (case_match; simplify_eq/=); eauto.
Qed.


(** The upload answers the request, unless flushing the staging file
    fails. *)
Lemma upload_outcome env r item s o s' :
  upload env r item s = (o, s') →
  status (w s) = None →
  (o = Done tt ∧ is_Some (status (w s')))
  ∨ (o = Exit 1 ∧ ∃ e, sync_err env = Some e).
Proof.
  intros E Hw. revert E.
  unfold upload, contains, discardUpload, logResponse, http_Error, Write,
    WriteHeader.
  munfold. simpl.
  destruct (ContainsFile (cache s) (absFilePath item)); simpl.
  - intros E. simplify_eq. left. simpl. rewrite Hw. eauto.
  - destruct (EnsureSpace (cache s) (disk s) (ContentLength r)) as [[ok c'] d'].
    simpl. destruct ok; simpl.
    + match goal with |- context [saveToDisk env r item ?s0] =>
        destruct (saveToDisk env r item s0) as [o1 sd] eqn:Hs end.
      pose proof (saveToDisk_beside_io _ _ _ _ _ _ Hs) as Hf.
      assert (Hwsd : w sd = w s) by (now apply (f_equal snd) in Hf).
      destruct (saveToDisk_outcome _ _ _ _ _ _ Hs) as [[[written err] ->] | [-> He]].
      * destruct err as [e|]; intros E; simplify_eq; left; simpl;
          rewrite Hwsd, Hw; simpl; split; try reflexivity.
        -- destruct (String.eqb (Method r) "HEAD"); simpl; eauto.
        -- eauto.
      * intros E. simplify_eq. now right.
    + intros E. simplify_eq. left. simpl. rewrite Hw.
      split; [reflexivity |].
      destruct (String.eqb (Method r) "HEAD"); simpl; eauto.
Qed.

(** X1: every PUT of a key the index does not hold, on a server where
    nobody holds the registry lock or the key's upload lock, ends in one of
    two ways.  Either the handler returns with a status written, the key
    deregistered, its upload mutex unlocked and the request body closed; or
    the process exits with status 1, and this only when flushing the staging
    file fails. *)
Lemma put_returns_or_sync_fatal env r s item o s' :
  Method r = "PUT" →
  cacheItemFromRequestPath (URLPath r) (Dir (cache s)) = Ok item →
  incoming r s →
  ContainsFile (cache s) (absFilePath item) = false →
  uncontended (absFilePath item) s →
  CacheHandler env r s = (o, s') →
  (o = Done tt ∧ is_Some (status (w s')) ∧
   ongoingUploads s' !! absFilePath item = None ∧
   mutexes s' !! upload_mutex (absFilePath item) s = Some false ∧
   bodyClosed s' = true)
  ∨ (o = Exit 1 ∧ ∃ e, sync_err env = Some e).
Proof.
  intros HM HP (Hw & _ & _) HC Hun Hrun.
  pose proof (upload_mutex_lt _ _ (proj2 Hun)) as Hlt.
  rewrite (put_absent_run _ _ _ _ HM HP HC Hun) in Hrun. simpl in Hrun.
  destruct (upload env r item (acquire (absFilePath item) s)) as [o1 s1] eqn:Hup.
  pose proof (upload_registry _ _ _ _ _ _ Hup) as Hreg.
  assert (Hm : mutexes s1 = mutexes (acquire (absFilePath item) s))
    by (now apply (f_equal snd) in Hreg).
  destruct (upload_outcome _ _ _ _ _ _ Hup) as [[-> Hst] | [-> He]].
  - simpl. now rewrite Hw.
  - simplify_eq. left. simpl. split_and!; try reflexivity; try assumption.
    + apply lookup_delete_eq.
    + rewrite Hm. simpl. apply list_lookup_insert_eq. now rewrite length_insert.
  - simplify_eq. now right.
Qed.


(** X2: a HEAD request for a key the index holds is answered 200 with no
    body, logged once as 200 in the access log, and touches neither the
    disk nor the system. *)
Lemma head_present_run env r s item :
  Method r = "HEAD" →
  cacheItemFromRequestPath (URLPath r) (Dir (cache s)) = Ok item →
  ContainsFile (cache s) (absFilePath item) = true →
  incoming r s →
  ∃ s',
    CacheHandler env r s = (Done tt, s') ∧
    response_status s' = StatusOK ∧ sent (w s') = "" ∧
    accessLogger s' = accessLogger s ++ [access_line r StatusOK] ∧
    disk s' = disk s ∧ trace s' = trace s.
Proof.
  intros HM HP HC (Hw & _ & _). eexists. split.
  - unfold CacheHandler. rewrite defer_unfold. munfold. simpl.
    rewrite HP, HM. simpl. unfold contains, WriteHeader, logResponse, Body_Close.
    munfold. rewrite HC. simpl. reflexivity.
  - unfold response_status. simpl. rewrite Hw. simpl. auto.
Qed.

(** X3: a request on a well-formed key with a method other than GET, PUT
    and HEAD is answered 405; the body is [Method '<m>' not supported.]
    with the method name in HTML-escaped form, and the access log gets one
    line with 405. *)
Lemma method_not_allowed_run env r s item :
  cacheItemFromRequestPath (URLPath r) (Dir (cache s)) = Ok item →
  Method r ≠ "GET" → Method r ≠ "PUT" → Method r ≠ "HEAD" →
  incoming r s →
  ∃ s',
    CacheHandler env r s = (Done tt, s') ∧
    response_status s' = StatusMethodNotAllowed ∧
    sent (w s') =
      "Method '" +:+ Html.EscapeString (Method r) +:+ "' not supported." +:+ lf ∧
    accessLogger s' = accessLogger s ++ [access_line r StatusMethodNotAllowed].
Proof.
  intros HP HG HU HH (Hw & _ & _).
  apply String.eqb_neq in HG, HU, HH. eexists. split.
  - unfold CacheHandler. rewrite defer_unfold. munfold. simpl.
    rewrite HP, HG, HU, HH. simpl.
    unfold http_Error, Write, WriteHeader, logResponse, Body_Close. munfold.
    simpl. reflexivity.
  - unfold response_status. simpl. rewrite Hw. simpl.
    split_and!; try reflexivity.
    now rewrite !str_app_assoc.
Qed.

(** X4: upload then download.  A PUT of an absent key whose space is
    granted, with no I/O fault and, for a CAS key, a body with the key's
    digest, answers 200; it stores exactly the body under the key's path,
    registers in the index the number of bytes read and deregisters the
    upload.  A later plain GET of the same path (no range or conditional
    request, which the model of [http.ServeFile] leaves out) answers 200
    with exactly that body when the path has no [..] element; when it has
    one, [http.ServeFile] refuses the GET with 400 [invalid URL path],
    although the PUT of that very path was accepted. *)
Lemma put_then_get_round_trip `{!Contract C} env r s item c' d' :
  Method r = "PUT" →
  cacheItemFromRequestPath (URLPath r) (Dir (cache s)) = Ok item →
  incoming r s →
  ContainsFile (cache s) (absFilePath item) = false →
  uncontended (absFilePath item) s →
  EnsureSpace (cache s) (disk s) (ContentLength r) = (true, c', d') →
  tmp_err env = None → d' !! tmp_name env (Dir c') = None →
  BodyErr r = None →
  (verifyHash item = true → hash item = sha256_hex (Body r)) →
  sync_err env = None → rename_err env = None →
  ∃ s',
    CacheHandler env r s = (Done tt, s') ∧
    response_status s' = StatusOK ∧
    disk s' = <[absFilePath item := Body r]> d' ∧
    cache s' = AddFile c' (absFilePath item) (Z.of_nat (String.length (Body r))) ∧
    ongoingUploads s' !! absFilePath item = None ∧
    ∀ env2 r2,
      Method r2 = "GET" → URLPath r2 = URLPath r →
      ∃ s'', CacheHandler env2 r2 (arrive r2 s') = (Done tt, s'')
             ∧ (response_status s'', sent (w s'')) =
                 (if containsDotDot (URLPath r)
                  then (StatusBadRequest, "invalid URL path" +:+ lf)
                  else (StatusOK, Body r)).
Proof.
  intros HM HP (Hw & Hu & Hb) HC Hun HE Ht Hfree He Hh Hsync Hren.
  pose proof (Dir_EnsureSpace (cache s) (disk s) (ContentLength r)) as HD.
  rewrite HE in HD. simpl in HD.
  eexists. split.
  - rewrite (put_absent_run _ _ _ _ HM HP HC Hun).
    unfold upload, contains, discardUpload, logResponse, http_Error, Write,
      WriteHeader.
    munfold. simpl. rewrite HC. simpl. rewrite HE. simpl.
    rewrite save_success; simpl;
      [reflexivity | split; assumption
       | split; [assumption | simpl; now rewrite Hu] | assumption | assumption].
  - unfold response_status. simpl. rewrite Hw, Hu. simpl.
    split_and!; try reflexivity; [apply lookup_delete_eq |].
    intros env2 r2 HM2 HU2.
    unfold CacheHandler. rewrite defer_unfold. munfold. simpl.
    rewrite HU2, Dir_AddFile, HD, HP, HM2. simpl.
    unfold contains, ServeFile, http_Error, Write, WriteHeader, logResponse,
      Body_Close.
    munfold. simpl. rewrite contains_AddFile. simpl. rewrite HU2, HM2.
    destruct (containsDotDot (URLPath r)); simpl.
    + eexists. split; [reflexivity |]. unfold response_status. simpl.
      reflexivity.
    + rewrite lookup_insert_eq. simpl.
      eexists. split; [reflexivity |]. unfold response_status. simpl.
      reflexivity.
Qed.

End Outcomes.

(** ** More on the key parser *)

Section Keys.

Import Filepath.

#[local] Arguments Filepath.Join : simpl never.
#[local] Arguments cacheItemFromRequestPath : simpl never.

Lemma last_elem_child base e :
  normal_elem e → last_elem (Join [base; e +:+ "/"]) = e.
Proof.
  intros He. rewrite (Join_child base e true He).
  pose proof (clean_buf_wf base) as Hwf.
  destruct (clean_buf base) as [o dd] eqn:E. simpl.
  apply (last_elem_render _ _ _ dd); [apply He | exact Hwf].
Qed.

Lemma object_path_inj base b1 h1 b2 h2 :
  is_bucket b1 → hex64 h1 → is_bucket b2 → hex64 h2 →
  Join [base; b1; h1] = Join [base; b2; h2] → b1 = b2 ∧ h1 = h2.
Proof.
  intros Hb1 Hh1 Hb2 Hh2 E.
  destruct (bucket_normal _ Hb1) as (e1 & -> & He1).
  destruct (bucket_normal _ Hb2) as (e2 & -> & He2).
  pose proof (hex64_normal _ Hh1) as Hn1.
  pose proof (hex64_normal _ Hh2) as Hn2.
  assert (Hh : h1 = h2).
  { rewrite <- (last_elem_object base e1 h1 He1 Hn1), E.
    now apply last_elem_object. }
  split; [| exact Hh].
  apply (f_equal Dir) in E.
  rewrite !Dir_object in E by assumption.
  apply (f_equal last_elem) in E.
  rewrite !last_elem_child in E by assumption. now subst.
Qed.

(** X5: two request paths that the parser accepts under one base directory
    and that map to the same file are the same key: they yield the same
    cache item, with the same hash and the same bucket.  So an AC entry and a
    CAS object never share a file, nor do two different hashes. *)
Theorem distinct_keys_distinct_files url1 url2 base item1 item2 :
  cacheItemFromRequestPath url1 base = Ok item1 →
  cacheItemFromRequestPath url2 base = Ok item2 →
  absFilePath item1 = absFilePath item2 →
  item1 = item2.
Proof.
  intros H1 H2 E.
  destruct (parse_ok_inv _ _ _ H1) as (p1 & b1 & h1 & [(_ & _ & Hb1 & Hh1) _] & ->).
  destruct (parse_ok_inv _ _ _ H2) as (p2 & b2 & h2 & [(_ & _ & Hb2 & Hh2) _] & ->).
  simpl in E.
  destruct (object_path_inj _ _ _ _ _ Hb1 Hh1 Hb2 Hh2 E) as [-> ->].
  reflexivity.
Qed.

(** X6: whatever precedes the bucket is ignored.  For a bucket and a
    64-character lowercase hexadecimal hash, the bare key, the key behind a
    slash and the key behind any prefix [q] without a line feed, with or
    without a leading slash, all parse to one and the same cache item, whose
    file is [Join(baseDir, bucket, hash)]. *)
Theorem prefix_is_ignored q bucket h base :
  is_bucket bucket → hex64 h → Str.contains_byte line_feed q = false →
  let item := {| hash := h; absFilePath := Join [base; bucket; h];
                 verifyHash := String.eqb bucket "cas/" |} in
  cacheItemFromRequestPath (bucket +:+ h) base = Ok item
  ∧ cacheItemFromRequestPath ("/" +:+ bucket +:+ h) base = Ok item
  ∧ cacheItemFromRequestPath (q +:+ "/" +:+ bucket +:+ h) base = Ok item
  ∧ cacheItemFromRequestPath ("/" +:+ q +:+ "/" +:+ bucket +:+ h) base = Ok item.
Proof.
  intros Hb Hh Hq item. split_and!.
  - apply (parse_accepted _ _ "").
    split; [| reflexivity]. split_and!; auto. now left.
  - apply (parse_accepted _ _ "/").
    split; [| reflexivity]. split_and!; auto. right. now exists "".
  - apply (parse_accepted _ _ (q +:+ "/")).
    split.
    + split_and!; auto.
      * now rewrite str_app_assoc.
      * right. now exists q.
    + rewrite contains_byte_app, Hq. reflexivity.
  - apply (parse_accepted _ _ ("/" +:+ q +:+ "/")).
    split.
    + split_and!; auto.
      * simpl. f_equal. now rewrite str_app_assoc.
      * right. now exists ("/" +:+ q).
    + simpl. rewrite contains_byte_app, Hq. reflexivity.
Qed.

(** X7: the parser has one error only.  Every path either yields a cache
    item or fails with the message [Resource name must be a SHA256 hash in
    hex. Got '...'.]; the second error of the source, [The path '...' is
    invalid. Expected (ac/|cas/)SHA256.] (lines 87 to 92), is never returned,
    since a match of the pattern always has its three submatches. *)
Theorem malformed_key_is_the_only_error url base :
  (∃ item, cacheItemFromRequestPath url base = Ok item)
  ∨ cacheItemFromRequestPath url base
    = Err ("Resource name must be a SHA256 hash in hex. Got '"
             +:+ Html.EscapeString url +:+ "'.").
Proof.
  destruct (cacheItemFromRequestPath url base) as [item | msg] eqn:E.
  - left. eauto.
  - right. destruct (parse_err_inv _ _ _ E) as [-> _]. reflexivity.
Qed.

End Keys.

(** ** Escaping *)

Lemma escape_byte_safe (c a : ascii) :
  In c ["<"; ">"; "'"; ascii_of_nat 34]%char →
  Str.contains_byte c (Html.escape_byte a) = false.
Proof.
  intros Hc. simpl in Hc.
  destruct Hc as [<- | [<- | [<- | [<- | []]]]];
    destruct a as [[] [] [] [] [] [] [] []]; reflexivity.
Qed.

Lemma EscapeString_safe (c : ascii) (v : string) :
  In c ["<"; ">"; "'"; ascii_of_nat 34]%char →
  Str.contains_byte c (Html.EscapeString v) = false.
Proof.
  intros Hc. induction v as [| a v IH]; [reflexivity |].
  simpl. rewrite contains_byte_app, IH, (escape_byte_safe c a Hc). reflexivity.
Qed.

Section Reads.

Context {C : Type} `{Cache C} `{EnsureSpacer C}.
Implicit Types (s : server C) (env : faults) (r : Request) (item : cacheItem).

#[local] Arguments sha256_hex : simpl never.
#[local] Arguments Filepath.Join : simpl never.
#[local] Arguments hash_mismatch : simpl never.
#[local] Arguments access_line : simpl never.
#[local] Arguments disk_full_line : simpl never.
#[local] Arguments cacheItemFromRequestPath : simpl never.
#[local] Arguments tmp_name : simpl never.
#[local] Arguments saveToDisk : simpl never.
#[local] Arguments upload_mutex : simpl never.
#[local] Arguments containsDotDot : simpl never.
#[local] Arguments Html.EscapeString : simpl never.

Lemma keeps_defer {X A} (proj : server C → X) (d : M (server C) unit)
    (body : M (server C) A) :
  keeps proj d → keeps proj body → keeps proj (defer d body).
Proof.
  intros Hd Hb s o s' E. rewrite defer_unfold in E.
  destruct (body s) as [ob sb] eqn:Eb. apply Hb in Eb.
  destruct ob; simplify_eq; try assumption;
    destruct (d sb) as [od sd] eqn:Ed; apply Hd in Ed;
    destruct od; simplify_eq; congruence.
Qed.

Lemma keeps_block {X A} (proj : server C → X) :
  keeps proj (@block (server C) A).
Proof. intros s o s' E. unfold block in E. now simplify_eq. Qed.

(** A request that is no PUT leaves alone the index, the files, the system
    calls, the upload registry and the error and standard loggers. *)
Lemma reads_keep_store env r :
  Method r ≠ "PUT" →
  keeps (λ s, (cache s, disk s, trace s, registry s, errorLogger s, stdLogger s))
    (CacheHandler env r).
Proof.
  intros HM. apply String.eqb_neq in HM.
  unfold CacheHandler, contains, ServeFile, http_Error, Write, WriteHeader,
    logResponse, Body_Close, Error_of.
  rewrite HM.
  apply keeps_defer; repeat keeps_step.
Qed.

(** X8: only a PUT changes the store.  However a request with another
    method ends, it leaves the index, the files on disk, the system calls
    made, the upload registry with its mutexes, the error logger and the
    standard logger exactly as they were. *)
Theorem only_put_changes_the_store env r s o s' :
  Method r ≠ "PUT" →
  CacheHandler env r s = (o, s') →
  cache s' = cache s ∧ disk s' = disk s ∧ trace s' = trace s
  ∧ registry s' = registry s
  ∧ errorLogger s' = errorLogger s ∧ stdLogger s' = stdLogger s.
Proof.
  intros HM E. apply (reads_keep_store env r HM) in E.
  injection E as E1 E2 E3 E4 E5 E6 E7 E8.
  unfold registry. split_and!; congruence.
Qed.

(** X9: a path the parser rejects is answered 400 and echoed in escaped
    form only.  The body is the parser's message around
    [html.EscapeString] of the path (no body for a HEAD request); the
    escaped path has no [<], [>], single or double quote in it, and the
    whole body has no [<], [>] or double quote. *)
Theorem bad_request_echo_is_escaped env r s msg :
  cacheItemFromRequestPath (URLPath r) (Dir (cache s)) = Err msg →
  incoming r s →
  ∃ s',
    CacheHandler env r s = (Done tt, s') ∧
    response_status s' = StatusBadRequest ∧
    sent (w s') =
      (if String.eqb (Method r) "HEAD" then ""
       else "Resource name must be a SHA256 hash in hex. Got '"
              +:+ Html.EscapeString (URLPath r) +:+ "'." +:+ lf) ∧
    (∀ c, In c ["<"; ">"; "'"; ascii_of_nat 34]%char →
          Str.contains_byte c (Html.EscapeString (URLPath r)) = false) ∧
    (∀ c, In c ["<"; ">"; ascii_of_nat 34]%char →
          Str.contains_byte c (sent (w s')) = false).
Proof.
  intros HP (Hw & _ & _).
  destruct (parse_err_inv _ _ _ HP) as [-> _].
  eexists. split.
  - unfold CacheHandler. rewrite defer_unfold. munfold. simpl. rewrite HP. simpl.
    unfold http_Error, Write, WriteHeader, logResponse, Body_Close. munfold.
    simpl. reflexivity.
  - unfold response_status. simpl. rewrite Hw. simpl.
    assert (Hsafe : ∀ c, In c ["<"; ">"; "'"; ascii_of_nat 34]%char →
              Str.contains_byte c (Html.EscapeString (URLPath r)) = false)
      by (intros c Hc; now apply EscapeString_safe).
    destruct (String.eqb (Method r) "HEAD"); simpl.
    + split_and!; auto.
    + split_and!; auto.
      * now rewrite !str_app_assoc.
      * intros c Hc.
        assert (Hc' : In c ["<"; ">"; "'"; ascii_of_nat 34]%char)
          by (simpl in *; tauto).
        change (Str.contains_byte c
                  ("Resource name must be a SHA256 hash in hex. Got '"
                     +:+ (Html.EscapeString (URLPath r) +:+ "'.") +:+ lf)
                = false).
        rewrite !contains_byte_app, (Hsafe c Hc').
        simpl in Hc. destruct Hc as [<- | [<- | [<- | []]]]; reflexivity.
Qed.

(** X10: what a GET of a well-formed key answers (range and conditional
    requests apart, which the model of [http.ServeFile] leaves out).  When
    the index does not
    hold the key: 404 with an empty body, logged as 404.  When it does, the
    answer is [http.ServeFile]'s: 400 [invalid URL path] if the request
    path has a [..] element, else the bytes of the file with 200, else 404
    [404 page not found] if the file is missing on disk; in all three
    cases the access-log line records 200. *)
Theorem get_answers env r s item :
  Method r = "GET" →
  cacheItemFromRequestPath (URLPath r) (Dir (cache s)) = Ok item →
  incoming r s →
  ∃ s',
    CacheHandler env r s = (Done tt, s') ∧
    (response_status s', sent (w s')) =
      (if negb (ContainsFile (cache s) (absFilePath item))
       then (StatusNotFound, "")
       else if containsDotDot (URLPath r)
       then (StatusBadRequest, "invalid URL path" +:+ lf)
       else match disk s !! absFilePath item with
            | Some data => (StatusOK, data)
            | None => (StatusNotFound, "404 page not found" +:+ lf)
            end) ∧
    accessLogger s' =
      accessLogger s ++
        [access_line r (if ContainsFile (cache s) (absFilePath item)
                        then StatusOK else StatusNotFound)].
Proof.
  intros HM HP (Hw & _ & _).
  unfold CacheHandler. rewrite defer_unfold. munfold. simpl. rewrite HP, HM. simpl.
  unfold contains, ServeFile, http_Error, Write, WriteHeader, logResponse,
    Body_Close.
  munfold.
  destruct (ContainsFile (cache s) (absFilePath item)); simpl.
  - rewrite HM. simpl. destruct (containsDotDot (URLPath r)); simpl.
    + eexists. split; [reflexivity |]. unfold response_status. simpl.
      rewrite Hw. simpl. auto.
    + destruct (disk s !! absFilePath item) as [data|]; simpl;
        (eexists; split; [reflexivity |]); unfold response_status; simpl;
        rewrite Hw; simpl; auto.
  - eexists. split; [reflexivity |]. unfold response_status. simpl.
    rewrite Hw. simpl. auto.
Qed.

End Reads.

(** ** What requests do to the store *)

Section Written.

Context {C : Type} `{Cache C} `{EnsureSpacer C}.
Implicit Types (s : server C) (env : faults) (r : Request) (item : cacheItem).

#[local] Arguments sha256_hex : simpl never.
#[local] Arguments Filepath.Join : simpl never.
#[local] Arguments hash_mismatch : simpl never.
#[local] Arguments access_line : simpl never.
#[local] Arguments disk_full_line : simpl never.
#[local] Arguments cacheItemFromRequestPath : simpl never.
#[local] Arguments tmp_name : simpl never.
#[local] Arguments upload_mutex : simpl never.

Lemma written_by_refl env item d : written_by env item d d.
Proof. intros p c Hp. now left. Qed.

Lemma written_by_trans env item d1 d2 d3 :
  written_by env item d1 d2 → written_by env item d2 d3 →
  written_by env item d1 d3.
Proof.
  intros H12 H23 p c Hp.
  destruct (H23 p c Hp) as [Hp2 | Hnew]; [| now right].
  now apply H12.
Qed.

Lemma written_by_subseteq env item (d d' : files) :
  d' ⊆ d → written_by env item d d'.
Proof.
  intros Hsub p c Hp. left.
  exact (proj1 (map_subseteq_spec d' d) Hsub p c Hp).
Qed.

(** [ioutil.TempFile] in every case. *)
Lemma TempFile_cases env dir s :
  TempFile env dir "upload" s =
    match tmp_err env with
    | Some e => (Done (Err e), s)
    | None =>
        match disk s !! tmp_name env dir with
        | Some _ =>
            (Done (Err ("open " +:+ tmp_name env dir +:+ ": file exists")), s)
        | None =>
            (Done (Ok (tmp_name env dir)),
             sys (<[tmp_name env dir := ""]> (disk s))
                 (SysTempFile (tmp_name env dir)) s)
        end
    end.
Proof.
  unfold TempFile. destruct (tmp_err env); [reflexivity |].
  munfold. fold (tmp_name env dir).
  destruct (disk s !! tmp_name env dir); reflexivity.
Qed.

#[local] Arguments TempFile : simpl never.

#[local] Arguments defer : simpl never.
#[local] Arguments startUpload : simpl never.
#[local] Arguments stopUpload : simpl never.
#[local] Arguments Lock : simpl never.
#[local] Arguments Unlock : simpl never.

(** What the writer does to the files. *)
Lemma saveToDisk_writes env r item s o s' :
  saveToDisk env r item s = (o, s') →
  written_by env item (disk s) (disk s').
Proof.
  unfold saveToDisk. munfold. rewrite TempFile_cases.
  destruct (tmp_err env) as [e|]; [intros E; simplify_eq; apply written_by_refl |].
  destruct (disk s !! tmp_name env (Dir (cache s))) as [x|] eqn:Hfree;
    [intros E; simplify_eq; apply written_by_refl |].
  unfold Copy, Remove, Sync, Close, Rename, log_Printf, log_Fatal. munfold.
  simpl. intros E.
  repeat (case_match; simplify_eq/=).
  all: intros p c Hp.
  all: destruct (decide (p = tmp_name env (Dir (cache s)))) as [-> | Hpt];
    [right; left; eexists; reflexivity |].
  all: destruct (decide (p = absFilePath item)) as [-> | Hpd].
  all: rewrite ?lookup_insert_ne, ?lookup_delete_ne, ?lookup_alter_ne,
         ?lookup_insert_ne in Hp by congruence.
  all: try (left; exact Hp).
  all: try (rewrite lookup_delete_eq in Hp; discriminate).
  all: rewrite lookup_insert_eq in Hp.
  all: match goal with
       | Ha : alter _ _ _ !! _ = Some _ |- _ =>
           rewrite lookup_alter_eq, lookup_insert_eq in Ha; simpl in Ha
       end.
  all: simplify_eq; right; right; split; [reflexivity |]; intros Hv.
  - match goal with
    | Hn : negb _ = false |- _ =>
        apply negb_false_iff in Hn; now apply String.eqb_eq in Hn
    end.
  - congruence.
Qed.

#[local] Arguments saveToDisk : simpl never.

(** What an upload does to the files, when the space ensurer only
    evicts. *)
Lemma upload_writes env r item :
  evicts_only (C := C) →
  steps (λ x y, written_by env item x.2 y.2) (upload env r item).
Proof.
  intros Hev s o s'.
  unfold upload, contains, discardUpload, logResponse, http_Error, Write,
    WriteHeader.
  munfold. simpl.
  destruct (ContainsFile (cache s) (absFilePath item)); simpl.
  - intros E. simplify_eq. apply written_by_refl.
  - pose proof (Hev (cache s) (disk s) (ContentLength r)) as Hsub.
    destruct (EnsureSpace (cache s) (disk s) (ContentLength r)) as [[ok c'] d'].
    simpl in *. destruct ok; simpl.
    + match goal with |- context [saveToDisk env r item ?s0] =>
        destruct (saveToDisk env r item s0) as [o1 sd] eqn:Hs end.
      apply saveToDisk_writes in Hs. simpl in Hs.
      assert (Hall : written_by env item (disk s) (disk sd))
        by (eapply written_by_trans; [apply written_by_subseteq, Hsub | exact Hs]).
      destruct o1 as [[written [e|]] | | |]; intros E; simplify_eq; exact Hall.
    + intros E. simplify_eq. simpl. now apply written_by_subseteq.
Qed.

(** An upload leaves the root directory of the cache where it is, when
    the index and the space ensurer do. *)
Lemma upload_keeps_Dir `{!Contract C} env r item :
  steps (λ x y, Dir y.1 = Dir x.1) (upload env r item).
Proof.
  intros s o s'.
  unfold upload, contains, discardUpload, logResponse, http_Error, Write,
    WriteHeader.
  munfold. simpl.
  destruct (ContainsFile (cache s) (absFilePath item)); simpl.
  - intros E. now simplify_eq.
  - pose proof (Dir_EnsureSpace (cache s) (disk s) (ContentLength r)) as HD.
    destruct (EnsureSpace (cache s) (disk s) (ContentLength r)) as [[ok c'] d'].
    simpl in *. destruct ok; simpl.
    + match goal with |- context [saveToDisk env r item ?s0] =>
        destruct (saveToDisk env r item s0) as [o1 sd] eqn:Hs end.
      pose proof (saveToDisk_beside_io _ _ _ _ _ _ Hs) as Hf.
      injection Hf as Hc _ _ _ _ _ _. simpl in Hc.
      destruct o1 as [[written [e|]] | | |]; intros E; simplify_eq; simpl;
        rewrite ?Dir_AddFile; congruence.
    + intros E. now simplify_eq.
Qed.

#[local] Arguments upload : simpl never.

Lemma startUpload_keeps_store path :
  keeps (λ s, (cache s, disk s)) (startUpload path).
Proof.
  unfold startUpload, Lock_registry, Unlock_registry.
  repeat first [apply keeps_defer | apply keeps_block | keeps_step].
Qed.

Lemma stopUpload_keeps_store path :
  keeps (λ s, (cache s, disk s)) (stopUpload path).
Proof.
  unfold stopUpload, Lock_registry, Unlock_registry.
  repeat first [apply keeps_defer | apply keeps_block | keeps_step].
Qed.

Lemma Lock_keeps_store mux : keeps (λ s : server C, (cache s, disk s)) (Lock mux).
Proof. unfold Lock. repeat first [apply keeps_block | keeps_step]. Qed.

Lemma Unlock_keeps_store mux :
  keeps (λ s : server C, (cache s, disk s)) (Unlock mux).
Proof. unfold Unlock. repeat keeps_step. Qed.

Section Steps.

Variable R : C * files → C * files → Prop.
Hypothesis R_refl : ∀ x, R x x.

Lemma steps_defer {A} (d : M (server C) unit) (body : M (server C) A) :
  keeps (λ s, (cache s, disk s)) d → steps R body → steps R (defer d body).
Proof.
  intros Hd Hb s o s' E. rewrite defer_unfold in E.
  destruct (body s) as [ob sb] eqn:Eb. apply Hb in Eb.
  destruct ob; simplify_eq; try assumption;
    destruct (d sb) as [od sd] eqn:Ed; apply Hd in Ed; simpl in Ed;
    injection Ed as Ec Ek; destruct od; simplify_eq; now rewrite Ec, Ek.
Qed.

(** A request for [item] takes the index and the files where its upload
    may take them. *)
Lemma handler_steps env r s item o s' :
  steps R (upload env r item) →
  cacheItemFromRequestPath (URLPath r) (Dir (cache s)) = Ok item →
  CacheHandler env r s = (o, s') →
  R (cache s, disk s) (cache s', disk s').
Proof.
  intros Hup HP E.
  destruct (decide (Method r = "PUT")) as [HM | HM].
  2:{ apply (reads_keep_store env r HM) in E. injection E as -> -> _ _ _ _ _ _.
      apply R_refl. }
  revert E. unfold CacheHandler. rewrite defer_unfold. munfold. simpl.
  rewrite HP, HM. simpl. unfold contains. munfold.
  destruct (ContainsFile (cache s) (absFilePath item)); simpl.
  - unfold discardUpload, logResponse, WriteHeader, Body_Close. munfold. simpl.
    intros E. simplify_eq. apply R_refl.
  - destruct (startUpload (absFilePath item) s) as [o1 s1] eqn:E1.
    pose proof (startUpload_keeps_store _ _ _ _ E1) as D1. simpl in D1.
    rewrite <- D1.
    unfold Body_Close. munfold.
    destruct o1 as [mux | | |]; simpl; try (intros E; simplify_eq; apply R_refl).
    destruct (Lock mux s1) as [o2 s2] eqn:E2.
    pose proof (Lock_keeps_store _ _ _ _ E2) as D2. simpl in D2.
    rewrite <- D2.
    destruct o2 as [[] | | |]; simpl; try (intros E; simplify_eq; apply R_refl).
    match goal with |- context [defer ?d ?b s2] =>
      destruct (defer d b s2) as [o3 s3] eqn:E3;
      assert (D3 : R (cache s2, disk s2) (cache s3, disk s3))
    end.
    { revert E3. apply steps_defer; [apply stopUpload_keeps_store |].
      apply steps_defer; [apply Unlock_keeps_store | exact Hup]. }
    destruct o3; simpl; intros E; simplify_eq; exact D3.
Qed.

End Steps.

End Written.

Section StagingNames.

Import Filepath.

#[local] Arguments Filepath.Join : simpl never.

Lemma upload_name_normal x : slash_free x → normal_elem ("upload" +:+ x).
Proof. intros Hx. unfold normal_elem, slash_free. simpl. auto. Qed.

Lemma last_elem_staging env dir :
  slash_free (tmp_random env) →
  last_elem (tmp_name env dir) = "upload" +:+ tmp_random env.
Proof.
  intros Hx. unfold tmp_name.
  set (base := if String.eqb dir "" then os_TempDir env else dir).
  pose proof (upload_name_normal _ Hx) as Hn.
  rewrite (Join_child base _ false Hn).
  pose proof (clean_buf_wf base) as Hwf.
  destruct (clean_buf base) as [o dd]. simpl.
  apply (last_elem_render _ _ _ dd); [apply Hn | exact Hwf].
Qed.

(** No staging file has the name of an object. *)
Lemma staging_not_object env dir base bucket h :
  slash_free (tmp_random env) → is_bucket bucket → hex64 h →
  tmp_name env dir ≠ Join [base; bucket; h].
Proof.
  intros Hx Hb Hh E.
  destruct (bucket_normal _ Hb) as (e & -> & He).
  apply (f_equal last_elem) in E.
  rewrite (last_elem_staging _ _ Hx) in E.
  rewrite (last_elem_object base e h He (hex64_normal _ Hh)) in E.
  destruct Hh as [_ Hall]. rewrite <- E in Hall. simpl in Hall. discriminate.
Qed.

End StagingNames.

Section StoreInvariants.

Context {C : Type} `{Cache C} `{EnsureSpacer C}.
Implicit Types (s : server C) (env : faults) (r : Request) (item : cacheItem).

#[local] Arguments sha256_hex : simpl never.
#[local] Arguments Filepath.Join : simpl never.
#[local] Arguments access_line : simpl never.
#[local] Arguments cacheItemFromRequestPath : simpl never.
#[local] Arguments tmp_name : simpl never.

(** A malformed path leaves alone whatever the response and the access
    logger are not. *)
Lemma parse_error_keeps_store env r s msg o s' :
  cacheItemFromRequestPath (URLPath r) (Dir (cache s)) = Err msg →
  CacheHandler env r s = (o, s') →
  cache s' = cache s ∧ disk s' = disk s ∧ trace s' = trace s
  ∧ registry s' = registry s.
Proof.
  intros HP. unfold CacheHandler. rewrite defer_unfold. munfold. simpl.
  rewrite HP. simpl.
  unfold http_Error, Write, WriteHeader, logResponse, Body_Close. munfold. simpl.
  intros E. simplify_eq. auto.
Qed.

(** What a request for [item] does to the files. *)
Lemma handler_writes env r s item o s' :
  evicts_only (C := C) →
  cacheItemFromRequestPath (URLPath r) (Dir (cache s)) = Ok item →
  CacheHandler env r s = (o, s') →
  written_by env item (disk s) (disk s').
Proof.
  intros Hev HP E.
  apply (handler_steps (λ x y, written_by env item x.2 y.2)
           (λ x, written_by_refl env item x.2) env r s item o s');
    [now apply upload_writes | exact HP | exact E].
Qed.

(** No request moves the root directory of the cache. *)
Lemma handler_keeps_Dir `{!Contract C} env r s o s' :
  CacheHandler env r s = (o, s') → Dir (cache s') = Dir (cache s).
Proof.
  intros E.
  destruct (cacheItemFromRequestPath (URLPath r) (Dir (cache s)))
    as [item | msg] eqn:HP.
  - apply (handler_steps (λ x y, Dir y.1 = Dir x.1) (λ x, eq_refl)
             env r s item o s');
      [apply upload_keeps_Dir | exact HP | exact E].
  - destruct (parse_error_keeps_store _ _ _ _ _ _ HP E) as (-> & _).
    reflexivity.
Qed.

(** X12: content addressing is an invariant of the handler.  Assume the
    index and the space ensurer keep their contracts, the ensurer only
    deletes files, and the random part of a staging name has no slash.  If
    every file under [cas/] of the cache's root directory holds bytes whose
    SHA-256 digest is its name, then this still holds after any request,
    however the request ends (answer, panic, exit or wait). *)
Theorem cas_objects_stay_sound `{!Contract C} env r s o s' :
  evicts_only (C := C) →
  slash_free (tmp_random env) →
  CacheHandler env r s = (o, s') →
  cas_sound (Dir (cache s)) (disk s) →
  cas_sound (Dir (cache s')) (disk s').
Proof.
  intros Hev Hx E Hsound.
  rewrite (handler_keeps_Dir _ _ _ _ _ E).
  destruct (cacheItemFromRequestPath (URLPath r) (Dir (cache s)))
    as [item | msg] eqn:HP.
  2:{ destruct (parse_error_keeps_store _ _ _ _ _ _ HP E) as (_ & -> & _).
      exact Hsound. }
  pose proof (handler_writes _ _ _ _ _ _ Hev HP E) as Hwr.
  destruct (parse_ok_inv _ _ _ HP) as (pre & b & h0 & [(_ & _ & Hb & Hh0) _] & ->).
  intros h content Hh Hlook.
  destruct (Hwr _ _ Hlook) as [Hold | [[dir Hst] | [Hdest Hhash]]].
  - now apply (Hsound h).
  - exfalso. symmetry in Hst.
    revert Hst. apply staging_not_object; [exact Hx | now right | exact Hh].
  - simpl in Hdest, Hhash.
    destruct (object_path_inj _ _ _ _ _ (or_intror eq_refl) Hh Hb Hh0 Hdest)
      as [<- <-].
    symmetry. now apply Hhash.
Qed.


End StoreInvariants.

(** ** Every answer *)

Section Answers.

Context {C : Type} `{Cache C} `{EnsureSpacer C}.
Implicit Types (s : server C) (env : faults) (r : Request) (item : cacheItem).

#[local] Arguments sha256_hex : simpl never.
#[local] Arguments Filepath.Join : simpl never.
#[local] Arguments hash_mismatch : simpl never.
#[local] Arguments access_line : simpl never.
#[local] Arguments disk_full_line : simpl never.
#[local] Arguments cacheItemFromRequestPath : simpl never.
#[local] Arguments tmp_name : simpl never.
#[local] Arguments upload_mutex : simpl never.
#[local] Arguments containsDotDot : simpl never.
#[local] Arguments Html.EscapeString : simpl never.
#[local] Arguments saveToDisk : simpl never.

(** How an upload answers: 200 with a line in the access log, 500 or 507
    without one, or the process exits. *)
Lemma upload_answer env r item s o s' :
  upload env r item s = (o, s') →
  status (w s) = None →
  (o = Done tt ∧
   ((status (w s') = Some StatusOK
     ∧ accessLogger s' = accessLogger s ++ [access_line r StatusOK])
    ∨ ((status (w s') = Some StatusInternalServerError
        ∨ status (w s') = Some StatusInsufficientStorage)
       ∧ accessLogger s' = accessLogger s)))
  ∨ (o = Exit 1 ∧ ∃ e, sync_err env = Some e).
Proof.
  intros E Hw. revert E.
  unfold upload, contains, discardUpload, logResponse, http_Error, Write,
    WriteHeader.
  munfold. simpl.
  destruct (ContainsFile (cache s) (absFilePath item)); simpl.
  - intros E. simplify_eq. left. simpl. rewrite Hw. auto.
  - destruct (EnsureSpace (cache s) (disk s) (ContentLength r)) as [[ok c'] d'].
    simpl. destruct ok; simpl.
    + match goal with |- context [saveToDisk env r item ?s0] =>
        destruct (saveToDisk env r item s0) as [o1 sd] eqn:Hs end.
      pose proof (saveToDisk_beside_io _ _ _ _ _ _ Hs) as Hf.
      injection Hf as _ _ _ _ Hlog _ Hwsd. simpl in Hlog, Hwsd.
      destruct (saveToDisk_outcome _ _ _ _ _ _ Hs) as [[[written err] ->] | [-> He]].
      * destruct err as [e|]; intros E; simplify_eq; left; simpl;
          rewrite Hwsd, Hw, Hlog; simpl; split; try reflexivity.
        -- right. destruct (String.eqb (Method r) "HEAD"); simpl; auto.
        -- left. auto.
      * intros E. simplify_eq. now right.
    + intros E. simplify_eq. left. simpl. rewrite Hw.
      split; [reflexivity |]. right.
      destruct (String.eqb (Method r) "HEAD"); simpl; auto.
Qed.

(** X14: every way a request ends.  A request that reaches a server on
    which nobody holds the registry lock or the upload lock of its key ends
    in one of three ways.  (1) The handler returns with the body closed and
    a status written.  For a GET of a key the index holds, the status is
    the one [http.ServeFile] writes, and the access log gets one line, with
    200.  In every other case the status is 200, 400, 404 or 405 and the
    access log gets exactly one line, with that same status; or, for a PUT
    only, the status is 500 or 507 and the access log gets no line.  (2) The
    handler panics on a nil error: only for a HEAD request, with the body
    closed, no status written and no access-log line.  (3) The process
    exits with status 1: only for a PUT, when flushing the staging file
    fails. *)
Theorem every_request_ends_in_one_of_three_ways env r s o s' :
  incoming r s →
  (∀ item, cacheItemFromRequestPath (URLPath r) (Dir (cache s)) = Ok item →
           uncontended (absFilePath item) s) →
  CacheHandler env r s = (o, s') →
  (o = Done tt ∧ bodyClosed s' = true ∧
   ∃ code,
     status (w s') = Some code ∧
     ((Method r = "GET"
       ∧ (∃ item,
            cacheItemFromRequestPath (URLPath r) (Dir (cache s)) = Ok item
            ∧ ContainsFile (cache s) (absFilePath item) = true)
       ∧ accessLogger s' = accessLogger s ++ [access_line r StatusOK])
      ∨ (In code [StatusOK; StatusBadRequest; StatusNotFound; StatusMethodNotAllowed]
         ∧ accessLogger s' = accessLogger s ++ [access_line r code])
      ∨ (In code [StatusInternalServerError; StatusInsufficientStorage]
         ∧ Method r = "PUT" ∧ accessLogger s' = accessLogger s)))
  ∨ (o = Panic "runtime error: invalid memory address or nil pointer dereference"
     ∧ Method r = "HEAD" ∧ bodyClosed s' = true ∧ status (w s') = None
     ∧ accessLogger s' = accessLogger s)
  ∨ (o = Exit 1 ∧ Method r = "PUT" ∧ ∃ e, sync_err env = Some e).
Proof.
  intros (Hw & _ & _) Hun.
  pose (answer (code : nat) :=
    o = Done tt ∧ bodyClosed s' = true ∧
    status (w s') = Some code ∧
    accessLogger s' = accessLogger s ++ [access_line r code]).
  assert (Hanswer : ∀ code,
            In code [StatusOK; StatusBadRequest; StatusNotFound;
                     StatusMethodNotAllowed] →
            answer code →
            (o = Done tt ∧ bodyClosed s' = true ∧
             ∃ code,
               status (w s') = Some code ∧
               ((Method r = "GET"
                 ∧ (∃ item,
                      cacheItemFromRequestPath (URLPath r) (Dir (cache s)) = Ok item
                      ∧ ContainsFile (cache s) (absFilePath item) = true)
                 ∧ accessLogger s' = accessLogger s ++ [access_line r StatusOK])
                ∨ (In code [StatusOK; StatusBadRequest; StatusNotFound; StatusMethodNotAllowed]
                   ∧ accessLogger s' = accessLogger s ++ [access_line r code])
                ∨ (In code [StatusInternalServerError; StatusInsufficientStorage]
                   ∧ Method r = "PUT" ∧ accessLogger s' = accessLogger s)))
            ∨ (o = Panic "runtime error: invalid memory address or nil pointer dereference"
               ∧ Method r = "HEAD" ∧ bodyClosed s' = true ∧ status (w s') = None
               ∧ accessLogger s' = accessLogger s)
            ∨ (o = Exit 1 ∧ Method r = "PUT" ∧ ∃ e, sync_err env = Some e)).
  { intros code Hin (? & ? & ? & ?). left. split_and!; eauto 6. }
  assert (Hserved : ∀ code,
            Method r = "GET" →
            (∃ item,
               cacheItemFromRequestPath (URLPath r) (Dir (cache s)) = Ok item
               ∧ ContainsFile (cache s) (absFilePath item) = true) →
            o = Done tt ∧ bodyClosed s' = true ∧ status (w s') = Some code
            ∧ accessLogger s' = accessLogger s ++ [access_line r StatusOK] →
            (o = Done tt ∧ bodyClosed s' = true ∧
             ∃ code,
               status (w s') = Some code ∧
               ((Method r = "GET"
                 ∧ (∃ item,
                      cacheItemFromRequestPath (URLPath r) (Dir (cache s)) = Ok item
                      ∧ ContainsFile (cache s) (absFilePath item) = true)
                 ∧ accessLogger s' = accessLogger s ++ [access_line r StatusOK])
                ∨ (In code [StatusOK; StatusBadRequest; StatusNotFound; StatusMethodNotAllowed]
                   ∧ accessLogger s' = accessLogger s ++ [access_line r code])
                ∨ (In code [StatusInternalServerError; StatusInsufficientStorage]
                   ∧ Method r = "PUT" ∧ accessLogger s' = accessLogger s)))
            ∨ (o = Panic "runtime error: invalid memory address or nil pointer dereference"
               ∧ Method r = "HEAD" ∧ bodyClosed s' = true ∧ status (w s') = None
               ∧ accessLogger s' = accessLogger s)
            ∨ (o = Exit 1 ∧ Method r = "PUT" ∧ ∃ e, sync_err env = Some e)).
  { intros code HG Hitem (? & ? & ? & ?). left. split_and!; try assumption.
    exists code. split; [assumption |]. left. auto. }
  destruct (cacheItemFromRequestPath (URLPath r) (Dir (cache s)))
    as [item | msg] eqn:HP.
  2:{ unfold CacheHandler. rewrite defer_unfold. munfold. simpl. rewrite HP. simpl.
      unfold http_Error, Write, WriteHeader, logResponse, Body_Close. munfold.
      simpl. intros E. apply (Hanswer StatusBadRequest); [simpl; tauto |].
      unfold answer. simplify_eq. simpl. rewrite Hw. simpl.
      destruct (String.eqb (Method r) "HEAD"); simpl; eauto 6. }
  specialize (Hun item eq_refl).
  destruct (ContainsFile (cache s) (absFilePath item)) eqn:HC.
  - (* the index holds the key *)
    unfold CacheHandler. rewrite defer_unfold. munfold. simpl. rewrite HP. simpl.
    destruct (String.eqb (Method r) "GET") eqn:HG; simpl.
    { apply String.eqb_eq in HG.
      unfold contains, ServeFile, http_Error, Write, WriteHeader, logResponse,
        Body_Close.
      munfold. rewrite HC. simpl.
      destruct (containsDotDot (URLPath r)); simpl.
      - intros E. apply (Hserved StatusBadRequest); [exact HG | eauto |].
        simplify_eq. simpl. rewrite Hw. simpl.
        destruct (String.eqb (Method r) "HEAD"); simpl; eauto 6.
      - destruct (disk s !! absFilePath item) as [data|]; simpl; intros E.
        + apply (Hserved StatusOK); [exact HG | eauto |].
          simplify_eq. simpl. rewrite Hw. simpl.
          destruct (String.eqb (Method r) "HEAD"); simpl; eauto 6.
        + apply (Hserved StatusNotFound); [exact HG | eauto |].
          simplify_eq. simpl. rewrite Hw. simpl.
          destruct (String.eqb (Method r) "HEAD"); simpl; eauto 6. }
    destruct (String.eqb (Method r) "PUT") eqn:HU; simpl.
    { unfold contains, discardUpload, WriteHeader, logResponse, Body_Close.
      munfold. rewrite HC. simpl.
      intros E. apply (Hanswer StatusOK); [simpl; tauto |].
      unfold answer. simplify_eq. simpl. rewrite Hw. simpl. eauto 6. }
    destruct (String.eqb (Method r) "HEAD") eqn:HH; simpl.
    { unfold contains, WriteHeader, logResponse, Body_Close.
      munfold. rewrite HC. simpl.
      intros E. apply (Hanswer StatusOK); [simpl; tauto |].
      unfold answer. simplify_eq. simpl. rewrite Hw. simpl. eauto 6. }
    unfold http_Error, Write, WriteHeader, logResponse, Body_Close.
    munfold. simpl.
    intros E. apply (Hanswer StatusMethodNotAllowed); [simpl; tauto |].
    unfold answer. simplify_eq. simpl. rewrite Hw. simpl.
    destruct (String.eqb (Method r) "HEAD"); simpl; eauto 6.
  - (* the index does not hold the key *)
    destruct (String.eqb (Method r) "PUT") eqn:HU.
    { apply String.eqb_eq in HU.
      rewrite (put_absent_run _ _ _ _ HU HP HC Hun). simpl.
      destruct (upload env r item (acquire (absFilePath item) s)) as [o1 s1] eqn:Hup.
      destruct (upload_answer _ _ _ _ _ _ Hup) as [[-> Hans] | [-> He]].
      - simpl. now rewrite Hw.
      - intros E. simpl in Hans. destruct Hans as [[Hst Hlog] | [Hst Hlog]].
        + apply (Hanswer StatusOK); [simpl; tauto |].
          unfold answer. simplify_eq. simpl. eauto 6.
        + simplify_eq. left. simpl. split_and!; try reflexivity.
          destruct Hst as [Hst | Hst]; eexists; (split; [exact Hst |]); right;
            right; (split_and!; [simpl; tauto | exact HU | exact Hlog]).
      - intros E. simplify_eq. right. right. eauto. }
    unfold CacheHandler. rewrite defer_unfold. munfold. simpl. rewrite HP, HU. simpl.
    destruct (String.eqb (Method r) "GET") eqn:HG; simpl.
    { unfold contains, WriteHeader, logResponse, Body_Close.
      munfold. rewrite HC. simpl.
      intros E. apply (Hanswer StatusNotFound); [simpl; tauto |].
      unfold answer. simplify_eq. simpl. rewrite Hw. simpl. eauto 6. }
    destruct (String.eqb (Method r) "HEAD") eqn:HH; simpl.
    { unfold contains, Error_of, Body_Close.
      munfold. rewrite HC. simpl.
      intros E. simplify_eq. right. left. simpl.
      apply String.eqb_eq in HH. rewrite Hw. auto. }
    unfold http_Error, Write, WriteHeader, logResponse, Body_Close.
    munfold. simpl.
    intros E. apply (Hanswer StatusMethodNotAllowed); [simpl; tauto |].
    unfold answer. simplify_eq. simpl. rewrite Hw. simpl.
    destruct (String.eqb (Method r) "HEAD"); simpl; eauto 6.
Qed.

End Answers.

(** ** Uploads that fail or wait *)

Section Uploads.

Context {C : Type} `{Cache C} `{EnsureSpacer C}.
Implicit Types (s : server C) (env : faults) (r : Request) (item : cacheItem).

#[local] Arguments sha256_hex : simpl never.
#[local] Arguments Filepath.Join : simpl never.
#[local] Arguments hash_mismatch : simpl never.
#[local] Arguments access_line : simpl never.
#[local] Arguments disk_full_line : simpl never.
#[local] Arguments cacheItemFromRequestPath : simpl never.
#[local] Arguments tmp_name : simpl never.
#[local] Arguments upload_mutex : simpl never.
#[local] Arguments saveToDisk : simpl never.

(** X15: when the writer leaves its staging file behind.  Take a write
    whose staging file is created, at a path other than the destination.
    (a) For a CAS item whose bytes read do not have the key's digest,
    [saveToDisk] returns the mismatch error, whether or not the body was
    read to its end, and removes the staging file.  (b) When the digest
    check passes or does not apply (an AC item) and reading the body fails,
    it returns the read error after two system calls (create, write) and
    the staging file stays on disk with the bytes read.  (c) When the
    digest check passes or does not apply, the body is read to its end and
    the rename fails, it returns the rename error; the one removal it
    attempts is of the destination, and the staging file stays on disk
    with the bytes read. *)
Theorem staging_file_outlives_failed_write env r item s :
  temp_ok env s →
  tmp_name env (Dir (cache s)) ≠ absFilePath item →
  let tmp := tmp_name env (Dir (cache s)) in
  (verifyHash item = true → hash item ≠ sha256_hex (unread s) →
   ∃ s1,
     saveToDisk env r item s
       = (Done (0%Z, Some (hash_mismatch (hash item) (sha256_hex (unread s)))),
          s1)
     ∧ disk s1 !! tmp = None
     ∧ trace s1 =
         trace s ++ [SysTempFile tmp; SysWrite tmp (String.length (unread s));
                     SysRemove tmp])
  ∧ (verifyHash item = false ∨ hash item = sha256_hex (unread s) →
     (∀ e, BodyErr r = Some e →
        ∃ s1, saveToDisk env r item s = (Done (0%Z, Some e), s1)
              ∧ disk s1 !! tmp = Some (unread s)
              ∧ trace s1 =
                  trace s ++ [SysTempFile tmp;
                              SysWrite tmp (String.length (unread s))])
     ∧ (∀ e2, BodyErr r = None → sync_err env = None →
          rename_err env = Some e2 →
          ∃ s1, saveToDisk env r item s = (Done (0%Z, Some e2), s1)
                ∧ disk s1 !! tmp = Some (unread s)
                ∧ trace s1 =
                    trace s ++
                      [SysTempFile tmp; SysWrite tmp (String.length (unread s));
                       SysSync tmp; SysClose tmp;
                       SysRename tmp (absFilePath item);
                       SysRemove (absFilePath item)])).
Proof.
  intros Htmp Hne tmp. split.
  - intros Hv Hbad. eexists. split; [now apply save_mismatch |].
    simpl. split; [apply Htmp | reflexivity].
  - intros Hok.
    assert (Hhash : verifyHash item = true → hash item = sha256_hex (unread s)).
    { destruct Hok as [Hv | Hh]; [congruence | auto]. }
    split.
    + intros e He. eexists. split; [now apply save_read_error |].
      simpl. split; [apply lookup_insert_eq | reflexivity].
    + intros e2 He Hsync Hren. eexists.
      split; [apply save_rename_error; [assumption | now split | assumption..] |].
      simpl. fold tmp.
      destruct (<[tmp:=unread s]> (disk s) !! absFilePath item) eqn:Hd; simpl.
      * split; [| reflexivity].
        rewrite lookup_delete_ne by (intros E; apply Hne; symmetry; exact E).
        apply lookup_insert_eq.
      * split; [apply lookup_insert_eq | reflexivity].
Qed.

(** X16: a PUT whose staging file cannot be created.  The space is
    reserved first (the index and the disk are as the ensurer left them),
    then [ioutil.TempFile] fails: the answer is 500 with the error's
    text, the error is logged to the error logger and not to the access
    log, the body is not read, no system call is recorded, and the upload
    lock is released and deregistered. *)
Theorem staging_failure_reported env r s item c' d' e :
  Method r = "PUT" →
  cacheItemFromRequestPath (URLPath r) (Dir (cache s)) = Ok item →
  incoming r s →
  ContainsFile (cache s) (absFilePath item) = false →
  uncontended (absFilePath item) s →
  EnsureSpace (cache s) (disk s) (ContentLength r) = (true, c', d') →
  tmp_err env = Some e →
  ∃ s',
    CacheHandler env r s = (Done tt, s') ∧
    response_status s' = StatusInternalServerError ∧
    sent (w s') = e +:+ lf ∧
    errorLogger s' = errorLogger s ++ ["Error saving file: " +:+ e] ∧
    accessLogger s' = accessLogger s ∧
    unread s' = Body r ∧
    trace s' = trace s ∧ disk s' = d' ∧ cache s' = c' ∧
    ongoingUploads s' !! absFilePath item = None ∧
    mutexes s' !! upload_mutex (absFilePath item) s = Some false.
Proof.
  intros HM HP (Hw & Hu & Hb) HC Hun HE He.
  pose proof (upload_mutex_lt _ _ (proj2 Hun)) as Hlt.
  eexists. split.
  - rewrite (put_absent_run _ _ _ _ HM HP HC Hun).
    unfold upload, contains, discardUpload, logResponse, http_Error, Write,
      WriteHeader.
    munfold. simpl. rewrite HC. simpl. rewrite HE. simpl.
    rewrite (save_tempfile_error _ _ _ _ _ He). simpl. reflexivity.
  - unfold response_status. simpl. rewrite Hw, HM. simpl.
    split_and!; try reflexivity; try assumption.
    + apply lookup_delete_eq.
    + apply list_lookup_insert_eq. now rewrite length_insert.
Qed.

#[local] Arguments defer : simpl never.
#[local] Arguments upload : simpl never.

(** X17: a PUT of an absent key waits while the registry lock is held or
    while another upload of the same key holds the key's mutex, and it
    waits without any effect: the state is exactly the one before the
    request (nothing read from the body, nothing written, no file touched,
    the deferred [Body.Close] not run). *)
Theorem put_waits_for_upload_in_progress env r s item :
  Method r = "PUT" →
  cacheItemFromRequestPath (URLPath r) (Dir (cache s)) = Ok item →
  ContainsFile (cache s) (absFilePath item) = false →
  (ongoingUploadsMux s = true
   ∨ (ongoingUploadsMux s = false
      ∧ ∃ mux, ongoingUploads s !! absFilePath item = Some mux
               ∧ mutexes s !! mux = Some true)) →
  CacheHandler env r s = (Blocked, s).
Proof.
  intros HM HP HC Hbusy.
  unfold CacheHandler. rewrite defer_unfold. munfold. simpl. rewrite HP, HM. simpl.
  unfold contains. munfold. rewrite HC. simpl.
  unfold startUpload, Lock_registry, Unlock_registry. munfold.
  destruct Hbusy as [Hreg | (Hreg & mux & Hmux & Hheld)].
  - rewrite Hreg. reflexivity.
  - rewrite Hreg. simpl. rewrite defer_unfold. simpl. rewrite Hmux. simpl.
    unfold Lock. munfold. simpl. rewrite Hheld. simpl.
    f_equal. apply server_eq; simpl; auto.
Qed.

(** X18: the upload registry, from registration to deregistration.  On
    a free registry, [startUpload] of an unregistered path allocates a new
    unlocked mutex, registers it under the path and leaves the other
    paths alone; a second [startUpload] of the path returns the same
    mutex and changes nothing; [stopUpload] then restores the registry
    map as it was before, with the registry lock released. *)
Theorem upload_registry_round_trip path s :
  ongoingUploadsMux s = false →
  ongoingUploads s !! path = None →
  ∃ s1 s2,
    startUpload path s = (Done (length (mutexes s)), s1) ∧
    mutexes s1 = mutexes s ++ [false] ∧
    ongoingUploads s1 !! path = Some (length (mutexes s)) ∧
    (∀ q, q ≠ path → ongoingUploads s1 !! q = ongoingUploads s !! q) ∧
    startUpload path s1 = (Done (length (mutexes s)), s1) ∧
    stopUpload path s1 = (Done tt, s2) ∧
    ongoingUploads s2 = ongoingUploads s ∧
    ongoingUploadsMux s2 = false.
Proof.
  intros Hreg Hno.
  assert (Hun : uncontended path s).
  { split; [exact Hreg |]. intros mux E. congruence. }
  do 2 eexists. split.
  { rewrite (startUpload_run _ _ Hun). unfold upload_mutex. rewrite Hno. simpl.
    reflexivity. }
  split; [reflexivity |].
  split; [simpl; apply lookup_insert_eq |].
  split; [intros q Hq; simpl; now apply lookup_insert_ne |].
  split.
  { rewrite startUpload_run.
    - unfold upload_mutex. simpl. rewrite lookup_insert_eq. simpl. f_equal.
      apply server_eq; simpl; auto. now rewrite insert_insert_eq.
    - split; [exact Hreg |]. simpl. intros mux E.
      rewrite lookup_insert_eq in E. simplify_eq.
      rewrite lookup_app_r by lia. now rewrite Nat.sub_diag. }
  split.
  { apply stopUpload_run. exact Hreg. }
  simpl. split; [| exact Hreg].
  now rewrite delete_insert_eq, delete_id.
Qed.

End Uploads.

(** ** The access-log line *)

Section ClientAddress.

Import Net.

Lemma last_index_byte_absent c v :
  Str.contains_byte c v = false → last_index_byte c v = None.
Proof.
  induction v as [| a v IH]; [reflexivity |]. simpl.
  intros E. apply orb_false_iff in E as [Ea Ev].
  now rewrite (IH Ev), Ea.
Qed.

Lemma last_index_byte_sep c host port :
  Str.contains_byte c port = false →
  last_index_byte c (host +:+ String c port) = Some (String.length host).
Proof.
  intros Hp. induction host as [| a host IH]; simpl.
  - now rewrite (last_index_byte_absent _ _ Hp), eqb_ascii_refl.
  - now rewrite IH.
Qed.

Lemma substring_prefix host rest :
  String.substring 0 (String.length host) (host +:+ rest) = host.
Proof.
  induction host as [| a host IH]; simpl.
  - now destruct rest.
  - now rewrite IH.
Qed.

Lemma substring_all v : String.substring 0 (String.length v) v = v.
Proof. induction v as [| a v IH]; simpl; [reflexivity | now rewrite IH]. Qed.

Lemma substring_drop host rest :
  String.substring (String.length host)
    (String.length (host +:+ rest) - String.length host) (host +:+ rest) = rest.
Proof.
  induction host as [| a host IH]; simpl.
  - rewrite Nat.sub_0_r. apply substring_all.
  - exact IH.
Qed.

(** An address [host:port] in which neither part has a colon or a bracket
    splits at the colon. *)
Lemma SplitHostPort_plain host port :
  (∀ c, In c [":"; "["; "]"]%char →
        Str.contains_byte c host = false ∧ Str.contains_byte c port = false) →
  SplitHostPort (host +:+ ":" +:+ port) = Ok (host, port).
Proof.
  intros Hfree.
  destruct (Hfree ":"%char) as [Hhc Hpc]; [simpl; tauto |].
  destruct (Hfree "["%char) as [Hho Hpo]; [simpl; tauto |].
  destruct (Hfree "]"%char) as [Hhe Hpe]; [simpl; tauto |].
  unfold SplitHostPort.
  change (host +:+ ":" +:+ port) with (host +:+ String ":" port).
  rewrite (last_index_byte_sep _ _ _ Hpc).
  assert (Hb : match host +:+ String ":" port with
               | String a _ => Str.eqb_ascii a "["
               | EmptyString => false
               end = false).
  { destruct host as [| a host]; [reflexivity |]. simpl in *.
    now apply orb_false_iff in Hho as [-> _]. }
  rewrite Hb. unfold slice, slice_from.
  rewrite !Nat.sub_0_r, substring_prefix, Hhc.
  cbv iota beta. rewrite Nat.sub_0_r, substring_all.
  change (host +:+ String ":" port) with (host +:+ ":" +:+ port).
  rewrite !contains_byte_app. simpl. rewrite Hho, Hpo, Hhe, Hpe. simpl.
  do 2 f_equal.
  replace (String.length host + 1) with (String.length (host +:+ ":"))
    by (rewrite str_length_app; reflexivity).
  replace (host +:+ String ":" port) with ((host +:+ ":") +:+ port)
    by (now rewrite str_app_assoc).
  apply substring_drop.
Qed.

Lemma SplitHostPort_no_colon addr :
  Str.contains_byte ":" addr = false → SplitHostPort addr = Err missingPort.
Proof.
  intros Hc. unfold SplitHostPort. now rewrite (last_index_byte_absent _ _ Hc).
Qed.

(** An ASCII string has as many runes as bytes. *)
Lemma RuneCountInString_ascii v :
  Str.all_bytes is_ascii_byte v = true →
  Utf8.RuneCountInString v = String.length v.
Proof.
  unfold Utf8.RuneCountInString. induction v as [| a v IH]; [reflexivity |].
  simpl. intros E. apply andb_true_iff in E as [Ha Hv].
  unfold Utf8.rune_size. unfold is_ascii_byte in Ha. rewrite Ha. simpl.
  now rewrite (IH Hv).
Qed.

(** Padding counts runes: three runes in five bytes get one space. *)
Lemma pad_left_counts_runes : Str.pad_left 4 "Ünï" = " Ünï".
Proof. vm_compute. reflexivity. Qed.

(** X19: the access-log line for an ASCII method and client address.
    When the method is ASCII and the remote address is [host:port] with
    an ASCII host and no colon or bracket in either part, the line
    consists of the method behind as many spaces as it has fewer than 4
    bytes, the status code in decimal, the host alone, without the port,
    behind as many spaces as it has fewer than 15 bytes, and the request
    path, with single spaces between them.  When the remote address is
    ASCII and has no colon at all, the whole address stands in the host's
    place. *)
Theorem access_line_names_the_host r code :
  Str.all_bytes is_ascii_byte (Method r) = true →
  (∀ host port,
     RemoteAddr r = host +:+ ":" +:+ port →
     Str.all_bytes is_ascii_byte host = true →
     (∀ c, In c [":"; "["; "]"]%char →
           Str.contains_byte c host = false ∧ Str.contains_byte c port = false) →
     access_line r code =
       Str.replicate_byte (4 - String.length (Method r)) " " +:+ Method r
         +:+ " " +:+ Str.decimal code +:+ " "
         +:+ Str.replicate_byte (15 - String.length host) " " +:+ host
         +:+ " " +:+ URLPath r)
  ∧ (Str.contains_byte ":" (RemoteAddr r) = false →
     Str.all_bytes is_ascii_byte (RemoteAddr r) = true →
     access_line r code =
       Str.replicate_byte (4 - String.length (Method r)) " " +:+ Method r
         +:+ " " +:+ Str.decimal code +:+ " "
         +:+ Str.replicate_byte (15 - String.length (RemoteAddr r)) " "
         +:+ RemoteAddr r +:+ " " +:+ URLPath r).
Proof.
  intros HM. split.
  - intros host port Ha Hascii Hfree. unfold access_line, Str.pad_left.
    rewrite Ha, (SplitHostPort_plain _ _ Hfree).
    rewrite (RuneCountInString_ascii _ HM), (RuneCountInString_ascii _ Hascii).
    now rewrite !str_app_assoc.
  - intros Hc Hascii. unfold access_line, Str.pad_left.
    rewrite (SplitHostPort_no_colon _ Hc).
    rewrite (RuneCountInString_ascii _ HM), (RuneCountInString_ascii _ Hascii).
    now rewrite !str_app_assoc.
Qed.

End ClientAddress.

(** ** The status page *)

Section StatusPageProperties.

Context {C : Type} `{Cache C}.
Implicit Types (s : server C) (r : Request).

#[local] Arguments StatusPage.Encode : simpl never.


End StatusPageProperties.

(** ** One request after the other *)

Section Sequential.

Context {C : Type} `{Cache C} `{EnsureSpacer C}.
Implicit Types (s : server C) (env : faults) (r : Request) (item : cacheItem).

#[local] Arguments sha256_hex : simpl never.
#[local] Arguments Filepath.Join : simpl never.
#[local] Arguments hash_mismatch : simpl never.
#[local] Arguments access_line : simpl never.
#[local] Arguments disk_full_line : simpl never.
#[local] Arguments cacheItemFromRequestPath : simpl never.
#[local] Arguments tmp_name : simpl never.
#[local] Arguments upload_mutex : simpl never.
#[local] Arguments containsDotDot : simpl never.
#[local] Arguments Html.EscapeString : simpl never.
#[local] Arguments saveToDisk : simpl never.

(** A request that takes no upload lock returns or panics, with the
    registry as it was. *)
Lemma lock_free_paths env r s o s' :
  (Method r ≠ "PUT"
   ∨ (∃ msg, cacheItemFromRequestPath (URLPath r) (Dir (cache s)) = Err msg)
   ∨ (∃ item, cacheItemFromRequestPath (URLPath r) (Dir (cache s)) = Ok item
              ∧ ContainsFile (cache s) (absFilePath item) = true)) →
  CacheHandler env r s = (o, s') →
  ((∃ a, o = Done a) ∨ (∃ v, o = Panic v)) ∧ registry s' = registry s.
Proof.
  intros Hcase. unfold CacheHandler. rewrite defer_unfold. munfold. simpl.
  destruct (cacheItemFromRequestPath (URLPath r) (Dir (cache s)))
    as [item | msg] eqn:HP; simpl.
  2:{ unfold http_Error, Write, WriteHeader, logResponse, Body_Close. munfold.
      simpl. intros E. simplify_eq. eauto. }
  destruct (String.eqb (Method r) "GET") eqn:HG; simpl.
  { unfold contains, ServeFile, http_Error, Write, WriteHeader, logResponse,
      Body_Close.
    munfold. simpl. intros E.
    repeat (case_match; simplify_eq/=); eauto. }
  destruct (String.eqb (Method r) "PUT") eqn:HU; simpl.
  { apply String.eqb_eq in HU.
    destruct Hcase as [HM | [[msg HE] | (item' & HI & HC)]];
      [congruence | congruence |].
    simplify_eq.
    unfold contains, discardUpload, WriteHeader, logResponse, Body_Close.
    munfold. rewrite HC. simpl. intros E. simplify_eq. eauto. }
  destruct (String.eqb (Method r) "HEAD") eqn:HH; simpl.
  { unfold contains, Error_of, http_Error, Write, WriteHeader, logResponse,
      Body_Close.
    munfold. simpl. intros E.
    repeat (case_match; simplify_eq/=); eauto. }
  unfold http_Error, Write, WriteHeader, logResponse, Body_Close. munfold.
  simpl. intros E. simplify_eq. eauto.
Qed.

(** An upload returns or exits; it never waits and never panics. *)
Lemma upload_never_waits env r item s o s' :
  upload env r item s = (o, s') → o = Done tt ∨ o = Exit 1.
Proof.
  unfold upload, contains, discardUpload, logResponse, http_Error, Write,
    WriteHeader.
  munfold. simpl.
  destruct (ContainsFile (cache s) (absFilePath item)); simpl.
  - intros E. simplify_eq. auto.
  - destruct (EnsureSpace (cache s) (disk s) (ContentLength r)) as [[ok c'] d'].
    simpl. destruct ok; simpl.
    + match goal with |- context [saveToDisk env r item ?s0] =>
        destruct (saveToDisk env r item s0) as [o1 sd] eqn:Hs end.
      destruct (saveToDisk_outcome _ _ _ _ _ _ Hs) as [[[written err] ->] | [-> He]].
      * destruct err; intros E; simplify_eq; auto.
      * intros E. simplify_eq. auto.
    + intros E. simplify_eq. auto.
Qed.

(** X21: requests served one after the other never wait.  On a server
    with no request in flight (registry lock free, no upload registered,
    every upload mutex unlocked) no request ever waits for a lock; and
    unless the process exits with status 1, the server is again without a
    request in flight when the handler has returned or panicked: every
    lock taken was released and every registration undone. *)
Theorem requests_in_turn_never_wait env r s o s' :
  quiescent s →
  CacheHandler env r s = (o, s') →
  o ≠ Blocked
  ∧ (o = Exit 1 ∨ quiescent s').
Proof.
  intros (Hreg & Hup & Hmux) E.
  destruct (decide (Method r = "PUT")) as [HM | HM].
  2:{ destruct (lock_free_paths _ _ _ _ _ (or_introl HM) E)
        as [[[a ->] | [v ->]] Hr];
        (split; [discriminate |]); right;
        injection Hr as Hr1 Hr2 Hr3; unfold quiescent; now rewrite Hr1, Hr2, Hr3. }
  destruct (cacheItemFromRequestPath (URLPath r) (Dir (cache s)))
    as [item | msg] eqn:HP.
  2:{ destruct (lock_free_paths _ _ _ _ _ (or_intror (or_introl (ex_intro _ msg HP))) E)
        as [[[a ->] | [v ->]] Hr];
        (split; [discriminate |]); right;
        injection Hr as Hr1 Hr2 Hr3; unfold quiescent; now rewrite Hr1, Hr2, Hr3. }
  destruct (ContainsFile (cache s) (absFilePath item)) eqn:HC.
  { destruct (lock_free_paths _ _ _ _ _
                (or_intror (or_intror (ex_intro _ item (conj HP HC)))) E)
      as [[[a ->] | [v ->]] Hr];
      (split; [discriminate |]); right;
      injection Hr as Hr1 Hr2 Hr3; unfold quiescent; now rewrite Hr1, Hr2, Hr3. }
  assert (Hun : uncontended (absFilePath item) s).
  { split; [exact Hreg |]. intros mux Em. rewrite Hup, lookup_empty in Em.
    discriminate. }
  rewrite (put_absent_run _ _ _ _ HM HP HC Hun) in E. simpl in E.
  destruct (upload env r item (acquire (absFilePath item) s)) as [o1 s1] eqn:Hrun.
  pose proof (upload_registry _ _ _ _ _ _ Hrun) as Hr.
  injection Hr as Hr1 Hr2 Hr3. simpl in Hr1, Hr2, Hr3.
  destruct (upload_never_waits _ _ _ _ _ _ Hrun) as [-> | ->]; simplify_eq.
  - split; [discriminate |]. right. unfold quiescent. simpl.
    split; [reflexivity |]. split.
    + rewrite Hr1, Hup. rewrite delete_insert_eq. apply delete_empty.
    + rewrite Hr3, list_insert_insert_eq. apply Forall_insert; [| reflexivity].
      rewrite Hup, lookup_empty. apply Forall_app. split; [exact Hmux |].
      now constructor.
  - split; [discriminate |]. now left.
Qed.

End Sequential.

(** ** The reference collaborators and the concrete runs *)

Import Reference.

Lemma reference_contract : Contract index.
Proof.
  split.
  - intros c p n. simpl. apply bool_decide_eq_true. rewrite lookup_insert_eq. eauto.
  - reflexivity.
  - intros c d n. simpl.
    destruct (total c + n <=? idx_max c)%Z; [reflexivity |].
    destruct (n <=? idx_max c)%Z; reflexivity.
  - intros c d n p. simpl.
    destruct (total c + n <=? idx_max c)%Z; [auto |].
    destruct (n <=? idx_max c)%Z; [| auto]. simpl.
    rewrite lookup_empty. intros E. apply bool_decide_eq_true in E.
    now destruct E.
  - intros c d n p Hp. simpl.
    destruct (total c + n <=? idx_max c)%Z; [assumption |].
    destruct (n <=? idx_max c)%Z; [| assumption]. simpl.
    apply map_lookup_filter_None. left. assumption.
Qed.

Lemma idle_uncontended (c : index) (d : files) (body path : string) :
  uncontended path (fresh c d body).
Proof. split; [reflexivity |]. intros mux E. simpl in E. now rewrite lookup_empty in E. Qed.

Lemma idle_incoming (r : Request) (c : index) (d : files) :
  incoming r (fresh c d (Body r)).
Proof. repeat split. Qed.


(** C7 at a concrete request: the object is stored already. *)
Lemma put_existing_is_noop_witness :
  ∃ s',
    CacheHandler no_faults put_abc (fresh stored_index stored_disk "abc")
      = (Done tt, s') ∧
    response_status s' = StatusOK ∧ trace s' = [] ∧ disk s' = stored_disk.
Proof.
  destruct (put_existing_is_noop (Contract0 := reference_contract)
              no_faults put_abc (fresh stored_index stored_disk "abc") abc_item)
    as [Hnoop _].
  - reflexivity.
  - vm_compute. reflexivity.
  - apply (idle_incoming put_abc).
  - destruct Hnoop as (s' & Hrun & H200 & _ & _ & Ht & Hd & _).
    + vm_compute. reflexivity.
    + exists s'. auto.
Defined.

(** C8 at a concrete request: three bytes into a cache of two. *)
Lemma put_refused_insufficient_storage_witness :
  ∃ s',
    CacheHandler no_faults put_abc (fresh full_index ∅ "abc") = (Done tt, s') ∧
    response_status s' = StatusInsufficientStorage ∧
    errorLogger s' = ["The disk is full (0/2 bytes used)"] ∧
    trace s' = [] ∧ disk s' = ∅.
Proof.
  destruct (put_refused_insufficient_storage (Contract0 := reference_contract)
              no_faults put_abc (fresh full_index ∅ "abc") abc_item full_index ∅)
    as (s' & Hrun & H507 & _ & Hlog & _ & _ & _ & Ht & Hd & _).
  - reflexivity.
  - vm_compute. reflexivity.
  - apply (idle_incoming put_abc).
  - vm_compute. reflexivity.
  - apply idle_uncontended.
  - vm_compute. reflexivity.
  - exists s'. auto.
Defined.


(** C10 at a concrete path, with a prefix that tries to climb. *)
Lemma object_path_inside_bucket_witness :
  ∃ item,
    cacheItemFromRequestPath ("/../../etc/" +:+ abc_url) "/data" = Ok item ∧
    Filepath.Dir (absFilePath item) = "/data/cas" ∧
    Filepath.last_elem (absFilePath item) = abc_hash.
Proof.
  destruct (object_path_inside_bucket ("/../../etc/" +:+ abc_url) "/data" abc_item)
    as (pre & bucket & h & _ & Hh & Hp & Hd & Hl).
  - vm_compute. reflexivity.
  - exists abc_item. split_and!.
    + vm_compute. reflexivity.
    + vm_compute. reflexivity.
    + vm_compute. reflexivity.
Defined.

(** C4 as stated fails: the staging file of this write is in [/data], the
    destination in [/data/cas]. *)
Lemma staging_file_not_beside_destination :
  ∃ s',
    saveToDisk no_faults put_abc abc_item (fresh data_index ∅ "abc")
      = (Done (3%Z, None), s') ∧
    In (SysTempFile "/data/upload123456789") (trace s') ∧
    In (SysRename "/data/upload123456789" (absFilePath abc_item)) (trace s') ∧
    Filepath.Dir "/data/upload123456789" = "/data" ∧
    Filepath.Dir (absFilePath abc_item) = "/data/cas" ∧
    Filepath.Dir "/data/upload123456789" ≠ Filepath.Dir (absFilePath abc_item).
Proof.
  eexists. split; [vm_compute; reflexivity |].
  split_and!; try (vm_compute; tauto).
  apply String.eqb_neq. vm_compute. reflexivity.
Qed.

(** C4 as amended, at the same write and at a write into a cache whose
    root directory is the empty string. *)
Lemma staging_file_in_cache_root_witness :
  Filepath.Dir (tmp_name no_faults "/data") = "/data" ∧
  Filepath.Dir (absFilePath abc_item) ≠ Filepath.Dir (tmp_name no_faults "/data") ∧
  Filepath.Dir (tmp_name no_faults "") = "/tmp".
Proof.
  destruct (staging_file_in_cache_root no_faults put_abc
              (fresh data_index ∅ "abc") abc_item)
    as [(bucket & _ & Htmp & _ & _ & Hneq) _].
  - vm_compute. reflexivity.
  - reflexivity.
  - destruct (staging_file_in_cache_root no_faults put_abc
                (fresh (empty_index "" 100) ∅ "abc")
                {| hash := abc_hash; absFilePath := "cas/" +:+ abc_hash;
                   verifyHash := true |})
      as [(bucket' & _ & Htmp' & _) _].
    + vm_compute. reflexivity.
    + reflexivity.
    + split_and!.
      * etransitivity; [exact Htmp | vm_compute; reflexivity].
      * apply Hneq. discriminate.
      * etransitivity; [exact Htmp' | vm_compute; reflexivity].
Defined.

(** C6 as stated fails: a path of the stated shape that the parser
    rejects. *)
Lemma line_feed_prefix_rejected :
  key_shape lf_url ("/a" +:+ String (ascii_of_nat 10) "/") "ac/"
    (Str.replicate_byte 64 "0")
  ∧ cacheItemFromRequestPath lf_url "/data"
    = Err ("Resource name must be a SHA256 hash in hex. Got '"
             +:+ Html.EscapeString lf_url +:+ "'.").
Proof.
  split.
  - split_and!.
    + reflexivity.
    + right. exists ("/a" +:+ String (ascii_of_nat 10) ""). reflexivity.
    + now left.
    + split; reflexivity.
  - vm_compute. reflexivity.
Qed.

(** C2 at a concrete request. *)
Lemma head_absent_panics_witness :
  ∃ s',
    CacheHandler no_faults head_abc (fresh data_index ∅ "")
      = (Panic "runtime error: invalid memory address or nil pointer dereference",
         s') ∧
    status (w s') = None ∧ accessLogger s' = [].
Proof.
  destruct (head_absent_panics no_faults head_abc (fresh data_index ∅ "") abc_item)
    as (s' & Hrun & Hw & Hlog).
  - reflexivity.
  - vm_compute. reflexivity.
  - vm_compute. reflexivity.
  - exists s'. rewrite Hw. auto.
Defined.

(** C3 at a concrete request. *)
Lemma sync_failure_exits_witness :
  ∃ s',
    CacheHandler sync_fails put_abc (fresh data_index ∅ "abc") = (Exit 1, s') ∧
    status (w s') = None ∧
    ongoingUploads s' !! absFilePath abc_item = Some 0 ∧
    mutexes s' !! 0 = Some true.
Proof.
  destruct (sync_failure_exits sync_fails put_abc (fresh data_index ∅ "abc")
              abc_item data_index ∅ "sync: input/output error")
    as (s' & Hrun & Hw & Hreg & Hmux & _).
  - reflexivity.
  - vm_compute. reflexivity.
  - apply (idle_incoming put_abc).
  - vm_compute. reflexivity.
  - apply idle_uncontended.
  - vm_compute. reflexivity.
  - reflexivity.
  - vm_compute. reflexivity.
  - reflexivity.
  - intros _. vm_compute. reflexivity.
  - reflexivity.
  - exists s'. rewrite Hw. auto.
Defined.

(** C5 at a concrete request. *)
Lemma refused_put_not_logged_witness :
  ∃ s',
    CacheHandler no_faults put_abc (fresh full_index ∅ "abc") = (Done tt, s') ∧
    response_status s' = StatusInsufficientStorage ∧ accessLogger s' = [].
Proof.
  destruct (refused_put_not_logged no_faults put_abc (fresh full_index ∅ "abc")
              abc_item full_index ∅) as (s' & Hrun & H507 & Hlog).
  - reflexivity.
  - vm_compute. reflexivity.
  - apply (idle_incoming put_abc).
  - vm_compute. reflexivity.
  - apply idle_uncontended.
  - vm_compute. reflexivity.
  - exists s'. auto.
Defined.

Lemma reference_evicts_only : evicts_only (C := index).
Proof.
  intros c d n. simpl.
  destruct (total c + n <=? idx_max c)%Z; [reflexivity |].
  destruct (n <=? idx_max c)%Z; [apply map_filter_subseteq | reflexivity].
Qed.

Lemma run_eq {A S} (p : outcome A * S) : p = (p.1, p.2).
Proof. now destruct p. Qed.

(** X5 at the bare key and at the same key behind a prefix. *)
Lemma distinct_keys_distinct_files_witness :
  ∃ item1 item2,
    cacheItemFromRequestPath abc_url "/data" = Ok item1 ∧
    cacheItemFromRequestPath ("/mirror" +:+ abc_url) "/data" = Ok item2 ∧
    item1 = item2.
Proof.
  exists abc_item, abc_item.
  split; [vm_compute; reflexivity |]. split; [vm_compute; reflexivity |].
  apply (distinct_keys_distinct_files abc_url ("/mirror" +:+ abc_url) "/data");
    vm_compute; reflexivity.
Defined.

(** X6 at a two-segment prefix. *)
Lemma prefix_is_ignored_witness :
  cacheItemFromRequestPath ("/mirror/eu/cas/" +:+ abc_hash) "/data"
  = cacheItemFromRequestPath ("cas/" +:+ abc_hash) "/data".
Proof.
  destruct (prefix_is_ignored "mirror/eu" "cas/" abc_hash "/data")
    as (H1 & _ & _ & H4).
  - now right.
  - split; vm_compute; reflexivity.
  - reflexivity.
  - etransitivity; [exact H4 | symmetry; exact H1].
Defined.

(** X9 at a path that carries markup. *)
Lemma bad_request_echo_is_escaped_witness :
  ∃ s',
    CacheHandler no_faults (request "GET" "/<script>" "")
      (fresh data_index ∅ "") = (Done tt, s') ∧
    response_status s' = StatusBadRequest ∧
    sent (w s') =
      "Resource name must be a SHA256 hash in hex. Got '/&lt;script&gt;'." +:+ lf.
Proof.
  destruct (bad_request_echo_is_escaped no_faults (request "GET" "/<script>" "")
              (fresh data_index ∅ "")
              "Resource name must be a SHA256 hash in hex. Got '/&lt;script&gt;'.")
    as (s' & Hrun & H400 & Hsent & _).
  - vm_compute. reflexivity.
  - apply (idle_incoming (request "GET" "/<script>" "")).
  - exists s'. auto.
Defined.

(** X8 at a GET of a stored object. *)
Lemma only_put_changes_the_store_witness :
  disk (CacheHandler no_faults (request "GET" abc_url "")
          (fresh stored_index stored_disk "")).2 = stored_disk.
Proof.
  destruct (only_put_changes_the_store no_faults (request "GET" abc_url "")
              (fresh stored_index stored_disk "")
              (CacheHandler no_faults (request "GET" abc_url "")
                 (fresh stored_index stored_disk "")).1
              (CacheHandler no_faults (request "GET" abc_url "")
                 (fresh stored_index stored_disk "")).2)
    as (_ & Hd & _).
  - discriminate.
  - apply run_eq.
  - exact Hd.
Defined.

(** X10 at a GET of a stored object. *)
Lemma get_answers_witness :
  ∃ s',
    CacheHandler no_faults (request "GET" abc_url "")
      (fresh stored_index stored_disk "") = (Done tt, s') ∧
    (response_status s', sent (w s')) = (StatusOK, "abc").
Proof.
  destruct (get_answers no_faults (request "GET" abc_url "")
              (fresh stored_index stored_disk "") abc_item)
    as (s' & Hrun & Hans & _).
  - reflexivity.
  - vm_compute. reflexivity.
  - apply (idle_incoming (request "GET" abc_url "")).
  - exists s'. split; [exact Hrun |]. rewrite Hans. vm_compute. reflexivity.
Defined.

(** X2 at a HEAD of a stored object. *)
Lemma head_present_run_witness :
  ∃ s',
    CacheHandler no_faults head_abc (fresh stored_index stored_disk "")
      = (Done tt, s') ∧
    response_status s' = StatusOK ∧ sent (w s') = "".
Proof.
  destruct (head_present_run no_faults head_abc
              (fresh stored_index stored_disk "") abc_item)
    as (s' & Hrun & H200 & Hsent & _).
  - reflexivity.
  - vm_compute. reflexivity.
  - vm_compute. reflexivity.
  - apply (idle_incoming head_abc).
  - exists s'. auto.
Defined.

(** X3 at a DELETE. *)
Lemma method_not_allowed_run_witness :
  ∃ s',
    CacheHandler no_faults (request "DELETE" abc_url "")
      (fresh stored_index stored_disk "") = (Done tt, s') ∧
    response_status s' = StatusMethodNotAllowed ∧
    sent (w s') = "Method 'DELETE' not supported." +:+ lf.
Proof.
  destruct (method_not_allowed_run no_faults (request "DELETE" abc_url "")
              (fresh stored_index stored_disk "") abc_item)
    as (s' & Hrun & H405 & Hsent & _).
  - vm_compute. reflexivity.
  - discriminate.
  - discriminate.
  - discriminate.
  - apply (idle_incoming (request "DELETE" abc_url "")).
  - exists s'. auto.
Defined.

(** X4: a write and a read of the same object on the reference server,
    under the bare key and under the same key behind a [..] element. *)
Lemma put_then_get_round_trip_witness :
  (∃ s' s'',
     CacheHandler no_faults put_abc (fresh data_index ∅ "abc") = (Done tt, s') ∧
     response_status s' = StatusOK ∧
     CacheHandler no_faults (request "GET" abc_url "")
       (arrive (request "GET" abc_url "") s') = (Done tt, s'') ∧
     response_status s'' = StatusOK ∧ sent (w s'') = "abc")
  ∧ (∃ s' s'',
       CacheHandler no_faults (request "PUT" ("/.." +:+ abc_url) "abc")
         (fresh data_index ∅ "abc") = (Done tt, s') ∧
       response_status s' = StatusOK ∧
       CacheHandler no_faults (request "GET" ("/.." +:+ abc_url) "")
         (arrive (request "GET" ("/.." +:+ abc_url) "") s') = (Done tt, s'') ∧
       response_status s'' = StatusBadRequest).
Proof.
  split.
  - destruct (put_then_get_round_trip (Contract0 := reference_contract)
                no_faults put_abc (fresh data_index ∅ "abc") abc_item
                data_index ∅)
      as (s' & Hrun & H200 & _ & _ & _ & Hget).
    + reflexivity.
    + vm_compute. reflexivity.
    + apply (idle_incoming put_abc).
    + vm_compute. reflexivity.
    + apply idle_uncontended.
    + vm_compute. reflexivity.
    + reflexivity.
    + vm_compute. reflexivity.
    + reflexivity.
    + intros _. vm_compute. reflexivity.
    + reflexivity.
    + reflexivity.
    + destruct (Hget no_faults (request "GET" abc_url "")) as (s'' & Hrun2 & Hans).
      * reflexivity.
      * reflexivity.
      * exists s', s''. split_and!; try assumption.
        -- apply (f_equal fst) in Hans. exact Hans.
        -- apply (f_equal snd) in Hans. exact Hans.
  - destruct (put_then_get_round_trip (Contract0 := reference_contract)
                no_faults (request "PUT" ("/.." +:+ abc_url) "abc")
                (fresh data_index ∅ "abc") abc_item data_index ∅)
      as (s' & Hrun & H200 & _ & _ & _ & Hget).
    + reflexivity.
    + vm_compute. reflexivity.
    + apply (idle_incoming (request "PUT" ("/.." +:+ abc_url) "abc")).
    + vm_compute. reflexivity.
    + apply idle_uncontended.
    + vm_compute. reflexivity.
    + reflexivity.
    + vm_compute. reflexivity.
    + reflexivity.
    + intros _. vm_compute. reflexivity.
    + reflexivity.
    + reflexivity.
    + destruct (Hget no_faults (request "GET" ("/.." +:+ abc_url) ""))
        as (s'' & Hrun2 & Hans).
      * reflexivity.
      * reflexivity.
      * exists s', s''. split_and!; try assumption.
        apply (f_equal fst) in Hans. etransitivity; [exact Hans |].
        vm_compute. reflexivity.
Defined.

(** X1 on the reference server without faults. *)
Lemma put_returns_or_sync_fatal_witness :
  ∃ s',
    CacheHandler no_faults put_abc (fresh data_index ∅ "abc") = (Done tt, s') ∧
    ongoingUploads s' !! absFilePath abc_item = None ∧
    bodyClosed s' = true.
Proof.
  destruct (put_returns_or_sync_fatal no_faults put_abc
              (fresh data_index ∅ "abc") abc_item
              (CacheHandler no_faults put_abc (fresh data_index ∅ "abc")).1
              (CacheHandler no_faults put_abc (fresh data_index ∅ "abc")).2)
    as [(Ho & _ & Hreg & _ & Hclosed) | (_ & e & He)].
  - reflexivity.
  - vm_compute. reflexivity.
  - apply (idle_incoming put_abc).
  - vm_compute. reflexivity.
  - apply idle_uncontended.
  - apply run_eq.
  - eexists. split; [| split; [exact Hreg | exact Hclosed]].
    rewrite <- Ho. apply run_eq.
  - discriminate He.
Defined.

(** X14 at a GET of a key the index does not hold. *)
Lemma every_request_ends_in_one_of_three_ways_witness :
  ∃ s',
    CacheHandler no_faults (request "GET" abc_url "") (fresh data_index ∅ "")
      = (Done tt, s') ∧
    bodyClosed s' = true.
Proof.
  destruct (every_request_ends_in_one_of_three_ways no_faults
              (request "GET" abc_url "") (fresh data_index ∅ "")
              (CacheHandler no_faults (request "GET" abc_url "")
                 (fresh data_index ∅ "")).1
              (CacheHandler no_faults (request "GET" abc_url "")
                 (fresh data_index ∅ "")).2)
    as [(Ho & Hclosed & _) | [(_ & HM & _) | (_ & HM & _)]].
  - apply (idle_incoming (request "GET" abc_url "")).
  - intros item _. apply idle_uncontended.
  - apply run_eq.
  - eexists. split; [| exact Hclosed]. rewrite <- Ho. apply run_eq.
  - discriminate HM.
  - discriminate HM.
Defined.

(** X12 across an upload into an empty cache. *)
Lemma cas_objects_stay_sound_witness :
  cas_sound
    (Dir (cache (CacheHandler no_faults put_abc (fresh data_index ∅ "abc")).2))
    (disk (CacheHandler no_faults put_abc (fresh data_index ∅ "abc")).2).
Proof.
  apply (cas_objects_stay_sound (Contract0 := reference_contract)
           no_faults put_abc (fresh data_index ∅ "abc")
           (CacheHandler no_faults put_abc (fresh data_index ∅ "abc")).1).
  - apply reference_evicts_only.
  - reflexivity.
  - apply run_eq.
  - intros h content _ E. simpl in E. now rewrite lookup_empty in E.
Defined.


(** X15 at two uploads under the key of [abc]: one whose body arrives in
    full before the read fails, one that is cut short. *)
Lemma staging_file_outlives_failed_write_witness :
  ∃ s1 s2,
    saveToDisk no_faults
      {| Method := "PUT"; URLPath := abc_url; RemoteAddr := "10.0.0.7:51234";
         ContentLength := 3; Body := "abc"; BodyErr := Some "unexpected EOF" |}
      abc_item (fresh data_index ∅ "abc")
    = (Done (0%Z, Some "unexpected EOF"), s1)
    ∧ disk s1 !! "/data/upload123456789" = Some "abc"
    ∧ saveToDisk no_faults
        {| Method := "PUT"; URLPath := abc_url; RemoteAddr := "10.0.0.7:51234";
           ContentLength := 3; Body := "abc"; BodyErr := Some "unexpected EOF" |}
        abc_item (fresh data_index ∅ "ab")
      = (Done (0%Z, Some (hash_mismatch abc_hash (sha256_hex "ab"))), s2)
    ∧ disk s2 !! "/data/upload123456789" = None.
Proof.
  destruct (staging_file_outlives_failed_write no_faults
              {| Method := "PUT"; URLPath := abc_url;
                 RemoteAddr := "10.0.0.7:51234"; ContentLength := 3;
                 Body := "abc"; BodyErr := Some "unexpected EOF" |}
              abc_item (fresh data_index ∅ "abc"))
    as [_ Hkept].
  - split; [reflexivity | vm_compute; reflexivity].
  - apply String.eqb_neq. vm_compute. reflexivity.
  - destruct Hkept as [Hread _]; [right; vm_compute; reflexivity |].
    destruct (Hread "unexpected EOF" eq_refl) as (s1 & Hrun1 & Hd1 & _).
    destruct (staging_file_outlives_failed_write no_faults
                {| Method := "PUT"; URLPath := abc_url;
                   RemoteAddr := "10.0.0.7:51234"; ContentLength := 3;
                   Body := "abc"; BodyErr := Some "unexpected EOF" |}
                abc_item (fresh data_index ∅ "ab"))
      as [Hcut _].
    + split; [reflexivity | vm_compute; reflexivity].
    + apply String.eqb_neq. vm_compute. reflexivity.
    + destruct Hcut as (s2 & Hrun2 & Hd2 & _).
      * reflexivity.
      * apply String.eqb_neq. vm_compute. reflexivity.
      * exists s1, s2. split_and!; assumption.
Defined.

(** X16 when the staging file cannot be created. *)
Lemma staging_failure_reported_witness :
  ∃ s',
    CacheHandler
      {| os_TempDir := "/tmp"; tmp_random := "123456789";
         tmp_err := Some "open /data/upload123456789: permission denied";
         sync_err := None; rename_err := None |}
      put_abc (fresh data_index ∅ "abc") = (Done tt, s') ∧
    response_status s' = StatusInternalServerError ∧
    unread s' = "abc" ∧ trace s' = [].
Proof.
  destruct (staging_failure_reported
              {| os_TempDir := "/tmp"; tmp_random := "123456789";
                 tmp_err := Some "open /data/upload123456789: permission denied";
                 sync_err := None; rename_err := None |}
              put_abc (fresh data_index ∅ "abc") abc_item data_index ∅
              "open /data/upload123456789: permission denied")
    as (s' & Hrun & H500 & _ & _ & _ & Hu & Ht & _).
  - reflexivity.
  - vm_compute. reflexivity.
  - apply (idle_incoming put_abc).
  - vm_compute. reflexivity.
  - apply idle_uncontended.
  - vm_compute. reflexivity.
  - reflexivity.
  - exists s'. auto.
Defined.

(** X17 while another upload of the key holds its lock. *)
Lemma put_waits_for_upload_in_progress_witness :
  CacheHandler no_faults put_abc
    (set_mutexes [true]
       (set_uploads {[ absFilePath abc_item := 0 ]} (fresh data_index ∅ "abc")))
  = (Blocked,
     set_mutexes [true]
       (set_uploads {[ absFilePath abc_item := 0 ]} (fresh data_index ∅ "abc"))).
Proof.
  apply (put_waits_for_upload_in_progress no_faults put_abc _ abc_item).
  - reflexivity.
  - vm_compute. reflexivity.
  - vm_compute. reflexivity.
  - right. split; [reflexivity |]. exists 0. split; [| reflexivity].
    simpl. apply lookup_singleton_eq.
Defined.

(** X18 on an idle server. *)
Lemma upload_registry_round_trip_witness :
  ∃ s1 s2,
    startUpload "/data/cas/k" (fresh data_index ∅ "") = (Done 0, s1) ∧
    startUpload "/data/cas/k" s1 = (Done 0, s1) ∧
    stopUpload "/data/cas/k" s1 = (Done tt, s2) ∧
    ongoingUploads s2 = ∅.
Proof.
  destruct (upload_registry_round_trip "/data/cas/k" (fresh data_index ∅ ""))
    as (s1 & s2 & H1 & _ & _ & _ & H2 & H3 & H4 & _).
  - reflexivity.
  - simpl. apply lookup_empty.
  - exists s1, s2. auto.
Defined.

(** X19 at the address of the reference requests. *)
Lemma access_line_names_the_host_witness :
  access_line (request "GET" abc_url "") 200
  = " GET 200        10.0.0.7 " +:+ abc_url.
Proof.
  destruct (access_line_names_the_host (request "GET" abc_url "") 200)
    as [Hsplit _]; [reflexivity |].
  rewrite (Hsplit "10.0.0.7" "51234").
  - vm_compute. reflexivity.
  - reflexivity.
  - reflexivity.
  - intros c Hc. simpl in Hc.
    destruct Hc as [<- | [<- | [<- | []]]]; split; reflexivity.
Defined.


(** X21 across an upload on an idle server. *)
Lemma requests_in_turn_never_wait_witness :
  quiescent (CacheHandler no_faults put_abc (fresh data_index ∅ "abc")).2.
Proof.
  destruct (requests_in_turn_never_wait no_faults put_abc
              (fresh data_index ∅ "abc")
              (CacheHandler no_faults put_abc (fresh data_index ∅ "abc")).1
              (CacheHandler no_faults put_abc (fresh data_index ∅ "abc")).2)
    as [_ [Hexit | Hq]].
  - split; [reflexivity |]. split; [reflexivity | constructor].
  - apply run_eq.
  - vm_compute in Hexit. discriminate Hexit.
  - exact Hq.
Defined.
